(** * InvestAI: the resilient extraction pipeline, embedded in Rocq

    A shallow embedding of the parts of the InvestAI repository that its
    specification talks about:

    - [JSONUtils]     src/core/utils/json_utils.py   (response repair)
    - [SmartCache]    src/core/cache/smart_cache.py  (result cache)
    - [Extraction]    src/main.py, src/core/agents/event_extractor.py
                      (deduplication, batch extraction, per-item fallback)
    - [PrioritySystem] src/core/processing/priority_system.py
    - [QualityAssurance] src/core/quality/quality_assurance.py

    Python values are dynamically typed; the embedding keeps that: a value is
    a [pyval], an operation that can raise returns a [pyresult].  Python text
    is a list of Unicode code points.  Python numbers are exact rationals:
    rounding of binary floating point is not modelled.

    The standard library pieces the code calls ([re.sub], [str.strip],
    [json.loads], ...) are modelled in [Py], [Re] and [Json]; the external
    collaborators (the language model, the clock, the hash function, the
    date parser) are arguments of the functions that use them. *)

From Stdlib Require Import ZArith NArith QArith Qminmax String Ascii List Bool Lia Lqa Wf_nat.
From stdpp Require Import base option list gmap.
Import ListNotations.

Set Default Proof Using "Type".
Set Warnings "-register-all".

(* ===================================================================== *)
(** * Part I: definitions                                                 *)
(* ===================================================================== *)

(** ** Python values, text and exceptions *)

Module Py.

(** A character is its Unicode code point; text is a list of them, so that
    [length] is Python's [len]. *)
Definition char : Type := N.
Definition pystr : Type := list N.

(** Source literals are UTF-8; [utf8] decodes a byte sequence.  A byte that
    does not start a well-formed sequence is kept as it is. *)
Definition cont (b : N) : N := (b mod 64)%N.

Fixpoint utf8 (bs : list N) : pystr :=
  match bs with
  | [] => []
  | b0 :: t0 =>
    if (b0 <? 192)%N then b0 :: utf8 t0
    else
      match t0 with
      | [] => [b0]
      | b1 :: t1 =>
        if (b0 <? 224)%N then ((b0 mod 32) * 64 + cont b1)%N :: utf8 t1
        else
          match t1 with
          | [] => b0 :: utf8 t0
          | b2 :: t2 =>
            if (b0 <? 240)%N
            then ((b0 mod 16) * 4096 + cont b1 * 64 + cont b2)%N :: utf8 t2
            else
              match t2 with
              | [] => b0 :: utf8 t0
              | b3 :: t3 =>
                ((b0 mod 8) * 262144 + cont b1 * 4096 + cont b2 * 64 + cont b3)%N
                  :: utf8 t3
              end
          end
      end
  end.

(** [str "..."] is the Python string written between the quotes. *)
Definition str (s : string) : pystr :=
  utf8 (map N_of_ascii (list_ascii_of_string s)).
Arguments str s%_string.

(** The double quote cannot be written inside a literal of this file. *)
Definition dquote : char := 34%N.
Definition quoted (s : string) : pystr := dquote :: str s ++ [dquote].
Arguments quoted s%_string.

Definition char_of (s : string) : char :=
  match str s with c :: _ => c | [] => 0%N end.
Arguments char_of s%_string.

Definition str_eqb (a b : pystr) : bool := bool_decide (a = b).

(** [not s] for text. *)
Definition is_empty (s : pystr) : bool :=
  match s with [] => true | _ :: _ => false end.

(** *** Exceptions and results *)

Inductive exn : Type :=
| JSONDecodeError
| RecursionError
| ValueError
| TypeError
| AttributeError
| KeyError
| IndexError
| StopIteration
| OtherError (code : N).

(** [json.JSONDecodeError] is the only class the code catches by name. *)
Definition is_JSONDecodeError (e : exn) : bool :=
  match e with JSONDecodeError => true | _ => false end.

Inductive pyresult (A : Type) : Type :=
| Ok (a : A)
| Raise (e : exn).
Arguments Ok {A} a.
Arguments Raise {A} e.

Definition bind {A B} (m : pyresult A) (f : A -> pyresult B) : pyresult B :=
  match m with Ok a => f a | Raise e => Raise e end.

Definition is_ok {A} (m : pyresult A) : bool :=
  match m with Ok _ => true | Raise _ => false end.

(** *** Numbers

    A Python float is a rational, an infinity or a NaN; an int is an
    integer.  [json.loads] produces all of them. *)
Inductive pyfloat : Type :=
| Fin (q : Q)
| Inf (negative : bool)
| NaN.

Definition Qlt_bool (x y : Q) : bool := negb (Qle_bool y x).

Definition fadd (a b : pyfloat) : pyfloat :=
  match a, b with
  | NaN, _ | _, NaN => NaN
  | Fin x, Fin y => Fin (x + y)
  | Inf s, Fin _ | Fin _, Inf s => Inf s
  | Inf s, Inf s' => if Bool.eqb s s' then Inf s else NaN
  end.

Definition fmul (a b : pyfloat) : pyfloat :=
  match a, b with
  | NaN, _ | _, NaN => NaN
  | Fin x, Fin y => Fin (x * y)
  | Inf s, Fin y | Fin y, Inf s =>
    if Qeq_bool y 0 then NaN else Inf (xorb s (Qlt_bool y 0))
  | Inf s, Inf s' => Inf (xorb s s')
  end.

(** [a < b] and [a <= b] *)
Definition flt (a b : pyfloat) : bool :=
  match a, b with
  | NaN, _ | _, NaN => false
  | Fin x, Fin y => Qlt_bool x y
  | Inf true, Inf true => false
  | Inf true, _ => true
  | Inf false, _ => false
  | Fin _, Inf s => negb s
  end.

Definition fle (a b : pyfloat) : bool :=
  match a, b with
  | NaN, _ | _, NaN => false
  | Fin x, Fin y => Qle_bool x y
  | Inf true, _ => true
  | Inf false, Inf false => true
  | Inf false, _ => false
  | Fin _, Inf s => negb s
  end.

Definition of_Z (z : Z) : pyfloat := Fin (inject_Z z).

(** *** Values *)
Inductive pyval : Type :=
| PNone
| PBool (b : bool)
| PInt (z : Z)
| PFloat (f : pyfloat)
| PStr (s : pystr)
| PList (l : list pyval)
| PDict (d : list (pystr * pyval)).

(** A dict keeps insertion order; keys are text, as in decoded JSON and in
    every dict literal of the repository. *)
Definition pydict : Type := list (pystr * pyval).

(** [d.get(k)] *)
Fixpoint dget (d : pydict) (k : pystr) : option pyval :=
  match d with
  | [] => None
  | (k', v) :: d' => if str_eqb k' k then Some v else dget d' k
  end.

(** [d.get(k, default)] *)
Definition dget_or (d : pydict) (k : pystr) (default : pyval) : pyval :=
  match dget d k with Some v => v | None => default end.

(** [k in d] *)
Definition dhas (d : pydict) (k : pystr) : bool :=
  match dget d k with Some _ => true | None => false end.

(** [d[k] = v]: the value is replaced in place, a new key goes last. *)
Fixpoint dset (d : pydict) (k : pystr) (v : pyval) : pydict :=
  match d with
  | [] => [(k, v)]
  | (k', v') :: d' =>
    if str_eqb k' k then (k', v) :: d' else (k', v') :: dset d' k v
  end.

(** Truth value of an object, as [if x:] and [not x] test it. *)
Definition float_is_zero (f : pyfloat) : bool :=
  match f with Fin q => Qeq_bool q 0 | _ => false end.

Definition truthy (v : pyval) : bool :=
  match v with
  | PNone => false
  | PBool b => b
  | PInt z => negb (z =? 0)%Z
  | PFloat f => negb (float_is_zero f)
  | PStr s => negb (is_empty s)
  | PList l => match l with [] => false | _ => true end
  | PDict d => match d with [] => false | _ => true end
  end.

(** The number an object is, if it is one ([bool] is a subclass of [int]). *)
Definition as_number (v : pyval) : option pyfloat :=
  match v with
  | PBool b => Some (of_Z (Z.b2z b))
  | PInt z => Some (of_Z z)
  | PFloat f => Some f
  | _ => None
  end.

(** [len(x)] *)
Definition py_len (x : pyval) : pyresult nat :=
  match x with
  | PStr s => Ok (length s)
  | PList l => Ok (length l)
  | PDict d => Ok (length d)
  | _ => Raise TypeError
  end.

(** The elements a [for] loop or [list.extend] takes from an object. *)
Definition py_iter (x : pyval) : pyresult (list pyval) :=
  match x with
  | PList l => Ok l
  | PStr s => Ok (map (fun c => PStr [c]) s)
  | PDict d => Ok (map (fun kv => PStr (fst kv)) d)
  | _ => Raise TypeError
  end.

Definition is_str (s : pystr) (v : pyval) : bool :=
  match v with PStr t => str_eqb t s | _ => false end.

(** [x in strings] for a list of text. *)
Definition in_strs (x : pyval) (strings : list pystr) : bool :=
  existsb (fun s => is_str s x) strings.

(** *** Text operations *)

(** [str(n)] for a natural number. *)
Fixpoint show_digits (fuel n : nat) (acc : pystr) : pystr :=
  match fuel with
  | O => acc
  | S fuel' =>
    let acc' := (48 + N.of_nat (n mod 10))%N :: acc in
    if (n / 10 =? 0)%nat then acc' else show_digits fuel' (n / 10) acc'
  end.
Definition show_nat (n : nat) : pystr := show_digits (S n) n [].


(** [str.isspace] on one character; also the class [\s] of [re]. *)
Definition isspace (c : char) : bool :=
  ((9 <=? c) && (c <=? 13) || (28 <=? c) && (c <=? 32)
   || (c =? 133) || (c =? 160) || (c =? 5760)
   || (8192 <=? c) && (c <=? 8202)
   || (c =? 8232) || (c =? 8233) || (c =? 8239) || (c =? 8287)
   || (c =? 12288))%N.

Fixpoint lstrip (s : pystr) : pystr :=
  match s with
  | c :: s' => if isspace c then lstrip s' else s
  | [] => []
  end.

Definition rstrip (s : pystr) : pystr := rev (lstrip (rev s)).

(** [s.strip()] *)
Definition strip (s : pystr) : pystr := rstrip (lstrip s).

(** [s.find(c)] for a one-character needle: the first index, or -1. *)
Fixpoint find_from (c : char) (s : pystr) (i : Z) : Z :=
  match s with
  | [] => (-1)%Z
  | x :: s' => if (x =? c)%N then i else find_from c s' (i + 1)%Z
  end.
Definition find (c : char) (s : pystr) : Z := find_from c s 0%Z.

(** [s.rfind(c)]: the last index, or -1. *)
Fixpoint rfind_from (c : char) (s : pystr) (i : Z) (last : Z) : Z :=
  match s with
  | [] => last
  | x :: s' => rfind_from c s' (i + 1)%Z (if (x =? c)%N then i else last)
  end.
Definition rfind (c : char) (s : pystr) : Z := rfind_from c s 0%Z (-1)%Z.

(** [s[a:b]] for indices that are not negative. *)
Definition slice (a b : Z) (s : pystr) : pystr :=
  drop (Z.to_nat a) (take (Z.to_nat b) s).

(** [s.replace(old, new)] for a two-character [old]. *)
Fixpoint replace2 (o1 o2 : char) (new : pystr) (s : pystr) : pystr :=
  match s with
  | [] => []
  | c :: t =>
    match t with
    | c' :: r =>
      if ((c =? o1) && (c' =? o2))%N then new ++ replace2 o1 o2 new r
      else c :: replace2 o1 o2 new t
    | [] => [c]
    end
  end.

(** [s.lower()].  Only the letters A-Z change: the text the repository
    lowers is searched for keywords that have no case. *)
Definition lower_char (c : char) : char :=
  if ((65 <=? c) && (c <=? 90))%N then (c + 32)%N else c.
Definition lower (s : pystr) : pystr := map lower_char s.

Fixpoint starts_with (p s : pystr) : bool :=
  match p, s with
  | [], _ => true
  | a :: p', b :: s' => (a =? b)%N && starts_with p' s'
  | _ :: _, [] => false
  end.

(** [sub in s] on text. *)
Fixpoint contains (sub s : pystr) : bool :=
  starts_with sub s ||
  match s with
  | [] => false
  | _ :: s' => contains sub s'
  end.

End Py.

(** ** Regular expressions: the fragment of [re] the repository uses *)

Module Re.
Import Py.

(** Character classes. *)
Definition cls : Type := char -> bool.

Definition lit (s : string) : cls := fun c => (c =? char_of s)%N.
Arguments lit s%_string.
Definition is_dquote : cls := fun c => (c =? dquote)%N.
Definition one_of (cs : pystr) : cls := fun c => bool_decide (c ∈ cs).
Definition none_of (cs : pystr) : cls := fun c => negb (bool_decide (c ∈ cs)).
Definition range (lo hi : N) : cls := fun c => ((lo <=? c) && (c <=? hi))%N.
Definition either (a b : cls) : cls := fun c => a c || b c.

(** [\s], [\d] and [\w].  [\d] and [\w] are exact on ASCII; beyond it [\w]
    covers the CJK ideographs, the alphabet of the texts the repository
    handles. *)
Definition space : cls := isspace.
Definition digit : cls := range 48 57.
Definition word : cls :=
  fun c => (range 48 57 c || range 65 90 c || range 97 122 c || (c =? 95)
            || range 19968 40959 c)%N.

(** Patterns: one character of a class, possibly repeated (greedy), a
    sequence, a capturing group, a look-ahead. *)
Inductive quant : Type := Once | Star | Plus.

Inductive re : Type :=
| Eps
| Chr (c : cls) (q : quant)
| Seq (a b : re)
| Group (a : re)
| Ahead (a : re).

Definition captures : Type := list pystr.

(** The longest run of [c] first, then shorter ones: [k] is the rest of the
    pattern and decides whether a run is accepted. *)
Fixpoint greedy {R} (c : cls) (s : pystr) (k : pystr -> option R) : option R :=
  match s with
  | x :: s' =>
    if c x then
      match greedy c s' k with
      | Some r => Some r
      | None => k s
      end
    else k s
  | [] => k s
  end.

(** Backtracking matcher anchored at the head of [s].  The continuation
    receives what is left of the text and the groups closed so far. *)
Fixpoint matches (r : re) (s : pystr) (caps : captures)
    (k : pystr -> captures -> option (pystr * captures))
    : option (pystr * captures) :=
  match r with
  | Eps => k s caps
  | Chr c Once =>
    match s with
    | x :: s' => if c x then k s' caps else None
    | [] => None
    end
  | Chr c Star => greedy c s (fun s' => k s' caps)
  | Chr c Plus =>
    match s with
    | x :: s' => if c x then greedy c s' (fun s'' => k s'' caps) else None
    | [] => None
    end
  | Seq a b => matches a s caps (fun s1 c1 => matches b s1 c1 k)
  | Group a =>
    matches a s caps
      (fun s1 c1 => k s1 (c1 ++ [take (length s - length s1) s]))
  | Ahead a =>
    match matches a s caps (fun s1 c1 => Some (s1, c1)) with
    | Some (_, c1) => k s c1
    | None => None
    end
  end.

(** [re.match]: the rest of the text after the match, and the groups. *)
Definition match_at (r : re) (s : pystr) : option (pystr * captures) :=
  matches r s [] (fun s1 c1 => Some (s1, c1)).

(** Replacement templates: literal text and group references [\1], [\2]. *)
Inductive piece : Type :=
| Text (t : pystr)
| Ref (n : nat).

Definition expand (tpl : list piece) (caps : captures) : pystr :=
  flat_map (fun p => match p with
                     | Text t => t
                     | Ref n => nth (n - 1) caps []
                     end) tpl.

(** [re.sub(r, tpl, s)]: leftmost matches, not overlapping, replaced from
    left to right.  After an empty match one character is copied. *)
Fixpoint sub_fuel (fuel : nat) (r : re) (tpl : list piece) (s : pystr) : pystr :=
  match fuel with
  | O => s
  | S fuel' =>
    match match_at r s with
    | Some (rest, caps) =>
      if (length rest <? length s)%nat
      then expand tpl caps ++ sub_fuel fuel' r tpl rest
      else expand tpl caps ++
           match s with
           | [] => []
           | c :: s' => c :: sub_fuel fuel' r tpl s'
           end
    | None =>
      match s with
      | [] => []
      | c :: s' => c :: sub_fuel fuel' r tpl s'
      end
    end
  end.

Definition sub (r : re) (tpl : list piece) (s : pystr) : pystr :=
  sub_fuel (S (length s)) r tpl s.

(** Literal text as a pattern. *)
Definition text_re (w : pystr) : re :=
  fold_right (fun c r => Seq (Chr (fun x => (x =? c)%N) Once) r) Eps w.

Module Notations.
Infix ">>" := Seq (at level 60, right associativity).
End Notations.

End Re.

(** ** [json.loads]: the decoder of the standard library *)

Module Json.
Import Py.

Definition c_lbrace : char := 123%N.
Definition c_rbrace : char := 125%N.
Definition c_lbracket : char := 91%N.
Definition c_rbracket : char := 93%N.
Definition c_comma : char := 44%N.
Definition c_colon : char := 58%N.
Definition c_backslash : char := 92%N.
Definition c_minus : char := 45%N.
Definition c_plus : char := 43%N.
Definition c_dot : char := 46%N.

(** The decoder's white space: space, tab, line feed, carriage return. *)
Definition is_ws (c : char) : bool :=
  ((c =? 32) || (c =? 9) || (c =? 10) || (c =? 13))%N.

Fixpoint skip_ws (s : pystr) : pystr :=
  match s with
  | c :: s' => if is_ws c then skip_ws s' else s
  | [] => []
  end.

Definition is_digit (c : char) : bool := ((48 <=? c) && (c <=? 57))%N.

Definition hexval (c : char) : option N :=
  if is_digit c then Some (c - 48)%N
  else if ((97 <=? c) && (c <=? 102))%N then Some (c - 87)%N
  else if ((65 <=? c) && (c <=? 70))%N then Some (c - 55)%N
  else None.

Definition hex4 (a b c d : char) : option N :=
  match hexval a, hexval b, hexval c, hexval d with
  | Some x, Some y, Some z, Some w => Some (((x * 16 + y) * 16 + z) * 16 + w)%N
  | _, _, _, _ => None
  end.

Definition escape (c : char) : option char :=
  if (c =? 34)%N then Some 34%N
  else if (c =? 92)%N then Some 92%N
  else if (c =? 47)%N then Some 47%N
  else if (c =? 98)%N then Some 8%N
  else if (c =? 102)%N then Some 12%N
  else if (c =? 110)%N then Some 10%N
  else if (c =? 114)%N then Some 13%N
  else if (c =? 116)%N then Some 9%N
  else None.

Definition high_surrogate (u : N) : bool := ((55296 <=? u) && (u <=? 56319))%N.
Definition low_surrogate (u : N) : bool := ((56320 <=? u) && (u <=? 57343))%N.
Definition join_surrogates (hi lo : N) : N :=
  (65536 + (hi - 55296) * 1024 + (lo - 56320))%N.

(** [scanstring], strict: the text after the opening quote; the decoded
    string (accumulated in reverse) and the text after the closing quote. *)
Fixpoint scanstring (s : pystr) (acc : pystr) : pyresult (pystr * pystr) :=
  match s with
  | [] => Raise JSONDecodeError
  | c :: s1 =>
    if (c =? dquote)%N then Ok (rev acc, s1)
    else if (c =? c_backslash)%N then
      match s1 with
      | [] => Raise JSONDecodeError
      | e :: s2 =>
        if (e =? 117)%N then
          match s2 with
          | h1 :: h2 :: h3 :: h4 :: s3 =>
            match hex4 h1 h2 h3 h4 with
            | None => Raise JSONDecodeError
            | Some u =>
              match s3 with
              | b :: u' :: g1 :: g2 :: g3 :: g4 :: s4 =>
                if high_surrogate u && (b =? c_backslash)%N && (u' =? 117)%N
                   && negb (is_empty s4)
                then
                  match hex4 g1 g2 g3 g4 with
                  | None => Raise JSONDecodeError
                  | Some u2 =>
                    if low_surrogate u2
                    then scanstring s4 (join_surrogates u u2 :: acc)
                    else scanstring s3 (u :: acc)
                  end
                else scanstring s3 (u :: acc)
              | _ => scanstring s3 (u :: acc)
              end
            end
          | _ => Raise JSONDecodeError
          end
        else
          match escape e with
          | Some x => scanstring s2 (x :: acc)
          | None => Raise JSONDecodeError
          end
      end
    else if (c <=? 31)%N then Raise JSONDecodeError
    else scanstring s1 (c :: acc)
  end.

(** Numbers. *)
Fixpoint span_digits (s : pystr) : pystr * pystr :=
  match s with
  | c :: s' =>
    if is_digit c then let (ds, r) := span_digits s' in (c :: ds, r)
    else ([], s)
  | [] => ([], [])
  end.

Definition digits_value (ds : pystr) : Z :=
  fold_left (fun acc c => (acc * 10 + Z.of_N (c - 48))%Z) ds 0%Z.

(** The rational written as mantissa [m] times ten to the [e]. *)
Definition decimal (m e : Z) : Q :=
  if (0 <=? e)%Z then inject_Z (m * 10 ^ e)
  else Qmake m (Z.to_pos (10 ^ (- e))).

Definition int_part (s : pystr) : option (pystr * pystr) :=
  match s with
  | c :: r =>
    if ((49 <=? c) && (c <=? 57))%N
    then let (ds, r') := span_digits r in Some (c :: ds, r')
    else if (c =? 48)%N then Some ([c], r)
    else None
  | [] => None
  end.

Definition frac_part (s : pystr) : pystr * pystr :=
  match s with
  | d :: x :: r =>
    if (d =? c_dot)%N && is_digit x
    then let (fs, r') := span_digits r in (x :: fs, r')
    else ([], s)
  | _ => ([], s)
  end.

(** The exponent: [None] when there is none (an [e] without digits is not
    part of the number). *)
Definition exp_part (s : pystr) : option Z * pystr :=
  match s with
  | e :: r =>
    if ((e =? 101) || (e =? 69))%N then
      let '(neg, r1) :=
        match r with
        | sg :: r' =>
          if (sg =? c_minus)%N then (true, r')
          else if (sg =? c_plus)%N then (false, r')
          else (false, r)
        | [] => (false, r)
        end in
      match span_digits r1 with
      | ([], _) => (None, s)
      | (ds, r2) =>
        (Some (if neg then (- digits_value ds)%Z else digits_value ds), r2)
      end
    else (None, s)
  | [] => (None, s)
  end.

(** [sys.int_info.default_max_str_digits]: [int] refuses a decimal literal
    with more digits and raises [ValueError], which is no
    [json.JSONDecodeError]. *)
Definition int_max_str_digits : nat := 4300.

(** The number at the head of [s], if there is one: an integer literal is
    converted by [int], which may refuse it; everything else by [float]. *)
Definition match_number (s : pystr) : option (pyresult pyval * pystr) :=
  let '(neg, s1) :=
    match s with
    | c :: r => if (c =? c_minus)%N then (true, r) else (false, s)
    | [] => (false, s)
    end in
  match int_part s1 with
  | None => None
  | Some (ip, r1) =>
    let '(fp, r2) := frac_part r1 in
    let '(ex, r3) := exp_part r2 in
    let sign (z : Z) := if neg then (- z)%Z else z in
    match fp, ex with
    | [], None =>
      if (int_max_str_digits <? length ip)%nat then Some (Raise ValueError, r3)
      else Some (Ok (PInt (sign (digits_value ip))), r3)
    | _, _ =>
      let m := sign (digits_value (ip ++ fp)) in
      let e := match ex with Some e => e | None => 0%Z end in
      Some (Ok (PFloat (Fin (decimal m (e - Z.of_nat (length fp))))), r3)
    end
  end.

Definition after (p : pystr) (s : pystr) : option pystr :=
  if starts_with p s then Some (drop (length p) s) else None.

(** The constants and the numbers. *)
Definition scan_scalar (s : pystr) : pyresult (pyval * pystr) :=
  match after (str "null") s, after (str "true") s, after (str "false") s,
        after (str "NaN") s, after (str "Infinity") s,
        after (str "-Infinity") s with
  | Some r, _, _, _, _, _ => Ok (PNone, r)
  | _, Some r, _, _, _, _ => Ok (PBool true, r)
  | _, _, Some r, _, _, _ => Ok (PBool false, r)
  | _, _, _, Some r, _, _ => Ok (PFloat NaN, r)
  | _, _, _, _, Some r, _ => Ok (PFloat (Inf false), r)
  | _, _, _, _, _, Some r => Ok (PFloat (Inf true), r)
  | _, _, _, _, _, _ =>
    match match_number s with
    | Some (Ok v, r) => Ok (v, r)
    | Some (Raise e, _) => Raise e
    | None => Raise JSONDecodeError
    end
  end.

(** The loop over the members of an object, after the opening brace and
    the white space behind it; [scan] decodes a value.  [n] bounds the
    number of rounds. *)
Fixpoint members (scan : pystr -> pyresult (pyval * pystr)) (n : nat)
    (s : pystr) (acc : pydict) {struct n} : pyresult (pyval * pystr) :=
  match n with
  | O => Raise RecursionError
  | S n' =>
    match s with
    | [] => Raise JSONDecodeError
    | q :: s1 =>
      if negb (q =? dquote)%N then Raise JSONDecodeError
      else
        match scanstring s1 [] with
        | Raise e => Raise e
        | Ok (key, s2) =>
          match skip_ws s2 with
          | [] => Raise JSONDecodeError
          | col :: s3 =>
            if negb (col =? c_colon)%N then Raise JSONDecodeError
            else
              match scan (skip_ws s3) with
              | Raise e => Raise e
              | Ok (v, s4) =>
                let acc' := dset acc key v in
                match skip_ws s4 with
                | [] => Raise JSONDecodeError
                | d :: s5 =>
                  if (d =? c_rbrace)%N then Ok (PDict acc', s5)
                  else if (d =? c_comma)%N
                  then members scan n' (skip_ws s5) acc'
                  else Raise JSONDecodeError
                end
              end
          end
        end
    end
  end.

(** The loop over the items of an array; [acc] holds them in reverse. *)
Fixpoint items (scan : pystr -> pyresult (pyval * pystr)) (n : nat)
    (s : pystr) (acc : list pyval) {struct n} : pyresult (pyval * pystr) :=
  match n with
  | O => Raise RecursionError
  | S n' =>
    match scan s with
    | Raise e => Raise e
    | Ok (v, s1) =>
      match skip_ws s1 with
      | [] => Raise JSONDecodeError
      | d :: s2 =>
        if (d =? c_rbracket)%N then Ok (PList (rev (v :: acc)), s2)
        else if (d =? c_comma)%N
        then items scan n' (skip_ws s2) (v :: acc)
        else Raise JSONDecodeError
      end
    end
  end.

(** [scan_once].  [rl] is the number of nested containers the interpreter
    still allows: entering an object or an array beyond it raises
    [RecursionError].  The loops run on a counter that starts above the
    length of the text; every round consumes a character. *)
Fixpoint scan_once (rl : nat) (s : pystr) {struct rl} : pyresult (pyval * pystr) :=
  match s with
  | [] => Raise JSONDecodeError
  | c :: r =>
    if (c =? dquote)%N then
      match scanstring r [] with
      | Ok (t, r') => Ok (PStr t, r')
      | Raise e => Raise e
      end
    else if (c =? c_lbrace)%N then
      match rl with
      | O => Raise RecursionError
      | S rl' =>
        match skip_ws r with
        | [] => Raise JSONDecodeError
        | c1 :: r1 =>
          if (c1 =? c_rbrace)%N then Ok (PDict [], r1)
          else members (scan_once rl') (S (length r)) (c1 :: r1) []
        end
      end
    else if (c =? c_lbracket)%N then
      match rl with
      | O => Raise RecursionError
      | S rl' =>
        match skip_ws r with
        | [] => Raise JSONDecodeError
        | c1 :: r1 =>
          if (c1 =? c_rbracket)%N then Ok (PList [], r1)
          else items (scan_once rl') (S (length r)) (c1 :: r1) []
        end
      end
    else scan_scalar s
  end.

(** [json.loads(s)] for a [str]: a byte order mark is refused, white space
    around the document is skipped, anything after it is an error. *)
Definition byte_order_mark : pystr := [65279%N].

Definition loads (rl : nat) (s : pystr) : pyresult pyval :=
  if starts_with byte_order_mark s then Raise JSONDecodeError
  else
    match scan_once rl (skip_ws s) with
    | Raise e => Raise e
    | Ok (v, r) =>
      match skip_ws r with
      | [] => Ok v
      | _ :: _ => Raise JSONDecodeError
      end
    end.

End Json.

(** ** src/core/utils/json_utils.py *)

Module JSONUtils.
Import Py Re Re.Notations.

(** Three backquotes and [json], then white space; three backquotes, then
    white space. *)
Definition fence_json : re := text_re (str "```json") >> Chr space Star.
Definition fence : re := text_re (str "```") >> Chr space Star.

(** The control characters other than tab, line feed and carriage
    return: 0 to 8, 11, 12, 14 to 31, 127. *)
Definition control : cls :=
  fun c => range 0 8 c || (c =? 11)%N || (c =? 12)%N || range 14 31 c
           || (c =? 127)%N.

Definition backslash : char := 92%N.
Definition squote : char := 39%N.

Definition _basic_clean (text : pystr) : pystr :=
  let text := sub fence_json [] text in
  let text := sub fence [] text in
  let text := strip text in
  let text := sub (Chr control Once) [] text in
  let text := replace2 backslash dquote [dquote] text in
  let text := replace2 backslash squote [squote] text in
  text.

(** The eight substitutions of [_fix_common_json_issues], in order.  In
    the comments below, Q stands for the double quote character of the
    Python pattern. *)

(** Line 59.  Group 1: one character that is no backslash; Q; group 2: a
    run of characters other than Q and backslash; Q.  Replaced by group 1,
    Q, group 2, Q. *)
Definition unescaped_quotes : re :=
  Group (Chr (none_of [backslash]) Once) >> Chr is_dquote Once
  >> Group (Chr (none_of [dquote; backslash]) Star) >> Chr is_dquote Once.

(** Line 62.  A single quote; group 1: a run of characters other than the
    single quote; a single quote.  Replaced by Q, group 1, Q. *)
Definition single_quoted : re :=
  Chr (lit "'") Once >> Group (Chr (none_of [squote]) Star) >> Chr (lit "'") Once.

(** Line 65.  Group 1: Q, white space, Q; then white space and Q.
    Replaced by group 1, a comma, a space, Q. *)
Definition adjacent_strings : re :=
  Group (Chr is_dquote Once >> Chr space Star >> Chr is_dquote Once)
  >> Chr space Star >> Chr is_dquote Once.

(** Line 66.  Group 1: a digit; then white space and Q.  Replaced by
    group 1, a comma, a space, Q. *)
Definition digit_then_quote : re :=
  Group (Chr digit Once) >> Chr space Star >> Chr is_dquote Once.

(** Lines 67 and 68.  A closing brace (bracket), white space, Q.  Replaced
    by the brace (bracket), a comma, a space, Q. *)
Definition brace_then_quote : re :=
  Chr (lit "}") Once >> Chr space Star >> Chr is_dquote Once.
Definition bracket_then_quote : re :=
  Chr (lit "]") Once >> Chr space Star >> Chr is_dquote Once.

(** Line 71.  Group 1: a run of word characters, at least one; a colon;
    white space; group 2: a run, at least one long, of characters other
    than Q, comma, braces and brackets; looking ahead, white space and a
    comma, closing brace or closing bracket.  Replaced by Q, group 1, Q, a
    colon, a space, Q, group 2, Q. *)
Definition bare_pair : re :=
  Group (Chr word Plus) >> Chr (lit ":") Once >> Chr space Star
  >> Group (Chr (none_of (dquote :: str ",{}[]")) Plus)
  >> Ahead (Chr space Star >> Chr (one_of (str ",}]")) Once).

(** Line 74.  A comma, white space, group 1: a closing brace or bracket.
    Replaced by group 1. *)
Definition trailing_comma : re :=
  Chr (lit ",") Once >> Chr space Star >> Group (Chr (one_of (str "}]")) Once).

Definition _fix_common_json_issues (text : pystr) : pystr :=
  let text := sub unescaped_quotes [Ref 1; Text [dquote]; Ref 2; Text [dquote]] text in
  let text := sub single_quoted [Text [dquote]; Ref 1; Text [dquote]] text in
  let text := sub adjacent_strings [Ref 1; Text (str ", "); Text [dquote]] text in
  let text := sub digit_then_quote [Ref 1; Text (str ", "); Text [dquote]] text in
  let text := sub brace_then_quote [Text (str "}, "); Text [dquote]] text in
  let text := sub bracket_then_quote [Text (str "], "); Text [dquote]] text in
  let text := sub bare_pair
                [Text [dquote]; Ref 1; Text [dquote]; Text (str ": ");
                 Text [dquote]; Ref 2; Text [dquote]] text in
  let text := sub trailing_comma [Ref 1] text in
  text.

(** The text [{"error": "JSON解析失败", "analysis_type": "fallback"}]. *)
Definition _build_fallback_json : pystr :=
  str "{" ++ quoted "error" ++ str ": " ++ quoted "JSON解析失败" ++ str ", "
  ++ quoted "analysis_type" ++ str ": " ++ quoted "fallback" ++ str "}".

(** What the fallback text decodes to. *)
Definition fallback_object : pyval :=
  PDict [(str "error", PStr (str "JSON解析失败"));
         (str "analysis_type", PStr (str "fallback"))].

(** [try: json.loads(text); return True / except: return False] *)
Definition _is_valid_json (rl : nat) (text : pystr) : bool :=
  is_ok (Json.loads rl text).

(** The span from the first opening brace to the last closing one. *)
Definition brace_span (text : pystr) : pystr :=
  let start := find Json.c_lbrace text in
  let end_ := (rfind Json.c_rbrace text + 1)%Z in
  if negb (start =? -1)%Z && negb (end_ =? 0)%Z
  then slice start end_ text
  else text.

Definition _aggressive_json_repair (rl : nat) (text : pystr) : pystr :=
  let text := brace_span text in
  if negb (_is_valid_json rl text) then _build_fallback_json else text.

(** [safe_json_parse(json_str, default)].  [json_str] is a [str], so the
    guard tests emptiness only.  The outer handler catches
    [json.JSONDecodeError], the inner one everything. *)
Definition safe_json_parse (rl : nat) (json_str : pystr) (default : pyval)
    : pyresult pyval :=
  if is_empty json_str then Ok default
  else
    let cleaned := _basic_clean json_str in
    let cleaned := _fix_common_json_issues cleaned in
    match Json.loads rl cleaned with
    | Ok v => Ok v
    | Raise e =>
      if is_JSONDecodeError e then
        let repaired := _aggressive_json_repair rl cleaned in
        match Json.loads rl repaired with
        | Ok v => Ok v
        | Raise _ => Ok default
        end
      else Raise e
    end.

(** [validate_json_structure(data, required_fields)] *)
Fixpoint fields_present (data : pydict) (required_fields : list pystr) : bool :=
  match required_fields with
  | [] => true
  | field :: rest => if dhas data field then fields_present data rest else false
  end.

Definition validate_json_structure (data : pyval) (required_fields : list pystr)
    : bool :=
  match data with
  | PDict d => fields_present d required_fields
  | _ => false
  end.

(** [sanitize_string(value)] for a [str] argument. *)
Definition sanitize_string (value : pystr) : pystr :=
  let value := sub (Chr control Once) [] value in
  let value := replace2 backslash dquote [dquote] value in
  let value := replace2 backslash squote [squote] value in
  if (1000 <? length value)%nat then take 1000 value ++ str "..." else value.

End JSONUtils.

(** ** src/core/cache/smart_cache.py *)

Module SmartCache.
Import Py.

(** The store is a [diskcache.Cache]: a row holds a value and the time at
    which it expires.  [Cache.get] returns the value of a row that has not
    expired and [None] otherwise; [Cache.set] writes the row with
    [expire_time = now + expire].  Time is the reading of the clock, in
    seconds. *)
Record row : Type := { value : pyval; expire_time : Q }.

Record stats : Type := { hits : nat; misses : nat; sets : nat; evictions : nat }.

Record t : Type := {
  cache : gmap pystr row;
  default_ttl : Z;
  stat : stats
}.

Definition live (now : Q) (r : row) : bool :=
  negb (Qle_bool (expire_time r) now).

(** [self.cache.get(key)] *)
Definition cache_get (c : gmap pystr row) (key : pystr) (now : Q) : pyval :=
  match c !! key with
  | Some r => if live now r then value r else PNone
  | None => PNone
  end.

(** [self.cache.set(key, value, expire=ttl)] *)
Definition cache_set (c : gmap pystr row) (key : pystr) (v : pyval)
    (expire : Z) (now : Q) : gmap pystr row :=
  <[key := {| value := v; expire_time := now + inject_Z expire |}]> c.

Definition is_none (v : pyval) : bool :=
  match v with PNone => true | _ => false end.

Definition count_hit (s : stats) : stats :=
  {| hits := S (hits s); misses := misses s; sets := sets s;
     evictions := evictions s |}.
Definition count_miss (s : stats) : stats :=
  {| hits := hits s; misses := S (misses s); sets := sets s;
     evictions := evictions s |}.
Definition count_set (s : stats) : stats :=
  {| hits := hits s; misses := misses s; sets := S (sets s);
     evictions := evictions s |}.

(** [get(key)] *)
Definition get (c : t) (key : pystr) (now : Q) : pyval * t :=
  let result := cache_get (cache c) key now in
  (result,
   {| cache := cache c; default_ttl := default_ttl c;
      stat := if negb (is_none result) then count_hit (stat c)
              else count_miss (stat c) |}).

(** [ttl or self.default_ttl]: [None] and 0 give way to the default. *)
Definition effective_ttl (c : t) (ttl : option Z) : Z :=
  match ttl with
  | Some x => if (x =? 0)%Z then default_ttl c else x
  | None => default_ttl c
  end.

(** [set(key, value, ttl)] *)
Definition set (c : t) (key : pystr) (v : pyval) (ttl : option Z) (now : Q) : t :=
  {| cache := cache_set (cache c) key v (effective_ttl c ttl) now;
     default_ttl := default_ttl c;
     stat := count_set (stat c) |}.

(** The compute function is any Python callable: what it returns or raises
    may depend on how often it has been called.  [calls] counts its
    invocations. *)
Definition callable : Type := nat -> pyresult pyval.

Record world : Type := { store : t; calls : nat }.

(** [get_or_compute(key, compute_func, ttl)].  [now] is the clock when the
    cache is read, [later] the clock when the result is written. *)
Definition get_or_compute (w : world) (key : pystr) (compute_func : callable)
    (ttl : option Z) (now later : Q) : pyresult pyval * world :=
  let (cached, c1) := get (store w) key now in
  if negb (is_none cached) then (Ok cached, {| store := c1; calls := calls w |})
  else
    match compute_func (calls w) with
    | Raise e => (Raise e, {| store := c1; calls := S (calls w) |})
    | Ok result =>
      (Ok result,
       {| store := set c1 key result ttl later; calls := S (calls w) |})
    end.

(** [get_stats()['hit_ratio']] before rounding. *)
Definition hit_ratio (c : t) : Q :=
  inject_Z (Z.of_nat (hits (stat c)))
  / inject_Z (Z.of_nat (Nat.max 1 (hits (stat c) + misses (stat c)))).

(** [clear_expired()]: [Cache.expire] removes the rows whose expiry time
    lies before the reading of the clock. *)
Definition clear_expired (c : t) (now : Q) : t :=
  {| cache := filter (fun kv => Qle_bool now (expire_time (snd kv)) = true) (cache c);
     default_ttl := default_ttl c; stat := stat c |}.

(** [clear_all()] *)
Definition clear_all (c : t) : t :=
  {| cache := ∅; default_ttl := default_ttl c; stat := stat c |}.

End SmartCache.

(** ** Items, the oracle and the monitor *)

Module News.
Import Py.

(** An item, as the loader builds it: every field is text (the line number
    is an integer) and may be missing. *)
Record Item : Type := {
  item_id : option pystr;
  content : option pystr;
  title : option pystr;
  source : option pystr;
  timestamp : option pystr;
  category : option pystr;
  source_file : option pystr;
  source_line : option Z
}.

(** [{}] *)
Definition empty_item : Item :=
  {| item_id := None; content := None; title := None; source := None;
     timestamp := None; category := None; source_file := None;
     source_line := None |}.

(** [news.get(field, default)] and [news.get(field)] *)
Definition text_or (default : pystr) (o : option pystr) : pystr :=
  match o with Some s => s | None => default end.
Definition opt_str (o : option pystr) : pyval :=
  match o with Some s => PStr s | None => PNone end.
Definition opt_int (o : option Z) : pyval :=
  match o with Some z => PInt z | None => PNone end.

(** What the prompt templates interpolate; their fixed text is left out. *)
Inductive prompt : Type :=
| BatchPrompt (contents : list pystr)
| SinglePrompt (title content source timestamp : pystr).

(** The language model behind [llm_call]: its answer to the [n]-th call, or
    the exception the call raises. *)
Definition oracle : Type := nat -> prompt -> pyresult pystr.

(** [oracle_calls] counts the calls of [llm_call]; [llm_calls_total] is the
    counter of [performance_monitor.record_llm_call]. *)
Record monitor : Type := { oracle_calls : nat; llm_calls_total : nat }.

Definition called (m : monitor) : monitor :=
  {| oracle_calls := S (oracle_calls m); llm_calls_total := llm_calls_total m |}.
Definition record_llm_call (m : monitor) : monitor :=
  {| oracle_calls := oracle_calls m; llm_calls_total := S (llm_calls_total m) |}.

End News.

(** ** src/core/agents/event_extractor.py *)

Module EventExtractionAgent.
Import Py Re News.

Definition required_output_fields : list pystr :=
  [str "core_events"; str "impact_level"; str "time_horizon";
   str "affected_assets"].

Definition _clean_llm_response (response : pystr) : pystr :=
  let response := sub JSONUtils.fence_json [] response in
  let response := sub JSONUtils.fence [] response in
  let response := strip response in
  let start := find Json.c_lbrace response in
  let end_ := (rfind Json.c_rbrace response + 1)%Z in
  if negb (start =? -1)%Z && negb (end_ =? 0)%Z
  then slice start end_ response
  else response.

(** [field in x] *)
Definition py_in (field : pystr) (x : pyval) : pyresult bool :=
  match x with
  | PDict d => Ok (dhas d field)
  | PStr s => Ok (contains field s)
  | PList l => Ok (existsb (is_str field) l)
  | _ => Raise TypeError
  end.

(** [all(field in x for field in fields)] *)
Fixpoint all_in (fields : list pystr) (x : pyval) : pyresult bool :=
  match fields with
  | [] => Ok true
  | f :: fs =>
    match py_in f x with
    | Raise e => Raise e
    | Ok false => Ok false
    | Ok true => all_in fs x
    end
  end.

Definition _parse_single_response (rl : nat) (response : pystr) : pyresult pyval :=
  let cleaned_response := _clean_llm_response response in
  match Json.loads rl cleaned_response with
  | Raise e => Raise e
  | Ok event_data =>
    match all_in required_output_fields event_data with
    | Raise e => Raise e
    | Ok false => Raise ValueError
    | Ok true => Ok event_data
    end
  end.

Definition high_impact_words : list pystr :=
  [str "利率"; str "降息"; str "加息"; str "通胀"; str "衰退"; str "危机";
   str "刺激"; str "财报"; str "盈利"].
Definition low_impact_words : list pystr :=
  [str "观点"; str "评论"; str "分析"; str "预计"; str "可能"].

(** [any(word in text for word in words)] *)
Definition any_in (words : list pystr) (text : pystr) : bool :=
  existsb (fun w => contains w text) words.

Definition _create_default_event (news : Item) : pyval :=
  let title := text_or [] (title news) in
  let content := text_or [] (content news) in
  let combined_text := lower (title ++ content) in
  let impact_level :=
    if any_in high_impact_words combined_text then str "high"
    else if any_in low_impact_words combined_text then str "low"
    else str "medium" in
  PDict [(str "core_event",
          PStr (if negb (is_empty title) then title else take 100 content));
         (str "impact_level", PStr impact_level);
         (str "time_horizon", PStr (str "short"));
         (str "affected_assets", PList []);
         (str "investment_implication", PStr (str "自动分析结果"));
         (str "confidence", PFloat (Fin (5 # 10)))].

(** [x[key]] for a text key. *)
Definition py_getitem (x : pyval) (key : pystr) : pyresult pyval :=
  match x with
  | PDict d => match dget d key with Some v => Ok v | None => Raise KeyError end
  | _ => Raise TypeError
  end.

Section Agent.

Variable llm_call : oracle.
(** The nesting depth the interpreter leaves to [json.loads]. *)
Variable rl : nat.

Definition single_prompt (news : Item) : prompt :=
  SinglePrompt (text_or [] (title news))
               (take 1000 (text_or [] (content news)))
               (text_or (str "未知") (source news))
               (text_or (str "未知") (timestamp news)).

(** [extract_single_event]: the oracle is called outside the [try]. *)
Definition extract_single_event (m : monitor) (news : Item)
    : pyresult pyval * monitor :=
  match llm_call (oracle_calls m) (single_prompt news) with
  | Raise e => (Raise e, called m)
  | Ok response =>
    match _parse_single_response rl response with
    | Ok event_data => (Ok event_data, called m)
    | Raise _ => (Ok (_create_default_event news), called m)
    end
  end.

Definition _process_single (m : monitor) (news : Item)
    : pyresult pydict * monitor :=
  match extract_single_event m news with
  | (Raise e, m') => (Raise e, m')
  | (Ok event, m') =>
    let events_list := if truthy event then [event] else [] in
    (Ok [(str "extracted_events", PList events_list);
         (str "summary",
          PStr (str "提取 " ++ show_nat (length events_list) ++ str " 个事件"));
         (str "total_processed", PInt 1)], m')
  end.

(** The loop of [_process_batch]: events that are not of low impact. *)
Fixpoint batch_loop (m : monitor) (news_items : list Item) (extracted : list pyval)
    : pyresult (list pyval) * monitor :=
  match news_items with
  | [] => (Ok extracted, m)
  | news :: rest =>
    match extract_single_event m news with
    | (Raise e, m') => (Raise e, m')
    | (Ok event, m') =>
      if truthy event then
        match py_getitem event (str "impact_level") with
        | Raise e => (Raise e, m')
        | Ok level =>
          if negb (is_str (str "low") level)
          then batch_loop m' rest (extracted ++ [event])
          else batch_loop m' rest extracted
        end
      else batch_loop m' rest extracted
    end
  end.

Definition _process_batch (m : monitor) (news_items : list Item)
    : pyresult pydict * monitor :=
  match batch_loop m news_items [] with
  | (Raise e, m') => (Raise e, m')
  | (Ok extracted_events, m') =>
    (Ok [(str "extracted_events", PList extracted_events);
         (str "summary",
          PStr (str "共提取 " ++ show_nat (length extracted_events)
                ++ str " 个重要事件"));
         (str "total_processed", PInt (Z.of_nat (length news_items)))], m')
  end.

(** [process(input_data)] for a list. *)
Definition process (m : monitor) (input_data : list Item)
    : pyresult pydict * monitor :=
  if (1 <? length input_data)%nat then _process_batch m input_data
  else _process_single m (match input_data with
                          | news :: _ => news
                          | [] => empty_item
                          end).

End Agent.

End EventExtractionAgent.

(** ** src/main.py *)

Module OptimizedInvestmentSystem.
Import Py Re News.

(** *** Deduplication: [_load_news_batch] *)

Section Dedup.

(** [hashlib.md5(content.encode()).hexdigest()] *)
Variable md5 : pystr -> pystr.

Definition _get_content_hash (content : pystr) : pystr := md5 content.

Record scan : Type := {
  all_news : list Item;
  news_count : nat;
  duplicate_count : nat;
  processed_ids : gset pystr;
  processed_hashes : gset pystr
}.

Definition scan_start : scan :=
  {| all_news := []; news_count := 0; duplicate_count := 0;
     processed_ids := ∅; processed_hashes := ∅ |}.

(** [news_id and news_id in processed_ids] *)
Definition id_seen (news_id : option pystr) (ids : gset pystr) : bool :=
  match news_id with
  | Some i => negb (is_empty i) && bool_decide (i ∈ ids)
  | None => false
  end.

(** [if news_id: processed_ids.add(news_id)] *)
Definition add_id (news_id : option pystr) (ids : gset pystr) : gset pystr :=
  match news_id with
  | Some i => if negb (is_empty i) then {[ i ]} ∪ ids else ids
  | None => ids
  end.

Definition content_hash (news : Item) : pystr :=
  _get_content_hash (text_or [] (content news)).

Definition count_duplicate (st : scan) : scan :=
  {| all_news := all_news st; news_count := S (news_count st);
     duplicate_count := S (duplicate_count st);
     processed_ids := processed_ids st;
     processed_hashes := processed_hashes st |}.

Definition keep (news : Item) (st : scan) : scan :=
  {| all_news := all_news st ++ [news]; news_count := S (news_count st);
     duplicate_count := duplicate_count st;
     processed_ids := add_id (item_id news) (processed_ids st);
     processed_hashes := {[ content_hash news ]} ∪ processed_hashes st |}.

(** The loop over the generator.  The test [len(all_news) >= size] comes
    after the item has been appended. *)
Fixpoint scan_loop (size : Z) (generator : list Item) (st : scan) : scan :=
  match generator with
  | [] => st
  | news :: rest =>
    if id_seen (item_id news) (processed_ids st)
    then scan_loop size rest (count_duplicate st)
    else if bool_decide (content_hash news ∈ processed_hashes st)
    then scan_loop size rest (count_duplicate st)
    else
      let st' := keep news st in
      if (size <=? Z.of_nat (length (all_news st')))%Z then st'
      else scan_loop size rest st'
  end.

(** [_load_news_batch(size)] when the list is read from the source (the
    cached list it may return instead is one this loop produced). *)
Definition _load_news_batch (size : Z) (generator : list Item) : scan :=
  scan_loop size generator scan_start.

End Dedup.

(** *** Batch extraction *)

Definition _create_default_event (news : Item) : pyval :=
  PDict [(str "core_event", PStr (take 100 (text_or [] (content news))));
         (str "impact_level", PStr (str "low"));
         (str "time_horizon", PStr (str "short"));
         (str "affected_assets", PList []);
         (str "investment_implication", PStr (str "需要进一步分析"));
         (str "confidence", PFloat (Fin (3 # 10)));
         (str "source_file", opt_str (source_file news));
         (str "source_line", opt_int (source_line news))].

Definition _build_batch_prompt (news_batch : list Item) : prompt :=
  BatchPrompt (map (fun news => take 800 (text_or [] (content news))) news_batch).

(** [event.get('news_index', 1) - 1]: an int stays an int, a float a float. *)
Inductive number : Type :=
| NInt (z : Z)
| NFloat (f : pyfloat).

Definition minus_one (v : pyval) : pyresult number :=
  match v with
  | PInt z => Ok (NInt (z - 1))
  | PBool b => Ok (NInt (Z.b2z b - 1))
  | PFloat f => Ok (NFloat (fadd f (of_Z (-1))))
  | _ => Raise TypeError
  end.

(** [0 <= news_index < len(original_news)] *)
Definition in_range (i : number) (len : nat) : bool :=
  match i with
  | NInt z => (0 <=? z)%Z && (z <? Z.of_nat len)%Z
  | NFloat f => fle (of_Z 0) f && flt f (of_Z (Z.of_nat len))
  end.

(** The four provenance fields copied from the item. *)
Definition with_provenance (event : pydict) (news : Item) : pydict :=
  let event := dset event (str "source_file") (opt_str (source_file news)) in
  let event := dset event (str "source_line") (opt_int (source_line news)) in
  let event := dset event (str "original_timestamp") (opt_str (timestamp news)) in
  let event := dset event (str "original_category") (opt_str (category news)) in
  event.

(** The body of the loop [for event in batch_events]. *)
Definition annotate (original_news : list Item) (event : pyval) : pyresult pyval :=
  match event with
  | PDict d =>
    match minus_one (dget_or d (str "news_index") (PInt 1)) with
    | Raise e => Raise e
    | Ok news_index =>
      if in_range news_index (length original_news) then
        match news_index with
        | NInt z =>
          match original_news !! Z.to_nat z with
          | Some original_news_item => Ok (PDict (with_provenance d original_news_item))
          | None => Raise IndexError
          end
        | NFloat _ => Raise TypeError
        end
      else Ok event
    end
  | _ => Raise AttributeError
  end.

Fixpoint annotate_all (original_news : list Item) (events : list pyval)
    : pyresult (list pyval) :=
  match events with
  | [] => Ok []
  | event :: rest =>
    match annotate original_news event with
    | Raise e => Raise e
    | Ok event' =>
      match annotate_all original_news rest with
      | Raise e => Raise e
      | Ok rest' => Ok (event' :: rest')
      end
    end
  end.

(** The text [_parse_batch_response] decodes: the span from the first
    opening brace to the last closing brace of the cleaned response. *)
Definition json_part (response : pystr) : pyresult pystr :=
  let cleaned := sub JSONUtils.fence_json [] response in
  let cleaned := sub JSONUtils.fence [] cleaned in
  let cleaned := strip cleaned in
  let start := find Json.c_lbrace cleaned in
  let end_ := (rfind Json.c_rbrace cleaned + 1)%Z in
  if (start =? -1)%Z || (end_ =? 0)%Z then Raise ValueError
  else Ok (slice start end_ cleaned).

(** The loop over [batch_events] and the value returned: the object
    itself, its elements annotated in place. *)
Definition reconcile (original_news : list Item) (batch_events : pyval)
    : pyresult pyval :=
  match py_len batch_events with
  | Raise e => Raise e
  | Ok _ =>
    match batch_events with
    | PList events =>
      match annotate_all original_news events with
      | Raise e => Raise e
      | Ok events' => Ok (PList events')
      end
    | _ =>
      match py_iter batch_events with
      | Raise e => Raise e
      | Ok events =>
        match annotate_all original_news events with
        | Raise e => Raise e
        | Ok _ => Ok batch_events
        end
      end
    end
  end.

Definition _parse_batch_response (rl : nat) (response : pystr)
    (original_news : list Item) : pyresult pyval :=
  match json_part response with
  | Raise e => Raise e
  | Ok json_str =>
    match Json.loads rl json_str with
    | Raise e => Raise e
    | Ok (PDict result) =>
      reconcile original_news (dget_or result (str "batch_events") (PList []))
    | Ok _ => Raise AttributeError
    end
  end.

Section Engine.

Variable llm_call : oracle.
Variable rl : nat.

(** One round of the loop of [_fallback_single_processing]. *)
Definition fallback_step (m : monitor) (news : Item) : list pyval * monitor :=
  match EventExtractionAgent.process llm_call rl m [news] with
  | (Raise _, m') => ([_create_default_event news], m')
  | (Ok events_data, m') =>
    match py_iter (dget_or events_data (str "extracted_events") (PList [])) with
    | Ok events => (events, record_llm_call m')
    | Raise _ => ([_create_default_event news], m')
    end
  end.

Fixpoint _fallback_single_processing (m : monitor) (news_batch : list Item)
    : list pyval * monitor :=
  match news_batch with
  | [] => ([], m)
  | news :: rest =>
    let (events, m1) := fallback_step m news in
    let (more, m2) := _fallback_single_processing m1 rest in
    (events ++ more, m2)
  end.

(** [_process_news_batch]: one call of the oracle; any exception of the
    call or of the parse leads to the fallback. *)
Definition _process_news_batch (m : monitor) (news_batch : list Item)
    : pyval * monitor :=
  match news_batch with
  | [] => (PList [], m)
  | _ :: _ =>
    let batch_prompt := _build_batch_prompt news_batch in
    match llm_call (oracle_calls m) batch_prompt with
    | Raise _ =>
      let (events, m') := _fallback_single_processing (called m) news_batch in
      (PList events, m')
    | Ok response =>
      match _parse_batch_response rl response news_batch with
      | Ok batch_events => (batch_events, record_llm_call (called m))
      | Raise _ =>
        let (events, m') := _fallback_single_processing (called m) news_batch in
        (PList events, m')
      end
    end
  end.

End Engine.

(** *** The driver: [_batch_extract_events] *)

Section Driver.

Variable llm_call : oracle.
Variable rl : nat.

(** [(len(news_items) + batch_size - 1) // batch_size] *)
Definition total_batches (len batch_size : nat) : nat :=
  (len + batch_size - 1) / batch_size.

(** [news_items[batch_num * batch_size : min((batch_num + 1) * batch_size, len)]] *)
Definition batch_slice (news_items : list Item) (batch_size batch_num : nat)
    : list Item :=
  let start_idx := batch_num * batch_size in
  let end_idx := Nat.min ((batch_num + 1) * batch_size) (length news_items) in
  drop start_idx (take end_idx news_items).

(** The loop [for batch_num in range(total_batches)], counted down by
    [todo]. *)
Fixpoint batches_loop (todo batch_num batch_size : nat) (news_items : list Item)
    (m : monitor) (all_events : list pyval) : pyresult (list pyval) * monitor :=
  match todo with
  | O => (Ok all_events, m)
  | S todo' =>
    let batch_news := batch_slice news_items batch_size batch_num in
    let (batch_events, m') := _process_news_batch llm_call rl m batch_news in
    match py_iter batch_events with
    | Raise e => (Raise e, m')
    | Ok events =>
      batches_loop todo' (S batch_num) batch_size news_items m'
                   (all_events ++ events)
    end
  end.

(** [ZeroDivisionError], which the exceptions above do not name. *)
Definition ZeroDivisionError : exn := OtherError 0.

(** [_batch_extract_events(news_items, batch_size)] for a batch size that
    is not negative.  The division by the batch size comes after the test
    for an empty list. *)
Definition _batch_extract_events (m : monitor) (news_items : list Item)
    (batch_size : nat) : pyresult pydict * monitor :=
  match news_items with
  | [] => (Ok [(str "extracted_events", PList []); (str "total_processed", PInt 0)], m)
  | _ :: _ =>
    match batch_size with
    | O => (Raise ZeroDivisionError, m)
    | S _ =>
      let total := total_batches (length news_items) batch_size in
      match batches_loop total 0 batch_size news_items m [] with
      | (Raise e, m') => (Raise e, m')
      | (Ok all_events, m') =>
        (Ok [(str "extracted_events", PList all_events);
             (str "total_processed", PInt (Z.of_nat (length news_items)));
             (str "batch_info",
              PDict [(str "batch_size", PInt (Z.of_nat batch_size));
                     (str "total_batches", PInt (Z.of_nat total));
                     (str "events_per_news",
                      PFloat (Fin (inject_Z (Z.of_nat (length all_events))
                                   / inject_Z (Z.of_nat (length news_items)))))])],
         m')
      end
    end
  end.

End Driver.

End OptimizedInvestmentSystem.

(** ** src/core/processing/priority_system.py *)

Module PrioritySystem.
Import Py.

(** The operators the rules use: [equals], [gte], [contains_any]. *)
Inductive operator : Type := Equals | Gte | ContainsAny.

(** The value of a condition is a text or a list of texts. *)
Inductive cond_value : Type :=
| VStr (s : pystr)
| VList (l : list pystr).

Record condition : Type := {
  field : pystr;
  value : cond_value;
  op : operator
}.

Record rule : Type := {
  rule_name : pystr;
  score : Z;
  conditions : list condition
}.

Definition _load_priority_rules : list rule :=
  [ {| rule_name := str "high_impact_short_term"; score := 100;
       conditions :=
         [ {| field := str "impact_level"; value := VStr (str "high"); op := Equals |};
           {| field := str "time_horizon"; value := VStr (str "short"); op := Equals |} ] |};
    {| rule_name := str "high_impact_mid_term"; score := 80;
       conditions :=
         [ {| field := str "impact_level"; value := VStr (str "high"); op := Equals |};
           {| field := str "time_horizon"; value := VStr (str "mid"); op := Equals |} ] |};
    {| rule_name := str "portfolio_risk_event"; score := 90;
       conditions :=
         [ {| field := str "affected_assets"; value := VList [str "持仓标的"];
              op := ContainsAny |};
           {| field := str "impact_level"; value := VStr (str "medium"); op := Gte |} ] |};
    {| rule_name := str "market_crisis"; score := 95;
       conditions :=
         [ {| field := str "core_event";
              value := VList [str "危机"; str "崩盘"; str "暴跌"; str "恐慌"];
              op := ContainsAny |} ] |};
    {| rule_name := str "policy_change"; score := 85;
       conditions :=
         [ {| field := str "core_event";
              value := VList [str "政策"; str "监管"; str "利率"; str "央行"];
              op := ContainsAny |} ] |};
    {| rule_name := str "earnings_surprise"; score := 70;
       conditions :=
         [ {| field := str "core_event";
              value := VList [str "财报"; str "盈利"; str "营收"];
              op := ContainsAny |};
           {| field := str "impact_level"; value := VStr (str "medium"); op := Gte |} ] |} ].

(** [event_value == value] *)
Definition eq_value (event_value : pyval) (v : cond_value) : bool :=
  match v, event_value with
  | VStr s, _ => is_str s event_value
  | VList l, PList l' =>
    (length l =? length l')%nat
    && forallb (fun p => is_str (fst p) (snd p)) (combine l l')
  | VList _, _ => false
  end.

Definition impact_levels : list pystr := [str "low"; str "medium"; str "high"].

(** [strings.index(x)]: [ValueError] when [x] is not in the list. *)
Fixpoint index_from (strings : list pystr) (x : pyval) (i : nat) : pyresult nat :=
  match strings with
  | [] => Raise ValueError
  | s :: rest => if is_str s x then Ok i else index_from rest x (S i)
  end.
Definition index (strings : list pystr) (x : pyval) : pyresult nat :=
  index_from strings x 0.

Definition index_value (strings : list pystr) (v : cond_value) : pyresult nat :=
  match v with
  | VStr s => index strings (PStr s)
  | VList _ => Raise ValueError
  end.

(** [item in value] *)
Definition in_value (item : pyval) (v : cond_value) : pyresult bool :=
  match v with
  | VList l => Ok (in_strs item l)
  | VStr s =>
    match item with
    | PStr t => Ok (contains t s)
    | _ => Raise TypeError
    end
  end.

(** [any(item in value for item in items)] *)
Fixpoint any_in_value (items : list pyval) (v : cond_value) : pyresult bool :=
  match items with
  | [] => Ok false
  | item :: rest =>
    match in_value item v with
    | Raise e => Raise e
    | Ok true => Ok true
    | Ok false => any_in_value rest v
    end
  end.

(** Whether a list of holdings was given and is not empty. *)
Definition has_holdings (current_holdings : option (list pystr)) : bool :=
  match current_holdings with
  | Some (_ :: _) => true
  | _ => false
  end.

(** One condition: [Ok false] where the code returns [False], [Ok true]
    where it goes on to the next condition. *)
Definition condition_holds (event : pydict)
    (current_holdings : option (list pystr)) (c : condition) : pyresult bool :=
  let event_value := dget_or event (field c) PNone in
  match op c with
  | Equals => Ok (eq_value event_value (value c))
  | Gte =>
    match index impact_levels event_value with
    | Raise e => Raise e
    | Ok i =>
      match index_value impact_levels (value c) with
      | Raise e => Raise e
      | Ok j => Ok (negb (i <? j)%nat)
      end
    end
  | ContainsAny =>
    match event_value with
    | PStr s =>
      let event_text := lower s in
      match value c with
      | VList keywords => Ok (existsb (fun keyword => contains keyword event_text) keywords)
      | VStr v => Ok (contains v event_text)
      end
    | PList items =>
      if has_holdings current_holdings && str_eqb (field c) (str "affected_assets")
      then Ok (existsb (fun asset => in_strs asset (default [] current_holdings)) items)
      else any_in_value items (value c)
    | _ => Ok true
    end
  end.

Fixpoint all_hold (event : pydict) (current_holdings : option (list pystr))
    (cs : list condition) : pyresult bool :=
  match cs with
  | [] => Ok true
  | c :: rest =>
    match condition_holds event current_holdings c with
    | Raise e => Raise e
    | Ok false => Ok false
    | Ok true => all_hold event current_holdings rest
    end
  end.

Definition _matches_rule (event : pydict) (r : rule)
    (current_holdings : option (list pystr)) : pyresult bool :=
  all_hold event current_holdings (conditions r).

Fixpoint bonus_loop (event : pydict) (current_holdings : option (list pystr))
    (rules : list rule) (total_bonus : Z) : pyresult Z :=
  match rules with
  | [] => Ok total_bonus
  | r :: rest =>
    match _matches_rule event r current_holdings with
    | Raise e => Raise e
    | Ok true => bonus_loop event current_holdings rest (total_bonus + score r)
    | Ok false => bonus_loop event current_holdings rest total_bonus
    end
  end.

Definition _apply_priority_rules (event : pydict)
    (current_holdings : option (list pystr)) : pyresult Z :=
  bonus_loop event current_holdings _load_priority_rules 0.

(** The clock and the date parser of the standard library.  [hours_since]
    is [(datetime.now() - dt).total_seconds() / 3600]; it raises when [dt]
    carries a time zone, since [now()] has none. *)
Record clock : Type := {
  datetime : Type;
  fromtimestamp : pyfloat -> pyresult datetime;
  fromisoformat : pystr -> pyresult datetime;
  hours_since : datetime -> pyresult Q
}.

(** [s.replace('Z', '+00:00')] *)
Definition utc_suffix (s : pystr) : pystr :=
  flat_map (fun c => if (c =? 90)%N then str "+00:00" else [c]) s.

(** The body of the [try] of [_calculate_time_penalty]. *)
Definition elapsed_hours (clk : clock) (event_time : pyval) : pyresult Q :=
  match
    match as_number event_time with
    | Some f => fromtimestamp clk f
    | None =>
      match event_time with
      | PStr s => fromisoformat clk (utc_suffix s)
      | _ => Raise AttributeError
      end
    end
  with
  | Raise e => Raise e
  | Ok event_dt => hours_since clk event_dt
  end.

Definition _calculate_time_penalty (clk : clock) (event : pydict) : Q :=
  match dget event (str "timestamp") with
  | None => 1
  | Some event_time =>
    if negb (truthy event_time) then 1
    else
      match elapsed_hours clk event_time with
      | Ok time_diff =>
        if Qle_bool time_diff 1 then 1
        else if Qle_bool time_diff 24 then 8 # 10
        else if Qle_bool time_diff 72 then 5 # 10
        else 3 # 10
      | Raise _ => 7 # 10
      end
  end.

(** [table.get(key, default)]: a list or a dict is not hashable. *)
Definition table_get (table : list (pystr * Z)) (key : pyval) (default : Z)
    : pyresult Z :=
  match key with
  | PList _ | PDict _ => Raise TypeError
  | PStr s =>
    Ok (match List.find (fun kv => str_eqb (fst kv) s) table with
        | Some kv => snd kv
        | None => default
        end)
  | _ => Ok default
  end.

Definition impact_scores : list (pystr * Z) :=
  [(str "low", 10); (str "medium", 50); (str "high", 100)]%Z.
Definition time_scores : list (pystr * Z) :=
  [(str "short", 30); (str "mid", 20); (str "long", 10)]%Z.

(** [base_score *= confidence] for an integer [base_score]: a number, or
    ([None]) the text or list the product with a text or list is. *)
Definition times (base_score : Z) (confidence : pyval) : pyresult (option pyfloat) :=
  match as_number confidence with
  | Some f => Ok (Some (fmul (of_Z base_score) f))
  | None =>
    match confidence with
    | PStr _ | PList _ => Ok None
    | _ => Raise TypeError
    end
  end.

(** [max(0, min(100, x))] *)
Definition clamp (x : pyfloat) : pyfloat :=
  let m := if flt x (of_Z 100) then x else of_Z 100 in
  if flt (of_Z 0) m then m else of_Z 0.

Definition calculate_priority_score (clk : clock) (event : pydict)
    (current_holdings : option (list pystr)) : pyresult pyfloat :=
  match table_get impact_scores (dget_or event (str "impact_level") (PStr (str "low"))) 10 with
  | Raise e => Raise e
  | Ok impact =>
    match table_get time_scores (dget_or event (str "time_horizon") (PStr (str "mid"))) 15 with
    | Raise e => Raise e
    | Ok horizon =>
      let base_score := (0 + impact + horizon)%Z in
      let confidence := dget_or event (str "confidence") (PFloat (Fin (5 # 10))) in
      match times base_score confidence with
      | Raise e => Raise e
      | Ok base_score =>
        match _apply_priority_rules event current_holdings with
        | Raise e => Raise e
        | Ok rule_bonus =>
          match base_score with
          | None => Raise TypeError
          | Some base_score =>
            let base_score := fadd base_score (of_Z rule_bonus) in
            let time_penalty := _calculate_time_penalty clk event in
            let base_score := fmul base_score (Fin time_penalty) in
            Ok (clamp base_score)
          end
        end
      end
    end
  end.

(** [_score_to_level] *)
Definition _score_to_level (score : pyfloat) : pystr :=
  if fle (of_Z 80) score then str "critical"
  else if fle (of_Z 60) score then str "high"
  else if fle (of_Z 40) score then str "medium"
  else if fle (of_Z 20) score then str "low"
  else str "minimal".

(** [{**event, 'priority_score': score, 'priority_level': level}] *)
Definition with_priority (event : pydict) (score : pyfloat) : pydict :=
  dset (dset event (str "priority_score") (PFloat score))
       (str "priority_level") (PStr (_score_to_level score)).

(** The loop of [prioritize_events]: each event with its score. *)
Fixpoint score_all (clk : clock) (events : list pydict)
    (current_holdings : option (list pystr))
    : pyresult (list (pyfloat * pydict)) :=
  match events with
  | [] => Ok []
  | event :: rest =>
    match calculate_priority_score clk event current_holdings with
    | Raise e => Raise e
    | Ok score =>
      match score_all clk rest current_holdings with
      | Raise e => Raise e
      | Ok scored => Ok ((score, with_priority event score) :: scored)
      end
    end
  end.

(** [scored_events.sort(key=lambda x: x['priority_score'], reverse=True)]:
    the sort is stable, so its result is the one of inserting every event,
    in the order of the list, behind the events that do not score lower. *)
Fixpoint insert_desc (x : pyfloat * pydict) (sorted : list (pyfloat * pydict))
    : list (pyfloat * pydict) :=
  match sorted with
  | [] => [x]
  | y :: rest =>
    if flt (fst y) (fst x) then x :: y :: rest else y :: insert_desc x rest
  end.

Definition sort_desc (scored : list (pyfloat * pydict)) : list (pyfloat * pydict) :=
  fold_left (fun sorted x => insert_desc x sorted) scored [].

Definition prioritize_events (clk : clock) (events : list pydict)
    (current_holdings : option (list pystr)) : pyresult (list pydict) :=
  match score_all clk events current_holdings with
  | Raise e => Raise e
  | Ok scored_events => Ok (map snd (sort_desc scored_events))
  end.

End PrioritySystem.

(** ** src/core/quality/quality_assurance.py *)

Module QualityAssurance.
Import Py.

(** One complaint about a record.  The code renders each as a line of
    text: a missing field, an invalid field with its value, a failed
    content check. *)
Inductive event_error : Type :=
| MissingField (f : pystr)
| InvalidField (f : pystr) (v : pyval)
| ContentFailed.

Record rules : Type := {
  required_fields : list pystr;
  field_validators : list (pystr * (pyval -> pyresult bool));
  content_validators : list (pydict -> pyresult bool)
}.

(** [lambda x: 0 <= x <= 1] *)
Definition unit_interval (x : pyval) : pyresult bool :=
  match as_number x with
  | Some f => Ok (fle (of_Z 0) f && fle f (of_Z 1))
  | None => Raise TypeError
  end.

(** [len(event.get('core_event', ''))] *)
Definition core_event_len (event : pydict) : pyresult nat :=
  py_len (dget_or event (str "core_event") (PStr [])).

(** [validation_rules["event_extraction"]] *)
Definition event_extraction : rules :=
  {| required_fields := [str "core_event"; str "impact_level"; str "time_horizon"];
     field_validators :=
       [(str "impact_level",
         fun x => Ok (in_strs x [str "low"; str "medium"; str "high"]));
        (str "time_horizon",
         fun x => Ok (in_strs x [str "short"; str "mid"; str "long"]));
        (str "confidence", unit_interval)];
     content_validators :=
       [(fun event => match core_event_len event with
                      | Ok n => Ok (5 <? n)%nat
                      | Raise e => Raise e
                      end);
        (fun event => match core_event_len event with
                      | Ok n => Ok (n <? 500)%nat
                      | Raise e => Raise e
                      end)] |}.

(** The three loops of [_validate_single_event]. *)
Definition check_required (event : pydict) (fields : list pystr) : list event_error :=
  flat_map (fun f => if dhas event f then [] else [MissingField f]) fields.

Fixpoint check_fields (event : pydict)
    (validators : list (pystr * (pyval -> pyresult bool)))
    : pyresult (list event_error) :=
  match validators with
  | [] => Ok []
  | (f, validator) :: rest =>
    match dget event f with
    | None => check_fields event rest
    | Some v =>
      match validator v with
      | Raise e => Raise e
      | Ok ok =>
        match check_fields event rest with
        | Raise e => Raise e
        | Ok errors => Ok (if ok then errors else InvalidField f v :: errors)
        end
      end
    end
  end.

Fixpoint check_content (event : pydict)
    (validators : list (pydict -> pyresult bool)) : pyresult (list event_error) :=
  match validators with
  | [] => Ok []
  | validator :: rest =>
    match validator event with
    | Raise e => Raise e
    | Ok ok =>
      match check_content event rest with
      | Raise e => Raise e
      | Ok errors => Ok (if ok then errors else ContentFailed :: errors)
      end
    end
  end.

Definition _validate_single_event (event : pydict) (r : rules)
    : pyresult (list event_error) :=
  let missing := check_required event (required_fields r) in
  match check_fields event (field_validators r) with
  | Raise e => Raise e
  | Ok invalid =>
    match check_content event (content_validators r) with
    | Raise e => Raise e
    | Ok content => Ok (missing ++ invalid ++ content)
    end
  end.

(** [quality_metrics]: per metric the records, each a time stamp and a
    value; [_record_metric] keeps the last hundred. *)
Record t : Type := { quality_metrics : gmap pystr (list (pystr * Q)) }.

Definition _record_metric (qa : t) (now : pystr) (metric_name : pystr) (v : Q) : t :=
  let records := default [] (quality_metrics qa !! metric_name) ++ [(now, v)] in
  let records :=
    if (100 <? length records)%nat then drop (length records - 100) records
    else records in
  {| quality_metrics := <[metric_name := records]> (quality_metrics qa) |}.

(** The loop of [validate_event_extraction]: the number of valid events and
    the complaints, each with the 1-based position of its event. *)
Fixpoint validate_loop (events : list pydict) (i : nat) (valid_count : nat)
    (errors : list (nat * list event_error))
    : pyresult (nat * list (nat * list event_error)) :=
  match events with
  | [] => Ok (valid_count, errors)
  | event :: rest =>
    match _validate_single_event event event_extraction with
    | Raise e => Raise e
    | Ok [] => validate_loop rest (S i) (S valid_count) errors
    | Ok event_errors =>
      validate_loop rest (S i) valid_count (errors ++ [(S i, event_errors)])
    end
  end.

Definition validate_event_extraction (qa : t) (now : pystr) (events : list pydict)
    : pyresult (bool * list (nat * list event_error)) * t :=
  match validate_loop events 0 0 [] with
  | Raise e => (Raise e, qa)
  | Ok (valid_count, errors) =>
    let validity_ratio :=
      match events with
      | [] => 0%Q
      | _ => (inject_Z (Z.of_nat valid_count) / inject_Z (Z.of_nat (length events)))%Q
      end in
    let qa := _record_metric qa now (str "event_extraction_quality") validity_ratio in
    let is_valid := Qle_bool (8 # 10) validity_ratio in
    (Ok (is_valid, errors), qa)
  end.

End QualityAssurance.

(** ** The specification's own words

    Definitions written after the sentences of the specification, to be
    compared with the code above. *)

Module Spec.
Import Py News.

(** *** Response repair: what a call may return *)

Definition cleaned (json_str : pystr) : pystr :=
  JSONUtils._fix_common_json_issues (JSONUtils._basic_clean json_str).



(** *** Deduplication *)

Section Dedup.

Variable fingerprint : pystr -> pystr.

Definition declared_id (a : Item) : option pystr :=
  match item_id a with
  | Some i => if is_empty i then None else Some i
  | None => None
  end.

(** Two items are duplicates if their declared ids are equal (when both are
    non-empty) or their content fingerprints are equal. *)
Definition duplicates (a b : Item) : bool :=
  match declared_id a, declared_id b with
  | Some i, Some j => str_eqb i j
  | _, _ => false
  end
  || str_eqb (fingerprint (text_or [] (content a)))
             (fingerprint (text_or [] (content b))).

(** The first occurrence wins: an item is kept unless it duplicates an item
    kept before it. *)
Fixpoint uniques (kept : list Item) (items : list Item) : list Item :=
  match items with
  | [] => kept
  | x :: rest =>
    if existsb (duplicates x) kept then uniques kept rest
    else uniques (kept ++ [x]) rest
  end.

Definition deduplicate (items : list Item) : list Item := uniques [] items.

End Dedup.

(** *** Priority scoring *)

Inductive impact : Type := Low | Medium | High.
Inductive horizon : Type := Short | Mid | Long.

(** An event of the data model: every required field present and of its
    type. *)
Record Event : Type := {
  core_event : pystr;
  impact_level : impact;
  time_horizon : horizon;
  affected_assets : list pystr;
  confidence : Q;
  timestamp : option pystr
}.

Definition impact_text (i : impact) : pystr :=
  match i with Low => str "low" | Medium => str "medium" | High => str "high" end.
Definition horizon_text (h : horizon) : pystr :=
  match h with Short => str "short" | Mid => str "mid" | Long => str "long" end.

(** *** Placeholders

    A placeholder stands for an item whose extraction failed: an event with
    a [core_event], an [impact_level], the [time_horizon] short, no
    [affected_assets] and a [confidence].  It may carry further fields. *)
Definition placeholder (core_event : pystr) (level : impact) (confidence : Q)
    (event : pyval) : Prop :=
  exists d c,
    event = PDict d
    /\ dget d (str "core_event") = Some (PStr core_event)
    /\ dget d (str "impact_level") = Some (PStr (impact_text level))
    /\ dget d (str "time_horizon") = Some (PStr (str "short"))
    /\ dget d (str "affected_assets") = Some (PList [])
    /\ dget d (str "confidence") = Some (PFloat (Fin c))
    /\ (c == confidence)%Q.

(** The first hundred characters of the content of an item; its title, or
    for want of a title that excerpt. *)
Definition excerpt (news : Item) : pystr := take 100 (text_or [] (content news)).

Definition headline (news : Item) : pystr :=
  match title news with
  | Some (c :: t) => c :: t
  | _ => excerpt news
  end.

(** The level read off the keywords of title and content: high if one of
    the first list occurs, else low if one of the second does, else
    medium. *)
Definition high_impact_keywords : list pystr :=
  [str "利率"; str "降息"; str "加息"; str "通胀"; str "衰退"; str "危机";
   str "刺激"; str "财报"; str "盈利"].
Definition low_impact_keywords : list pystr :=
  [str "观点"; str "评论"; str "分析"; str "预计"; str "可能"].

Definition keyword_level (news : Item) : impact :=
  let text := lower (text_or [] (title news) ++ text_or [] (content news)) in
  if existsb (fun keyword => contains keyword text) high_impact_keywords then High
  else if existsb (fun keyword => contains keyword text) low_impact_keywords then Low
  else Medium.

(** A confidence is low when it is below 0.5, the value the scorer takes
    for an event that states none. *)
Definition low_confidence (confidence : Q) : Prop := (confidence < 1 # 2)%Q.

(** The dict the code receives for an event. *)
Definition encode (e : Event) : pydict :=
  [(str "core_event", PStr (core_event e));
   (str "impact_level", PStr (impact_text (impact_level e)));
   (str "time_horizon", PStr (horizon_text (time_horizon e)));
   (str "affected_assets", PList (map PStr (affected_assets e)));
   (str "confidence", PFloat (Fin (confidence e)))]
  ++ match timestamp e with
     | Some t => [(str "timestamp", PStr t)]
     | None => []
     end.

Definition with_confidence (e : Event) (c : Q) : Event :=
  {| core_event := core_event e; impact_level := impact_level e;
     time_horizon := time_horizon e; affected_assets := affected_assets e;
     confidence := c; timestamp := timestamp e |}.

(** Impact weights {low:10, medium:50, high:100}; time weights
    {short:30, mid:20, long:10}. *)
Definition impactWeight (i : impact) : Q :=
  match i with Low => 10 | Medium => 50 | High => 100 end.
Definition timeHorizonWeight (h : horizon) : Q :=
  match h with Short => 30 | Mid => 20 | Long => 10 end.

(** The rules.  Each has a fixed bonus and a conjunction of conditions on
    the fields of the event: equality, ordinal comparison over
    low < medium < high, keyword containment, overlap with the current
    holdings. *)
Inductive Condition : Type :=
| ImpactIs (i : impact)
| HorizonIs (h : horizon)
| ImpactAtLeast (i : impact)
| Mentions (keywords : list pystr)
| Touches (assets : list pystr).

Record Rule : Type := { bonus : Q; when_all : list Condition }.

Definition rule_table : list Rule :=
  [ {| bonus := 100; when_all := [ImpactIs High; HorizonIs Short] |};
    {| bonus := 80; when_all := [ImpactIs High; HorizonIs Mid] |};
    {| bonus := 90; when_all := [Touches [str "持仓标的"]; ImpactAtLeast Medium] |};
    {| bonus := 95;
       when_all := [Mentions [str "危机"; str "崩盘"; str "暴跌"; str "恐慌"]] |};
    {| bonus := 85;
       when_all := [Mentions [str "政策"; str "监管"; str "利率"; str "央行"]] |};
    {| bonus := 70;
       when_all := [Mentions [str "财报"; str "盈利"; str "营收"];
                    ImpactAtLeast Medium] |} ].

Definition rank (i : impact) : nat :=
  match i with Low => 0 | Medium => 1 | High => 2 end.

Definition same_impact (a b : impact) : bool := (rank a =? rank b)%nat.

Definition same_horizon (a b : horizon) : bool :=
  match a, b with
  | Short, Short | Mid, Mid | Long, Long => true
  | _, _ => false
  end.

(** Some text of [a] is a text of [b]. *)
Definition overlap (a b : list pystr) : bool :=
  existsb (fun x => existsb (fun y => str_eqb x y) b) a.

(** Some keyword occurs in the text, letter case of the text set aside. *)
Definition mentions (text : pystr) (keywords : list pystr) : bool :=
  existsb (fun keyword => contains keyword (lower text)) keywords.

(** A condition on an event.  The affected assets are matched against the
    current holdings; where there are none, against the assets that the
    condition names. *)
Definition holds (e : Event) (holdings : option (list pystr)) (c : Condition)
    : bool :=
  match c with
  | ImpactIs i => same_impact (impact_level e) i
  | HorizonIs h => same_horizon (time_horizon e) h
  | ImpactAtLeast i => (rank i <=? rank (impact_level e))%nat
  | Mentions keywords => mentions (core_event e) keywords
  | Touches assets =>
    match holdings with
    | Some (h :: hs) => overlap (affected_assets e) (h :: hs)
    | _ => overlap (affected_assets e) assets
    end
  end.

(** A rule matches when all its conditions hold; every rule that matches
    contributes its bonus. *)
Definition rule_matches (e : Event) (holdings : option (list pystr)) (r : Rule)
    : bool :=
  forallb (holds e holdings) (when_all r).

Definition bonuses (e : Event) (holdings : option (list pystr)) : Q :=
  fold_right Qplus 0%Q
    (List.map bonus (List.filter (rule_matches e holdings) rule_table)).

(** The calendar: the instant, in hours, that a timestamp denotes - none
    when the timestamp cannot be parsed - and the present instant. *)
Record calendar : Type := { reading : pystr -> option Q; present : Q }.

Definition hours_elapsed (cal : calendar) (t : pystr) : option Q :=
  match reading cal t with
  | Some instant => Some (present cal - instant)%Q
  | None => None
  end.

(** The time decay: 1.0 without a timestamp; 0.7 for a timestamp that
    cannot be parsed; 1.0, 0.8, 0.5, 0.3 for at most 1, at most 24, at most
    72 and more elapsed hours. *)
Definition decay (cal : calendar) (e : Event) : Q :=
  match timestamp e with
  | None => 1
  | Some t =>
    match hours_elapsed cal t with
    | None => 7 # 10
    | Some hours =>
      if Qle_bool hours 1 then 1
      else if Qle_bool hours 24 then 8 # 10
      else if Qle_bool hours 72 then 5 # 10
      else 3 # 10
    end
  end.

Definition clamp (lo hi x : Q) : Q := Qmax lo (Qmin hi x).

Definition priority_score (cal : calendar) (e : Event)
    (holdings : option (list pystr)) : Q :=
  clamp 0 100
    (((impactWeight (impact_level e) + timeHorizonWeight (time_horizon e))
      * confidence e + bonuses e holdings) * decay cal e).

End Spec.

(** ** Auxiliary definitions used in the statements of Part II *)

Module Aux.
Import Py News.

(** The exceptions of the decoder. *)
Definition decoder_error (e : exn) : Prop :=
  e = JSONDecodeError \/ e = RecursionError \/ e = ValueError.


(** Texts that hold the digit 1 only; an integer literal of 4301 digits. *)
Definition ones (s : pystr) : Prop := Forall (fun c => c = char_of "1") s.

Definition long_integer : pystr := repeat (char_of "1") 4301.

(** The text [{QaQ: Q1Q}], Q the double quote: well-formed JSON. *)
Definition digit_in_string : pystr :=
  str "{" ++ quoted "a" ++ str ": " ++ quoted "1" ++ str "}".

(** The text [{QaQ: Qx\QyQ}]: a string with an escaped quote. *)
Definition escaped_quote : pystr :=
  str "{" ++ quoted "a" ++ str ": " ++ [dquote] ++ str "x\" ++ [dquote]
  ++ str "y" ++ [dquote] ++ str "}".

Definition empty_cache : SmartCache.t :=
  {| SmartCache.cache := ∅; SmartCache.default_ttl := 3600%Z;
     SmartCache.stat := {| SmartCache.hits := 0; SmartCache.misses := 0;
                           SmartCache.sets := 0; SmartCache.evictions := 0 |} |}.

(** A condition that cannot raise on the dict [event]: [gte] needs a level
    on both sides, [contains_any] a list of keywords. *)
Definition safe_condition (event : pydict) (c : PrioritySystem.condition) : bool :=
  match PrioritySystem.op c with
  | PrioritySystem.Equals => true
  | PrioritySystem.Gte =>
    is_ok (PrioritySystem.index PrioritySystem.impact_levels
             (dget_or event (PrioritySystem.field c) PNone))
    && is_ok (PrioritySystem.index_value PrioritySystem.impact_levels
                (PrioritySystem.value c))
  | PrioritySystem.ContainsAny =>
    match PrioritySystem.value c with
    | PrioritySystem.VList _ => true
    | PrioritySystem.VStr _ => false
    end
  end.

Definition safe_rule (event : pydict) (r : PrioritySystem.rule) : bool :=
  forallb (safe_condition event) (PrioritySystem.conditions r).

(** Whether [_matches_rule] returns [True]. *)
Definition rule_fires (event : pydict) (holdings : option (list pystr))
    (r : PrioritySystem.rule) : bool :=
  match PrioritySystem._matches_rule event r holdings with
  | Ok true => true
  | _ => false
  end.

(** The sum of the bonuses of the rules that match, as the code adds them. *)
Definition matched_bonus (event : pydict) (holdings : option (list pystr))
    (rules : list PrioritySystem.rule) : Z :=
  fold_right Z.add 0%Z
    (List.map PrioritySystem.score (List.filter (rule_fires event holdings) rules)).

(** [max(0, min(100, x))] on rationals, with the comparisons of the code. *)
Definition clampQ (x : Q) : Q :=
  let m := if Qlt_bool x 100%Q then x else 100%Q in
  if Qlt_bool 0%Q m then m else 0%Q.

(** No condition of the rule reads the field [confidence] or [timestamp]. *)
Definition reads_neither (r : PrioritySystem.rule) : bool :=
  forallb (fun c => negb (str_eqb (PrioritySystem.field c) (str "confidence"))
                    && negb (str_eqb (PrioritySystem.field c) (str "timestamp")))
          (PrioritySystem.conditions r).

(** The entries of [impact_scores] and [time_scores]. *)
Definition impact_points (i : Spec.impact) : Z :=
  match i with Spec.Low => 10 | Spec.Medium => 50 | Spec.High => 100 end.
Definition horizon_points (h : Spec.horizon) : Z :=
  match h with Spec.Short => 30 | Spec.Mid => 20 | Spec.Long => 10 end.

(** A clock whose parser rejects every text. *)
Definition no_clock : PrioritySystem.clock :=
  {| PrioritySystem.datetime := unit;
     PrioritySystem.fromtimestamp := fun _ => Raise ValueError;
     PrioritySystem.fromisoformat := fun _ => Raise ValueError;
     PrioritySystem.hours_since := fun _ => Raise TypeError |}.

(** A high-impact, short-horizon event without a timestamp. *)
Definition urgent_event : Spec.Event :=
  {| Spec.core_event := str "rate decision";
     Spec.impact_level := Spec.High;
     Spec.time_horizon := Spec.Short;
     Spec.affected_assets := [];
     Spec.confidence := 9 # 10;
     Spec.timestamp := None |}.

(** *** Time *)



(** An evening in October, written without a time zone, in universal time
    with the suffix Z, and with the offset spelled out. *)
Definition evening : pystr := str "2025-10-08T20:00:00".
Definition evening_utc : pystr := str "2025-10-08T20:00:00Z".
Definition evening_offset : pystr := str "2025-10-08T20:00:00+00:00".

(** A calendar that reads these three texts, as the twentieth hour of the
    day, and no other; it is now the twenty-second hour. *)
Definition october_calendar : Spec.calendar :=
  {| Spec.reading := fun t =>
       if str_eqb t evening || str_eqb t evening_utc || str_eqb t evening_offset
       then Some 20%Q else None;
     Spec.present := 22%Q |}.

(** A clock of the same day, with the parser and the subtraction of the
    standard library: the suffix Z is not understood, a time with an offset
    is aware of its zone, and [datetime.now()], which is not, cannot be
    compared with it. *)
Definition october_clock : PrioritySystem.clock :=
  {| PrioritySystem.datetime := (Q * bool)%type;
     PrioritySystem.fromtimestamp := fun f =>
       match f with
       | Fin seconds => Ok ((seconds / 3600)%Q, false)
       | _ => Raise ValueError
       end;
     PrioritySystem.fromisoformat := fun s =>
       if str_eqb s evening then Ok (20%Q, false)
       else if str_eqb s evening_offset then Ok (20%Q, true)
       else Raise ValueError;
     PrioritySystem.hours_since := fun dt =>
       if snd dt then Raise TypeError else Ok (22 - fst dt)%Q |}.

(** A medium-impact, mid-horizon event that no rule matches. *)
Definition routine_event (timestamp : option pystr) : Spec.Event :=
  {| Spec.core_event := str "quarterly review";
     Spec.impact_level := Spec.Medium;
     Spec.time_horizon := Spec.Mid;
     Spec.affected_assets := [];
     Spec.confidence := 1 # 2;
     Spec.timestamp := timestamp |}.

(** A medium-impact, mid-horizon report on earnings, stamped that evening:
    the rule for earnings matches it. *)
Definition earnings_event : Spec.Event :=
  {| Spec.core_event := str "季度财报公布";
     Spec.impact_level := Spec.Medium;
     Spec.time_horizon := Spec.Mid;
     Spec.affected_assets := [str "AAPL"];
     Spec.confidence := 1 # 2;
     Spec.timestamp := Some evening |}.

(** A record with every checked field present and valid, for a given
    [core_event]. *)
Definition record_with (core_event : pystr) : pydict :=
  [(str "core_event", PStr core_event);
   (str "impact_level", PStr (str "high"));
   (str "time_horizon", PStr (str "short"));
   (str "affected_assets", PList []);
   (str "confidence", PFloat (Fin (9 # 10)))].

Definition levels : list pystr := [str "low"; str "medium"; str "high"].
Definition horizons : list pystr := [str "short"; str "mid"; str "long"].

(** *** Batch extraction *)

(** The event the fallback produces for one item when the oracle is at its
    [k]-th call: the decoded answer, the agent's placeholder when the
    answer cannot be used, the engine's placeholder when the call fails. *)
Definition single_event (llm_call : oracle) (rl : nat) (k : nat) (news : Item)
    : pyval :=
  match llm_call k (EventExtractionAgent.single_prompt news) with
  | Raise _ => OptimizedInvestmentSystem._create_default_event news
  | Ok response =>
    match EventExtractionAgent._parse_single_response rl response with
    | Ok event_data => event_data
    | Raise _ => EventExtractionAgent._create_default_event news
    end
  end.

Fixpoint single_events (llm_call : oracle) (rl : nat) (k : nat)
    (news_batch : list Item) : list pyval :=
  match news_batch with
  | [] => []
  | news :: rest =>
    single_event llm_call rl k news :: single_events llm_call rl (S k) rest
  end.

(** What the fallback settles for, for the item [news], when the oracle is
    at its [k]-th call: the event decoded from the answer; when the answer
    cannot be used, a placeholder with the headline of the item, the level
    of its keywords and the confidence 0.5; when the call fails, a
    placeholder with the excerpt of the content, the level low and the
    confidence 0.3. *)
Definition settled (llm_call : oracle) (rl : nat) (k : nat) (news : Item)
    (event : pyval) : Prop :=
  match llm_call k (EventExtractionAgent.single_prompt news) with
  | Raise _ => Spec.placeholder (Spec.excerpt news) Spec.Low (3 # 10) event
  | Ok response =>
    match EventExtractionAgent._parse_single_response rl response with
    | Ok event_data => event = event_data
    | Raise _ =>
      Spec.placeholder (Spec.headline news) (Spec.keyword_level news) (1 # 2) event
    end
  end.

(** The batch fails: the call of the oracle raises, or its answer does not
    go through [_parse_batch_response]. *)
Definition batch_fails (llm_call : oracle) (rl : nat) (m : monitor)
    (news_batch : list Item) : Prop :=
  match llm_call (oracle_calls m)
          (OptimizedInvestmentSystem._build_batch_prompt news_batch) with
  | Raise _ => True
  | Ok response =>
    is_ok (OptimizedInvestmentSystem._parse_batch_response rl response news_batch)
    = false
  end.

(** The position an element names: [news_index - 1], 0 without the field;
    [None] when the field is no integer. *)
Definition element_index (d : pydict) : option Z :=
  match dget d (str "news_index") with
  | None => Some (1 - 1)%Z
  | Some (PInt z) => Some (z - 1)%Z
  | Some (PBool b) => Some (Z.b2z b - 1)%Z
  | Some _ => None
  end.

(** An element the loop can handle: a dict whose [news_index], if any, is
    an integer. *)
Definition is_element (e : pyval) : bool :=
  match e with
  | PDict d => match element_index d with Some _ => true | None => false end
  | _ => false
  end.

(** The element after the loop: with the provenance of the item its
    [news_index] names, or as it was when that names no item. *)
Definition matched (original_news : list Item) (e : pyval) : pyval :=
  match e with
  | PDict d =>
    match element_index d with
    | Some z =>
      if (0 <=? z)%Z then
        match original_news !! Z.to_nat z with
        | Some item => PDict (OptimizedInvestmentSystem.with_provenance d item)
        | None => e
        end
      else e
    | None => e
    end
  | _ => e
  end.

Definition item_with (text file : string) (line : Z) : Item :=
  {| item_id := None; content := Some (str text); title := None;
     source := None; timestamp := None; category := None;
     source_file := Some (str file); source_line := Some line |}.

Definition fresh_monitor : monitor := {| oracle_calls := 0; llm_calls_total := 0 |}.

(** An oracle that answers every prompt with prose. *)
Definition prose_oracle : oracle := fun _ _ => Ok (str "I am sorry, I cannot help.").

Definition five_items : list Item :=
  [item_with "a" "news.txt" 1; item_with "b" "news.txt" 2;
   item_with "c" "news.txt" 3; item_with "d" "news.txt" 4;
   item_with "e" "news.txt" 5].

(** The answer [{Qbatch_eventsQ: [{Qnews_indexQ: 1}, {Qnews_indexQ: 2}]}],
    Q the double quote: two elements. *)
Definition two_elements : pystr :=
  str "{" ++ quoted "batch_events" ++ str ": [{" ++ quoted "news_index"
  ++ str ": 1}, {" ++ quoted "news_index" ++ str ": 2}]}".

Definition two_elements_oracle : oracle := fun _ _ => Ok two_elements.

(** *** Deduplication *)

Section Dedup.

Variable md5 : pystr -> pystr.

(** The state of the scan agrees with the list of kept items: the two sets
    hold the declared ids and the fingerprints of the kept items, and the
    counters add up. *)
Definition aligned (kept : list Item) (st : OptimizedInvestmentSystem.scan) : Prop :=
  OptimizedInvestmentSystem.all_news st = kept
  /\ (forall i, i ∈ OptimizedInvestmentSystem.processed_ids st
                <-> exists y, y ∈ kept /\ Spec.declared_id y = Some i)
  /\ (forall h, h ∈ OptimizedInvestmentSystem.processed_hashes st
                <-> exists y, y ∈ kept
                              /\ OptimizedInvestmentSystem.content_hash md5 y = h)
  /\ OptimizedInvestmentSystem.news_count st
     = OptimizedInvestmentSystem.duplicate_count st + length kept.

(** No item of the list duplicates an item before it. *)
Definition first_occurrences (l : list Item) : Prop :=
  forall before x after,
    l = before ++ x :: after -> existsb (Spec.duplicates md5 x) before = false.

End Dedup.

(** *** Prioritisation *)

(** The score [prioritize_events] has attached to an event. *)
Definition priority_score_of (d : pydict) : option pyfloat :=
  match dget d (str "priority_score") with
  | Some (PFloat f) => Some f
  | _ => None
  end.

(** [a] carries a score, a number, that is not below the one of [b]. *)
Definition not_below (a b : pydict) : Prop :=
  exists qa qb, priority_score_of a = Some (Fin qa)
                /\ priority_score_of b = Some (Fin qb) /\ (qb <= qa)%Q.

(** Every event scores at least as much as every event after it. *)
Fixpoint descending (l : list pydict) : Prop :=
  match l with
  | [] => True
  | d :: rest => Forall (not_below d) rest /\ descending rest
  end.

(** [d] is the event [ev] with its score and its level. *)
Definition scored_as (clk : PrioritySystem.clock) (holdings : option (list pystr))
    (ev d : pydict) : Prop :=
  exists s, PrioritySystem.calculate_priority_score clk ev holdings = Ok s
            /\ d = PrioritySystem.with_priority ev s.

(** An event the model may have answered without [impact_level]. *)
Definition unlabelled_event : pydict := [(str "core_event", PStr (str "something"))].

(** A scored event whose score is a number; the order of two of them; a
    list in which every one is followed by lower or equal scores only. *)
Definition finite (a : pyfloat * pydict) : Prop := exists q, fst a = Fin q.

Definition ge_score (a b : pyfloat * pydict) : Prop :=
  exists qa qb, fst a = Fin qa /\ fst b = Fin qb /\ (qb <= qa)%Q.

Fixpoint sorted_desc (l : list (pyfloat * pydict)) : Prop :=
  match l with
  | [] => True
  | a :: rest => Forall (ge_score a) rest /\ sorted_desc rest
  end.

(** *** Validation *)

(** Whether the per-record validation finds something to complain about. *)
Definition has_complaints (event : pydict) : bool :=
  match QualityAssurance._validate_single_event event
          QualityAssurance.event_extraction with
  | Ok (_ :: _) => true
  | _ => false
  end.

Definition no_metrics : QualityAssurance.t :=
  {| QualityAssurance.quality_metrics := ∅ |}.

(** *** Text cleaning *)

(** A character [sanitize_string] has nothing to do with: no control
    character and no backslash. *)
Definition plain (c : char) : bool :=
  negb (JSONUtils.control c) && negb (c =? JSONUtils.backslash)%N.

(** *** Answers of the oracle *)

(** An answer in the format the single-item prompt asks for:
    [{Qcore_eventQ: Qrate cutQ, Qimpact_levelQ: QhighQ, Qtime_horizonQ:
    QshortQ, Qaffected_assetsQ: [], Qinvestment_implicationQ: QbondsQ,
    QconfidenceQ: 0.9}], Q the double quote. *)
Definition prompt_format_answer : pystr :=
  str "{" ++ quoted "core_event" ++ str ": " ++ quoted "rate cut" ++ str ", "
  ++ quoted "impact_level" ++ str ": " ++ quoted "high" ++ str ", "
  ++ quoted "time_horizon" ++ str ": " ++ quoted "short" ++ str ", "
  ++ quoted "affected_assets" ++ str ": [], "
  ++ quoted "investment_implication" ++ str ": " ++ quoted "bonds" ++ str ", "
  ++ quoted "confidence" ++ str ": 0.9}".

Definition prompt_format_oracle : oracle := fun _ _ => Ok prompt_format_answer.

(** An oracle that answers every prompt with the empty object. *)
Definition empty_object_oracle : oracle := fun _ _ => Ok (str "{}").

(** The answer [{Qbatch_eventsQ: [{Qnews_indexQ: 1}, {Qnews_indexQ: Q2Q}]}]:
    the index of the second element is a text. *)
Definition text_index_answer : pystr :=
  str "{" ++ quoted "batch_events" ++ str ": [{" ++ quoted "news_index"
  ++ str ": 1}, {" ++ quoted "news_index" ++ str ": " ++ quoted "2" ++ str "}]}".

Definition text_index_oracle : oracle :=
  fun _ p => match p with
             | BatchPrompt _ => Ok text_index_answer
             | SinglePrompt _ _ _ _ => Raise (OtherError 1)
             end.

(** An oracle that is down: every call raises. *)
Definition dead_oracle : oracle := fun _ _ => Raise (OtherError 1).

End Aux.
(* ===================================================================== *)
(** * Part II: theorems                                                   *)
(* ===================================================================== *)

(** ** The decoder accepts more with more depth *)

Section JsonFacts.
Import Py Json.

Lemma members_mono (scan scan' : pystr -> pyresult (pyval * pystr)) :
  (forall s x, scan s = Ok x -> scan' s = Ok x) ->
  forall n s acc x, members scan n s acc = Ok x -> members scan' n s acc = Ok x.
Proof.
  intros Hscan. induction n as [|n IH]; intros s acc x; simpl; [discriminate|].
  destruct s as [|q s1]; [discriminate|].
  destruct (negb (q =? dquote)%N); [discriminate|].
  destruct (scanstring s1 []) as [[key s2]|]; [|discriminate].
  destruct (skip_ws s2) as [|col s3]; [discriminate|].
  destruct (negb (col =? c_colon)%N); [discriminate|].
  destruct (scan (skip_ws s3)) as [[v s4]|] eqn:E; [|discriminate].
  rewrite (Hscan _ _ E).
  destruct (skip_ws s4) as [|d s5]; [discriminate|].
  destruct (d =? c_rbrace)%N; [auto|].
  destruct (d =? c_comma)%N; [apply IH | discriminate].
Qed.

Lemma items_mono (scan scan' : pystr -> pyresult (pyval * pystr)) :
  (forall s x, scan s = Ok x -> scan' s = Ok x) ->
  forall n s acc x, items scan n s acc = Ok x -> items scan' n s acc = Ok x.
Proof.
  intros Hscan. induction n as [|n IH]; intros s acc x; simpl; [discriminate|].
  destruct (scan s) as [[v s1]|] eqn:E; [|discriminate].
  rewrite (Hscan _ _ E).
  destruct (skip_ws s1) as [|d s2]; [discriminate|].
  destruct (d =? c_rbracket)%N; [auto|].
  destruct (d =? c_comma)%N; [apply IH | discriminate].
Qed.

Lemma scan_once_mono rl :
  forall s x, scan_once rl s = Ok x -> scan_once (S rl) s = Ok x.
Proof.
  induction rl as [|rl IH]; intros s x H.
  - destruct s as [|c r]; [discriminate|]. simpl in *.
    destruct (c =? dquote)%N; [exact H|].
    destruct (c =? c_lbrace)%N; [discriminate|].
    destruct (c =? c_lbracket)%N; [discriminate | exact H].
  - destruct s as [|c r]; [discriminate|].
    change (scan_once (S (S rl)) (c :: r)) with
      (if (c =? dquote)%N then
         match scanstring r [] with
         | Ok (t, r') => Ok (PStr t, r')
         | Raise e => Raise e
         end
       else if (c =? c_lbrace)%N then
         match skip_ws r with
         | [] => Raise JSONDecodeError
         | c1 :: r1 =>
           if (c1 =? c_rbrace)%N then Ok (PDict [], r1)
           else members (scan_once (S rl)) (S (length r)) (c1 :: r1) []
         end
       else if (c =? c_lbracket)%N then
         match skip_ws r with
         | [] => Raise JSONDecodeError
         | c1 :: r1 =>
           if (c1 =? c_rbracket)%N then Ok (PList [], r1)
           else items (scan_once (S rl)) (S (length r)) (c1 :: r1) []
         end
       else scan_scalar (c :: r)).
    change (scan_once (S rl) (c :: r)) with
      (if (c =? dquote)%N then
         match scanstring r [] with
         | Ok (t, r') => Ok (PStr t, r')
         | Raise e => Raise e
         end
       else if (c =? c_lbrace)%N then
         match skip_ws r with
         | [] => Raise JSONDecodeError
         | c1 :: r1 =>
           if (c1 =? c_rbrace)%N then Ok (PDict [], r1)
           else members (scan_once rl) (S (length r)) (c1 :: r1) []
         end
       else if (c =? c_lbracket)%N then
         match skip_ws r with
         | [] => Raise JSONDecodeError
         | c1 :: r1 =>
           if (c1 =? c_rbracket)%N then Ok (PList [], r1)
           else items (scan_once rl) (S (length r)) (c1 :: r1) []
         end
       else scan_scalar (c :: r)) in H.
    destruct (c =? dquote)%N; [exact H|].
    destruct (c =? c_lbrace)%N.
    { destruct (skip_ws r) as [|c1 r1]; [discriminate|].
      destruct (c1 =? c_rbrace)%N; [exact H|].
      revert H. apply members_mono. exact IH. }
    destruct (c =? c_lbracket)%N; [|exact H].
    destruct (skip_ws r) as [|c1 r1]; [discriminate|].
    destruct (c1 =? c_rbracket)%N; [exact H|].
    revert H. apply items_mono. exact IH.
Qed.

Lemma loads_mono rl s v : loads rl s = Ok v -> loads (S rl) s = Ok v.
Proof.
  unfold loads. destruct (starts_with byte_order_mark s); [discriminate|].
  destruct (scan_once rl (skip_ws s)) as [[w r]|] eqn:E; [|discriminate].
  rewrite (scan_once_mono _ _ _ E). auto.
Qed.

Lemma loads_le rl rl' s v : rl <= rl' -> loads rl s = Ok v -> loads rl' s = Ok v.
Proof.
  induction 1 as [|rl' _ IH]; [auto|]. intros H. apply loads_mono, IH, H.
Qed.

End JsonFacts.

(** ** The decoder raises [JSONDecodeError] or [RecursionError] only *)

Section JsonErrors.
Import Py Json Aux.

Lemma scanstring_error s :
  forall acc e, scanstring s acc = Raise e -> e = JSONDecodeError.
Proof.
  induction s as [s IH] using (induction_ltof1 _ (@length N)).
  unfold ltof in IH.
  intros acc e. destruct s as [|c s1]; cbn [scanstring]; [congruence|].
  destruct (c =? dquote)%N; [discriminate|].
  destruct (c =? c_backslash)%N.
  - destruct s1 as [|x s2]; [congruence|].
    destruct (x =? 117)%N.
    + destruct s2 as [|h1 [|h2 [|h3 [|h4 s3]]]]; try congruence.
      destruct (hex4 h1 h2 h3 h4) as [u|]; [|congruence].
      assert (Hs3 : forall a, scanstring s3 a = Raise e -> e = JSONDecodeError)
        by (intros a; apply IH; cbn; lia).
      destruct s3 as [|b [|u' [|g1 [|g2 [|g3 [|g4 s4]]]]]]; try apply Hs3.
      destruct (_ && _ && _ && _); [|apply Hs3].
      destruct (hex4 g1 g2 g3 g4) as [u2|]; [|congruence].
      destruct (low_surrogate u2); [|apply Hs3].
      apply IH. cbn. lia.
    + destruct (escape x); [|congruence]. apply IH. cbn. lia.
  - destruct (c <=? 31)%N; [congruence|]. apply IH. cbn. lia.
Qed.

Lemma match_number_error s e r : match_number s = Some (Raise e, r) -> e = ValueError.
Proof.
  unfold match_number.
  destruct (match s with
            | c :: r0 => if (c =? c_minus)%N then (true, r0) else (false, s)
            | [] => (false, s)
            end) as [neg s1].
  destruct (int_part s1) as [[ip r1]|]; [|discriminate].
  destruct (frac_part r1) as [fp r2]. destruct (exp_part r2) as [ex r3].
  destruct fp; [destruct ex|]; try discriminate.
  destruct (int_max_str_digits <? length ip)%nat; [|discriminate].
  intros [= <- _]. reflexivity.
Qed.

(** A scalar is refused with [JSONDecodeError], or an integer literal of
    too many digits with [ValueError]. *)
Lemma scan_scalar_error s e :
  scan_scalar s = Raise e -> e = JSONDecodeError \/ e = ValueError.
Proof.
  unfold scan_scalar.
  repeat match goal with
         | |- context [match after ?p s with _ => _ end] => destruct (after p s)
         end; try discriminate.
  destruct (match_number s) as [[[v|e'] r]|] eqn:E;
    [discriminate | intros [= <-]; right; eapply match_number_error, E
    | intros [= <-]; left; reflexivity].
Qed.

Lemma members_error (scan : pystr -> pyresult (pyval * pystr)) :
  (forall s e, scan s = Raise e -> decoder_error e) ->
  forall n s acc e, members scan n s acc = Raise e -> decoder_error e.
Proof.
  unfold decoder_error. intros Hscan.
  induction n as [|n IH]; intros s acc e; cbn [members]; [intros [= <-]; auto|].
  destruct s as [|q s1]; [intros [= <-]; auto|].
  destruct (negb (q =? dquote)%N); [intros [= <-]; auto|].
  destruct (scanstring s1 []) as [[key s2]|e'] eqn:E;
    [|intros [= <-]; left; eapply scanstring_error, E].
  destruct (skip_ws s2) as [|col s3]; [intros [= <-]; auto|].
  destruct (negb (col =? c_colon)%N); [intros [= <-]; auto|].
  destruct (scan (skip_ws s3)) as [[v s4]|e'] eqn:E';
    [|intros [= <-]; eapply Hscan, E'].
  destruct (skip_ws s4) as [|d s5]; [intros [= <-]; auto|].
  destruct (d =? c_rbrace)%N; [discriminate|].
  destruct (d =? c_comma)%N; [apply IH | intros [= <-]; auto].
Qed.

Lemma items_error (scan : pystr -> pyresult (pyval * pystr)) :
  (forall s e, scan s = Raise e -> decoder_error e) ->
  forall n s acc e, items scan n s acc = Raise e -> decoder_error e.
Proof.
  unfold decoder_error. intros Hscan.
  induction n as [|n IH]; intros s acc e; cbn [items]; [intros [= <-]; auto|].
  destruct (scan s) as [[v s1]|e'] eqn:E'; [|intros [= <-]; eapply Hscan, E'].
  destruct (skip_ws s1) as [|d s2]; [intros [= <-]; auto|].
  destruct (d =? c_rbracket)%N; [discriminate|].
  destruct (d =? c_comma)%N; [apply IH | intros [= <-]; auto].
Qed.

Lemma scan_once_error rl :
  forall s e, scan_once rl s = Raise e -> decoder_error e.
Proof.
  induction rl as [|rl IH]; intros s e;
    (destruct s as [|c r]; [intros [= <-]; left; reflexivity|]);
    cbn [scan_once];
    (destruct (c =? dquote)%N;
     [destruct (scanstring r []) as [[t r']|e'] eqn:E;
      [discriminate | intros [= <-]; left; eapply scanstring_error, E]|]).
  - destruct (c =? c_lbrace)%N; [intros [= <-]; right; left; reflexivity|].
    destruct (c =? c_lbracket)%N; [intros [= <-]; right; left; reflexivity|].
    intros H. destruct (scan_scalar_error _ _ H) as [-> | ->];
      [left | right; right]; reflexivity.
  - destruct (c =? c_lbrace)%N.
    { destruct (skip_ws r) as [|c1 r1]; [intros [= <-]; left; reflexivity|].
      destruct (c1 =? c_rbrace)%N; [discriminate|].
      apply members_error, IH. }
    destruct (c =? c_lbracket)%N.
    { destruct (skip_ws r) as [|c1 r1]; [intros [= <-]; left; reflexivity|].
      destruct (c1 =? c_rbracket)%N; [discriminate|].
      apply items_error, IH. }
    intros H. destruct (scan_scalar_error _ _ H) as [-> | ->];
      [left | right; right]; reflexivity.
Qed.

Lemma loads_error rl s e : loads rl s = Raise e -> decoder_error e.
Proof.
  unfold loads.
  destruct (starts_with byte_order_mark s); [intros [= <-]; left; reflexivity|].
  destruct (scan_once rl (skip_ws s)) as [[v r]|e'] eqn:E.
  - destruct (skip_ws r); [discriminate | intros [= <-]; left; reflexivity].
  - intros [= <-]. eapply scan_once_error, E.
Qed.

End JsonErrors.

(** ** Response repair: [safe_json_parse] *)

Section JSONUtilsFacts.
Import Py JSONUtils Spec Aux.

(** The fallback text decodes to the placeholder as soon as one level of
    nesting is allowed. *)
Lemma loads_fallback rl :
  1 <= rl -> Json.loads rl _build_fallback_json = Ok fallback_object.
Proof.
  intros H. apply (loads_le 1 rl); [exact H|]. vm_compute. reflexivity.
Qed.

(** On the empty string the guard returns the caller's default. *)
Lemma safe_json_parse_empty rl default :
  safe_json_parse rl [] default = Ok default.
Proof. reflexivity. Qed.

(** An exception of the decoder that is no [JSONDecodeError] leaves
    [safe_json_parse]: the outer handler does not catch it. *)
Lemma safe_json_parse_propagates rl json_str default e :
  json_str <> [] ->
  Json.loads rl (cleaned json_str) = Raise e ->
  is_JSONDecodeError e = false ->
  safe_json_parse rl json_str default = Raise e.
Proof.
  unfold safe_json_parse, cleaned.
  generalize (_fix_common_json_issues (_basic_clean json_str)). intros text.
  intros Hne Hload He.
  destruct json_str; [contradiction|]. cbn [is_empty].
  rewrite Hload, He. reflexivity.
Qed.

(** With a depth of two, three nested arrays already escape. *)
Example safe_json_parse_recursion_error :
  safe_json_parse 2 (str "[[[1]]]") PNone = Raise RecursionError.
Proof. vm_compute. reflexivity. Qed.




(** C7 fails on the code: the substitution of line 66 puts a comma after
    the digit that ends a string, so a well-formed text is decoded to a
    different object than [json.loads] gives. *)
Theorem safe_json_parse_alters_valid_json :
  Json.loads 10 digit_in_string = Ok (PDict [(str "a", PStr (str "1"))])
  /\ safe_json_parse 10 digit_in_string PNone
     = Ok (PDict [(str "a", PStr (str "1, "))]).
Proof. split; vm_compute; reflexivity. Qed.

(** [_basic_clean] removes the backslash of an escaped quote: the text no
    longer decodes and the placeholder is returned for valid JSON. *)
Example safe_json_parse_unescapes_valid_json :
  Json.loads 10 escaped_quote
  = Ok (PDict [(str "a", PStr (str "x" ++ [dquote] ++ str "y"))])
  /\ safe_json_parse 10 escaped_quote PNone = Ok fallback_object.
Proof. split; vm_compute; reflexivity. Qed.

End JSONUtilsFacts.

(** ** The result cache: [get_or_compute] *)

Section SmartCacheFacts.
Import Py SmartCache Aux.

Lemma is_none_false v : v <> PNone -> is_none v = false.
Proof. destruct v; [congruence | reflexivity..]. Qed.

(** A row written at [later] with a time to live is read back until it
    expires. *)
Lemma cache_get_set (c : gmap pystr row) key v expire later now :
  (now < later + inject_Z expire)%Q ->
  cache_get (cache_set c key v expire later) key now = v.
Proof.
  intros H. unfold cache_get, cache_set. rewrite lookup_insert_eq.
  unfold live. cbn [expire_time value].
  destruct (Qle_bool (later + inject_Z expire) now) eqn:E; [|reflexivity].
  apply Qle_bool_iff in E. exfalso. apply (Qlt_not_le _ _ H E).
Qed.

(** Rows of other keys are not touched. *)
Lemma cache_get_set_other (c : gmap pystr row) key key' v expire later now :
  key <> key' ->
  cache_get (cache_set c key v expire later) key' now = cache_get c key' now.
Proof.
  intros H. unfold cache_get, cache_set. rewrite lookup_insert_ne by exact H.
  reflexivity.
Qed.

(** A hit: the cached value is returned and the compute function is not
    called. *)
Lemma get_or_compute_hit w key (compute_func : callable) ttl (now later : Q) v :
  cache_get (cache (store w)) key now = v ->
  v <> PNone ->
  get_or_compute w key compute_func ttl now later
  = (Ok v, {| store := snd (get (store w) key now); calls := calls w |}).
Proof.
  intros Hget Hv. unfold get_or_compute, get. rewrite Hget.
  rewrite (is_none_false _ Hv). reflexivity.
Qed.

(** A miss: the compute function is called once and its value stored. *)
Lemma get_or_compute_miss w key (compute_func : callable) ttl (now later : Q) v :
  cache_get (cache (store w)) key now = PNone ->
  compute_func (calls w) = Ok v ->
  get_or_compute w key compute_func ttl now later
  = (Ok v, {| store := set (snd (get (store w) key now)) key v ttl later;
              calls := S (calls w) |}).
Proof.
  intros Hget Hf. unfold get_or_compute, get. rewrite Hget.
  cbn [is_none negb snd]. rewrite Hf. reflexivity.
Qed.

(** C5, as amended.  On a cache that holds no live value for the key, when
    the compute function returns a value other than [None], a second call
    made before the entry expires returns the cached value and the compute
    function has run exactly once. *)
Theorem get_or_compute_once w key (compute_func : callable) ttl
    (now later now2 later2 : Q) v :
  cache_get (cache (store w)) key now = PNone ->
  compute_func (calls w) = Ok v ->
  v <> PNone ->
  (now2 < later + inject_Z (effective_ttl (store w) ttl))%Q ->
  let first := get_or_compute w key compute_func ttl now later in
  let second := get_or_compute (snd first) key compute_func ttl now2 later2 in
  fst first = Ok v /\ fst second = Ok v /\ calls (snd second) = S (calls w).
Proof.
  intros Hmiss Hf Hv Hlive first second. subst second first.
  rewrite (get_or_compute_miss _ _ _ _ _ _ _ Hmiss Hf). cbn [fst snd].
  rewrite (get_or_compute_hit _ _ _ _ _ _ v); [auto | | exact Hv].
  unfold set, get. cbn [store cache default_ttl snd].
  apply cache_get_set. exact Hlive.
Qed.

Lemma get_or_compute_once_witness :
  let w := {| store := empty_cache; calls := 0 |} in
  let f : callable := fun _ => Ok (PInt 7) in
  let first := get_or_compute w (str "k") f None 0 0 in
  let second := get_or_compute (snd first) (str "k") f None 10 10 in
  fst first = Ok (PInt 7) /\ fst second = Ok (PInt 7) /\ calls (snd second) = 1.
Proof.
  apply (get_or_compute_once {| store := empty_cache; calls := 0 |} (str "k")
           (fun _ => Ok (PInt 7)) None 0 0 10 10 (PInt 7));
    [reflexivity | reflexivity | discriminate | reflexivity].
Defined.

(** C5 fails as stated: a compute function that returns [None] is run again
    by the second call, since a stored [None] reads as a miss. *)
Lemma get_or_compute_none_runs_twice :
  let w := {| store := empty_cache; calls := 0 |} in
  let f : callable := fun _ => Ok PNone in
  let first := get_or_compute w (str "k") f None 0 0 in
  let second := get_or_compute (snd first) (str "k") f None 10 10 in
  calls (snd second) = 2.
Proof. vm_compute. reflexivity. Qed.

End SmartCacheFacts.

(** ** Priority scoring *)

Section PriorityFacts.
Import Py PrioritySystem Spec Aux.

(** *** What the code reads from the dict of an event *)

Lemma encode_impact_level e :
  dget (encode e) (str "impact_level") = Some (PStr (impact_text (impact_level e))).
Proof. reflexivity. Qed.

Lemma encode_time_horizon e :
  dget (encode e) (str "time_horizon") = Some (PStr (horizon_text (time_horizon e))).
Proof. reflexivity. Qed.

Lemma encode_confidence e :
  dget (encode e) (str "confidence") = Some (PFloat (Fin (confidence e))).
Proof. reflexivity. Qed.

Lemma encode_timestamp e :
  dget (encode e) (str "timestamp") = option_map PStr (timestamp e).
Proof. unfold encode. destruct (timestamp e); reflexivity. Qed.

(** *** Rules *)

Lemma any_in_value_list items l :
  any_in_value items (VList l) = Ok (existsb (fun item => in_strs item l) items).
Proof.
  induction items as [|item rest IH]; [reflexivity|].
  cbn [any_in_value in_value existsb]. destruct (in_strs item l); [reflexivity|].
  exact IH.
Qed.

Lemma condition_holds_total event holdings c :
  safe_condition event c = true ->
  exists b, condition_holds event holdings c = Ok b.
Proof.
  unfold safe_condition, condition_holds.
  destruct (op c).
  - eauto.
  - destruct (index impact_levels _) as [i|]; [|discriminate].
    destruct (index_value impact_levels _) as [j|]; [|discriminate]. eauto.
  - destruct (value c) as [s|l]; [discriminate|]. intros _.
    destruct (dget_or event (field c) PNone); eauto.
    destruct (_ && _); [eauto|]. rewrite any_in_value_list. eauto.
Qed.

Lemma all_hold_total event holdings cs :
  forallb (safe_condition event) cs = true ->
  exists b, all_hold event holdings cs = Ok b.
Proof.
  induction cs as [|c cs IH]; cbn [forallb all_hold]; [eauto|].
  intros H. apply andb_prop in H as [Hc Hcs].
  destruct (condition_holds_total event holdings c Hc) as [b ->].
  destruct b; [apply IH, Hcs | eauto].
Qed.

(** The loop adds the bonus of every matching rule, provided no rule
    raises. *)
Lemma bonus_loop_sum event holdings rules :
  forallb (safe_rule event) rules = true ->
  forall total,
    bonus_loop event holdings rules total
    = Ok (total + matched_bonus event holdings rules)%Z.
Proof.
  unfold matched_bonus.
  induction rules as [|r rules IH];
    cbn [forallb bonus_loop List.filter List.map fold_right]; intros H total.
  - f_equal. lia.
  - apply andb_prop in H as [Hr Hrules].
    destruct (all_hold_total event holdings _ Hr) as [b Hb].
    unfold rule_fires at 1. unfold _matches_rule at 1 2. rewrite Hb.
    destruct b; cbn [List.map fold_right]; rewrite (IH Hrules); f_equal; lia.
Qed.

(** Every rule of the table is safe on the dict of a well-formed event. *)
Lemma rules_safe_on_events e :
  forallb (safe_rule (encode e)) _load_priority_rules = true.
Proof.
  destruct e as [ce il th aa cf ts]. destruct il; vm_compute; reflexivity.
Qed.

Lemma apply_priority_rules_encode e holdings :
  _apply_priority_rules (encode e) holdings
  = Ok (matched_bonus (encode e) holdings _load_priority_rules).
Proof.
  unfold _apply_priority_rules.
  rewrite (bonus_loop_sum _ _ _ (rules_safe_on_events e)). reflexivity.
Qed.

Lemma matched_bonus_nonneg event holdings :
  (0 <= matched_bonus event holdings _load_priority_rules)%Z.
Proof.
  unfold matched_bonus.
  assert (H : Forall (fun r => (0 <= score r)%Z) _load_priority_rules)
    by (repeat constructor; cbn; lia).
  revert H. generalize _load_priority_rules. intros rules H.
  induction H as [|r rules Hr _ IH]; cbn [List.filter List.map fold_right]; [lia|].
  destruct (rule_fires event holdings r); cbn [List.map fold_right]; lia.
Qed.

(** *** The score of a well-formed event *)

Lemma table_get_impact i :
  table_get impact_scores (PStr (impact_text i)) 10 = Ok (impact_points i).
Proof. destruct i; vm_compute; reflexivity. Qed.

Lemma table_get_horizon h :
  table_get time_scores (PStr (horizon_text h)) 15 = Ok (horizon_points h).
Proof. destruct h; vm_compute; reflexivity. Qed.

Lemma clamp_Fin q : PrioritySystem.clamp (Fin q) = Fin (clampQ q).
Proof.
  unfold PrioritySystem.clamp, clampQ, of_Z. cbn [flt].
  change (inject_Z 100) with 100%Q. change (inject_Z 0) with 0%Q.
  destruct (Qlt_bool q 100); cbn [flt]; destruct (Qlt_bool 0 _); reflexivity.
Qed.

(** The code never raises on the dict of a well-formed event, and its
    result is the formula with the tables' entries. *)
Lemma score_encode clk e holdings :
  calculate_priority_score clk (encode e) holdings
  = Ok (Fin (clampQ
      ((inject_Z (0 + impact_points (impact_level e)
                    + horizon_points (time_horizon e)) * confidence e
        + inject_Z (matched_bonus (encode e) holdings _load_priority_rules))
       * _calculate_time_penalty clk (encode e)))).
Proof.
  unfold calculate_priority_score, dget_or.
  rewrite encode_impact_level, encode_time_horizon, encode_confidence.
  rewrite table_get_impact, table_get_horizon.
  cbn [times as_number fmul of_Z].
  rewrite apply_priority_rules_encode.
  cbn [fadd fmul of_Z]. rewrite clamp_Fin. reflexivity.
Qed.

Lemma Qlt_bool_true x y : Qlt_bool x y = true -> (x < y)%Q.
Proof.
  unfold Qlt_bool. intros H. apply negb_true_iff in H.
  apply Qnot_le_lt. intros Hle. apply Qle_bool_iff in Hle. congruence.
Qed.

Lemma Qlt_bool_false x y : Qlt_bool x y = false -> (y <= x)%Q.
Proof.
  unfold Qlt_bool. intros H. apply negb_false_iff in H.
  apply Qle_bool_iff. exact H.
Qed.

(** Case analysis on a comparison of the code. *)
Ltac case_Qlt :=
  match goal with
  | |- context [Qlt_bool ?a ?b] =>
    lazymatch b with context [Qlt_bool _ _] => fail | _ => idtac end;
    let E := fresh "E" in
    destruct (Qlt_bool a b) eqn:E;
    [apply Qlt_bool_true in E | apply Qlt_bool_false in E]
  end.



(** *** The rules of the code and the rules of the formula *)










(** *** The decay of the code and the decay of the formula *)




(** Both come to 84, below the cap. *)
Example earnings_event_scores_84 :
  exists q,
    calculate_priority_score october_clock (encode earnings_event) None = Ok (Fin q)
    /\ (q == 84)%Q
    /\ (Spec.priority_score october_calendar earnings_event None == 84)%Q.
Proof. eexists. split; [vm_compute; reflexivity|]. split; reflexivity. Qed.


(** It fails as well on a timestamp with a time zone: the formula decays by
    the two hours that have passed, to 28; in the code the subtraction from
    [datetime.now()] raises and the result is that of an unparseable
    timestamp, 24.5. *)
Example zoned_timestamp_counts_as_unparseable :
  exists q,
    calculate_priority_score october_clock (encode (routine_event (Some evening_utc)))
      None = Ok (Fin q)
    /\ (q == 49 # 2)%Q
    /\ (Spec.priority_score october_calendar (routine_event (Some evening_utc)) None
        == 28)%Q.
Proof. eexists. split; [vm_compute; reflexivity|]. split; reflexivity. Qed.

(** *** Confidence *)

(** No rule reads the confidence: the bonus does not depend on it. *)
Lemma matched_bonus_confidence e c holdings :
  matched_bonus (encode (with_confidence e c)) holdings _load_priority_rules
  = matched_bonus (encode e) holdings _load_priority_rules.
Proof. destruct e as [ce il th aa cf ts]. vm_compute. reflexivity. Qed.

Lemma time_penalty_confidence clk e c :
  _calculate_time_penalty clk (encode (with_confidence e c))
  = _calculate_time_penalty clk (encode e).
Proof.
  unfold _calculate_time_penalty. rewrite !encode_timestamp. reflexivity.
Qed.

Lemma time_penalty_positive clk event : (0 < _calculate_time_penalty clk event)%Q.
Proof.
  unfold _calculate_time_penalty.
  destruct (dget event (str "timestamp")) as [t|]; [|reflexivity].
  destruct (negb (truthy t)); [reflexivity|].
  destruct (elapsed_hours clk t) as [h|]; [|reflexivity].
  repeat match goal with |- context [Qle_bool ?a ?b] => destruct (Qle_bool a b) end;
    reflexivity.
Qed.

Lemma clampQ_strict x y :
  (0 < x)%Q -> (x < y)%Q ->
  (clampQ x <= clampQ y)%Q /\ ((clampQ x < clampQ y)%Q <-> (clampQ x < 100)%Q).
Proof.
  intros Hx Hxy. unfold clampQ.
  repeat case_Qlt; (split; [lra | split; intros; lra]).
Qed.

(** C6, as amended.  Of two events that differ in confidence only, 0.9
    against 0.2, the first never scores lower, and it scores strictly
    higher exactly when the second scores below the cap of 100. *)
Theorem higher_confidence_scores_higher_below_cap clk e holdings :
  exists a b,
    calculate_priority_score clk (encode (with_confidence e (9 # 10))) holdings
    = Ok (Fin a)
    /\ calculate_priority_score clk (encode (with_confidence e (2 # 10))) holdings
       = Ok (Fin b)
    /\ (b <= a)%Q /\ ((b < a)%Q <-> (b < 100)%Q).
Proof.
  do 2 eexists. split; [apply score_encode|]. split; [apply score_encode|].
  rewrite !matched_bonus_confidence, !time_penalty_confidence.
  cbn [with_confidence impact_level time_horizon confidence].
  pose proof (time_penalty_positive clk (encode e)) as Hd.
  pose proof (matched_bonus_nonneg (encode e) holdings) as HB.
  revert Hd HB. generalize (_calculate_time_penalty clk (encode e)).
  generalize (matched_bonus (encode e) holdings _load_priority_rules).
  intros B d Hd HB.
  assert (HBq : (0 <= inject_Z B)%Q).
  { change 0%Q with (inject_Z 0). rewrite <- Zle_Qle. exact HB. }
  revert HBq. generalize (inject_Z B). intros Bq HBq.
  assert (HBd : (0 <= Bq * d)%Q) by (apply Qmult_le_0_compat; lra).
  apply clampQ_strict;
    destruct (impact_level e), (time_horizon e);
    cbn [impact_points horizon_points Z.add];
    match goal with
    | |- context [inject_Z ?z] =>
      let q := eval vm_compute in (inject_Z z) in change (inject_Z z) with q
    end; nra.
Qed.

(** C6 fails as stated: a high-impact short-horizon event earns the rule
    bonus of 100, so with confidence 0.9 and with confidence 0.2 the score
    is the cap, 100 in both cases. *)
Lemma confidence_hidden_by_cap :
  calculate_priority_score no_clock
    (encode (with_confidence urgent_event (9 # 10))) None = Ok (Fin 100)
  /\ calculate_priority_score no_clock
       (encode (with_confidence urgent_event (2 # 10))) None = Ok (Fin 100).
Proof. split; vm_compute; reflexivity. Qed.

End PriorityFacts.

(** ** The quality gate *)

Section QualityFacts.
Import Py QualityAssurance Aux.

(** C9, as amended.  For a record whose [core_event] is a text, whose
    [impact_level] and [time_horizon] are present and in their
    enumerations and whose [confidence] is a number in [0,1], the
    validation returns no complaint exactly when the length of
    [core_event] is strictly between 5 and 500. *)
Theorem validate_single_event_length (event : pydict) s il th c f :
  dget event (str "core_event") = Some (PStr s) ->
  dget event (str "impact_level") = Some il ->
  in_strs il levels = true ->
  dget event (str "time_horizon") = Some th ->
  in_strs th horizons = true ->
  dget event (str "confidence") = Some c ->
  as_number c = Some f ->
  fle (of_Z 0) f && fle f (of_Z 1) = true ->
  exists errors,
    _validate_single_event event event_extraction = Ok errors
    /\ (errors = [] <-> 5 < length s < 500).
Proof.
  intros Hce Hil Hilv Hth Hthv Hc Hcn Hcv.
  unfold _validate_single_event, event_extraction.
  cbn [required_fields field_validators content_validators
       check_required check_fields check_content flat_map].
  unfold dhas, core_event_len, dget_or, unit_interval.
  rewrite Hce, Hil, Hth, Hc.
  change (in_strs il [str "low"; str "medium"; str "high"]) with (in_strs il levels).
  change (in_strs th [str "short"; str "mid"; str "long"]) with (in_strs th horizons).
  rewrite Hilv, Hthv, Hcn, Hcv. cbn [py_len app].
  eexists. split; [reflexivity|].
  destruct (Nat.ltb_spec 5 (length s)); destruct (Nat.ltb_spec (length s) 500);
    (split; [intros Hnil; try discriminate Hnil; lia | intros; try reflexivity; lia]).
Qed.

Lemma validate_single_event_length_witness :
  exists errors,
    _validate_single_event (record_with (str "rates cut")) event_extraction
    = Ok errors
    /\ (errors = [] <-> 5 < length (str "rates cut") < 500).
Proof.
  apply (validate_single_event_length (record_with (str "rates cut"))
           (str "rates cut") (PStr (str "high")) (PStr (str "short"))
           (PFloat (Fin (9 # 10))) (Fin (9 # 10)));
    reflexivity.
Defined.

(** C9 fails as stated: a [core_event] of exactly 5 characters, and one of
    exactly 500, fail the content check although every other field is
    valid. *)
Lemma validate_single_event_bounds_excluded :
  length (str "abcde") = 5
  /\ _validate_single_event (record_with (str "abcde")) event_extraction
     = Ok [ContentFailed]
  /\ length (repeat 97%N 500) = 500
  /\ _validate_single_event (record_with (repeat 97%N 500)) event_extraction
     = Ok [ContentFailed].
Proof. repeat split; vm_compute; reflexivity. Qed.

(** C10.  On an empty collection the gate answers [False] with an empty
    list of errors: the ratio is taken to be 0, below the threshold. *)
Theorem validate_event_extraction_empty qa now :
  fst (validate_event_extraction qa now []) = Ok (false, []).
Proof. reflexivity. Qed.

End QualityFacts.

(** ** Batch extraction and the per-item fallback *)

Section ExtractionFacts.
Import Py News EventExtractionAgent OptimizedInvestmentSystem Aux.

Variable llm_call : oracle.
Variable rl : nat.

(** An object that holds the four required fields is not empty. *)
Lemma required_fields_truthy x :
  all_in required_output_fields x = Ok true -> truthy x = true.
Proof.
  unfold required_output_fields. cbn [all_in].
  destruct x as [| | | |s|l|d]; cbn [py_in]; try discriminate.
  - destruct s; [vm_compute; discriminate | reflexivity].
  - destruct l; [cbn [existsb]; discriminate | reflexivity].
  - destruct d; [cbn [dhas dget]; discriminate | reflexivity].
Qed.

Lemma parse_single_truthy response event :
  _parse_single_response rl response = Ok event -> truthy event = true.
Proof.
  unfold _parse_single_response.
  destruct (Json.loads rl _) as [event_data|]; [|discriminate].
  destruct (all_in required_output_fields event_data) as [[|]|] eqn:E;
    try discriminate.
  intros [= <-]. apply required_fields_truthy, E.
Qed.

(** The round of the loop for one item: exactly one event, and one call of
    the oracle. *)
Lemma fallback_step_one m news :
  exists m',
    fallback_step llm_call rl m news
    = ([single_event llm_call rl (oracle_calls m) news], m')
    /\ oracle_calls m' = S (oracle_calls m).
Proof.
  unfold fallback_step, process, _process_single, extract_single_event, single_event.
  cbn [length Nat.ltb Nat.leb].
  destruct (llm_call (oracle_calls m) (single_prompt news)) as [response|e].
  - destruct (_parse_single_response rl response) as [event|e] eqn:E.
    + rewrite (parse_single_truthy _ _ E). cbn [py_iter dget_or dget].
      eexists. split; [reflexivity|]. reflexivity.
    + eexists. split; [reflexivity|]. reflexivity.
  - eexists. split; [reflexivity|]. reflexivity.
Qed.

Lemma fallback_events m news_batch :
  exists m',
    _fallback_single_processing llm_call rl m news_batch
    = (single_events llm_call rl (oracle_calls m) news_batch, m')
    /\ oracle_calls m' = oracle_calls m + length news_batch.
Proof.
  revert m. induction news_batch as [|news rest IH]; intros m.
  - exists m. split; [reflexivity|]. cbn [length]. lia.
  - cbn [_fallback_single_processing single_events].
    destruct (fallback_step_one m news) as (m1 & -> & H1).
    destruct (IH m1) as (m2 & -> & H2). rewrite H1.
    exists m2. split; [reflexivity|]. cbn [length]. lia.
Qed.

Lemma single_events_length k news_batch :
  length (single_events llm_call rl k news_batch) = length news_batch.
Proof.
  revert k. induction news_batch as [|news rest IH]; intros k; cbn; [|rewrite IH]; reflexivity.
Qed.

(** The placeholder of the agent: the headline of the item, the level of
    its keywords, the confidence 0.5. *)
Lemma agent_placeholder news :
  Spec.placeholder (Spec.headline news) (Spec.keyword_level news) (1 # 2)
    (EventExtractionAgent._create_default_event news).
Proof.
  unfold EventExtractionAgent._create_default_event, Spec.keyword_level,
    Spec.headline, Spec.excerpt.
  do 2 eexists. split; [reflexivity|].
  split; [|split; [|repeat split; reflexivity]].
  - destruct (title news) as [[|c t]|]; reflexivity.
  - assert (Hhigh : any_in high_impact_words
                      (lower (text_or [] (title news) ++ text_or [] (content news)))
                    = existsb (fun keyword =>
                                 contains keyword
                                   (lower (text_or [] (title news)
                                           ++ text_or [] (content news))))
                        Spec.high_impact_keywords) by reflexivity.
    assert (Hlow : any_in low_impact_words
                     (lower (text_or [] (title news) ++ text_or [] (content news)))
                   = existsb (fun keyword =>
                                contains keyword
                                  (lower (text_or [] (title news)
                                          ++ text_or [] (content news))))
                       Spec.low_impact_keywords) by reflexivity.
    rewrite Hhigh, Hlow.
    destruct (existsb _ Spec.high_impact_keywords); [reflexivity|].
    destruct (existsb _ Spec.low_impact_keywords); reflexivity.
Qed.

(** The placeholder of the engine: the excerpt of the content, the level
    low, the confidence 0.3. *)
Lemma engine_placeholder news :
  Spec.placeholder (Spec.excerpt news) Spec.Low (3 # 10)
    (OptimizedInvestmentSystem._create_default_event news).
Proof.
  unfold OptimizedInvestmentSystem._create_default_event.
  do 2 eexists. repeat split; reflexivity.
Qed.

Lemma single_event_settled k news :
  settled llm_call rl k news (single_event llm_call rl k news).
Proof.
  unfold settled, single_event.
  destruct (llm_call k (single_prompt news)) as [response|];
    [|apply engine_placeholder].
  destruct (_parse_single_response rl response); [reflexivity|].
  apply agent_placeholder.
Qed.

Lemma single_events_settled news_batch : forall k i news,
  news_batch !! i = Some news ->
  exists event,
    single_events llm_call rl k news_batch !! i = Some event
    /\ settled llm_call rl (k + i) news event.
Proof.
  induction news_batch as [|x rest IH]; intros k i news; [discriminate|].
  cbn [single_events]. destruct i as [|i]; cbn [lookup list_lookup].
  - intros [= <-]. eexists. split; [reflexivity|].
    rewrite Nat.add_0_r. apply single_event_settled.
  - intros H. destruct (IH (S k) i news H) as (event & Hev & Hs).
    exists event. split; [exact Hev|].
    replace (k + S i) with (S k + i) by lia. exact Hs.
Qed.

(** C2, as amended.  When the batch fails, every item is processed on its
    own and yields exactly one event, in the order of the items: the result
    has as many events as the batch has items.  The event of an item is the
    one decoded from its answer; when the answer cannot be used it is a
    placeholder with the headline of the item, the level of its keywords
    and the confidence 0.5; when the call fails it is a placeholder with
    the excerpt of the content, the level low and the confidence 0.3.  The
    oracle is called once for the batch and once per item. *)
Theorem batch_failure_one_event_per_item m news_batch :
  news_batch <> [] ->
  batch_fails llm_call rl m news_batch ->
  exists events m',
    _process_news_batch llm_call rl m news_batch = (PList events, m')
    /\ length events = length news_batch
    /\ (forall i news,
          news_batch !! i = Some news ->
          exists event,
            events !! i = Some event
            /\ settled llm_call rl (S (oracle_calls m) + i) news event)
    /\ oracle_calls m' = oracle_calls m + 1 + length news_batch.
Proof.
  intros Hne Hfail. unfold batch_fails in Hfail. unfold _process_news_batch.
  destruct news_batch as [|news rest]; [contradiction|].
  destruct (fallback_events (called m) (news :: rest)) as (m' & Hfb & Hcalls).
  cbn [called oracle_calls] in Hfb, Hcalls.
  assert (Hgoal :
    exists events m'0,
      (let (events0, m'1) :=
         _fallback_single_processing llm_call rl (called m) (news :: rest) in
       (PList events0, m'1)) = (PList events, m'0)
      /\ length events = length (news :: rest)
      /\ (forall i news0,
            (news :: rest) !! i = Some news0 ->
            exists event,
              events !! i = Some event
              /\ settled llm_call rl (S (oracle_calls m) + i) news0 event)
      /\ oracle_calls m'0 = oracle_calls m + 1 + length (news :: rest)).
  { rewrite Hfb. do 2 eexists. split; [reflexivity|].
    split; [apply single_events_length|].
    split; [apply single_events_settled|]. lia. }
  destruct (llm_call (oracle_calls m) (_build_batch_prompt (news :: rest)))
    as [response|e]; [|exact Hgoal].
  destruct (_parse_batch_response rl response (news :: rest)); [discriminate|].
  exact Hgoal.
Qed.

(** *** Reconciliation of a decoded answer *)

Lemma annotate_element original_news e :
  is_element e = true -> annotate original_news e = Ok (matched original_news e).
Proof.
  unfold is_element, annotate, matched, element_index, dget_or.
  destruct e as [| | | | | |d]; try discriminate.
  destruct (dget d (str "news_index")) as [[| b | z | | | |]|]; try discriminate;
    intros _; cbn [minus_one in_range];
    match goal with
    | |- context [(0 <=? ?i)%Z] =>
      destruct (Z.leb_spec 0 i) as [Hlo|Hlo]; cbn [andb]; [|reflexivity];
      destruct (Z.ltb_spec i (Z.of_nat (length original_news))) as [Hhi|Hhi];
      [destruct (lookup_lt_is_Some_2 original_news (Z.to_nat i)) as [item ->];
       [lia | reflexivity]
      |rewrite (lookup_ge_None_2 original_news (Z.to_nat i)) by lia; reflexivity]
    end.
Qed.

Lemma annotate_all_elements original_news events :
  forallb is_element events = true ->
  annotate_all original_news events = Ok (map (matched original_news) events).
Proof.
  induction events as [|e rest IH]; cbn [forallb annotate_all map]; [reflexivity|].
  intros H. apply andb_prop in H as [He Hrest].
  rewrite (annotate_element _ _ He), (IH Hrest). reflexivity.
Qed.

(** C8, as amended.  When the answer decodes to an object whose
    [batch_events] is a list of elements, reconciliation succeeds whatever
    the number of elements: the oracle is called once and the fallback is
    not used.  Every element is returned, in order; an element gets the
    provenance of the item that its own [news_index] names (the first item
    when it has none), and is returned unchanged when that names no item.
    Items that no element names get no event. *)
Theorem batch_response_reconciled m news_batch response json_str result events :
  news_batch <> [] ->
  llm_call (oracle_calls m) (_build_batch_prompt news_batch) = Ok response ->
  json_part response = Ok json_str ->
  Json.loads rl json_str = Ok (PDict result) ->
  dget result (str "batch_events") = Some (PList events) ->
  forallb is_element events = true ->
  _process_news_batch llm_call rl m news_batch
  = (PList (map (matched news_batch) events), record_llm_call (called m)).
Proof.
  intros Hne Hllm Hpart Hloads Hget Hel.
  unfold _process_news_batch. destruct news_batch as [|news rest]; [contradiction|].
  rewrite Hllm. unfold _parse_batch_response. rewrite Hpart, Hloads.
  unfold reconcile, dget_or. rewrite Hget. cbn [py_len].
  rewrite (annotate_all_elements _ _ Hel). reflexivity.
Qed.

End ExtractionFacts.

Section ExtractionExamples.
Import Py News EventExtractionAgent OptimizedInvestmentSystem Aux.

(** The failure scenario of the specification: prose for a batch of five
    items gives five events. *)
Lemma batch_failure_one_event_per_item_witness :
  exists events m',
    _process_news_batch prose_oracle 100 fresh_monitor five_items = (PList events, m')
    /\ length events = length five_items
    /\ (forall i news,
          five_items !! i = Some news ->
          exists event,
            events !! i = Some event
            /\ settled prose_oracle 100 (S (oracle_calls fresh_monitor) + i) news
                 event)
    /\ oracle_calls m' = oracle_calls fresh_monitor + 1 + length five_items.
Proof.
  apply (batch_failure_one_event_per_item prose_oracle 100 fresh_monitor five_items);
    [discriminate | vm_compute; reflexivity].
Defined.

(** C2 fails as stated: in that scenario the five events are placeholders,
    and their confidence is 0.5, which is not low. *)
Lemma fallback_placeholder_is_not_low_confidence :
  exists events,
    fst (_process_news_batch prose_oracle 100 fresh_monitor five_items)
    = PList events
    /\ Forall2 (fun news event =>
                  Spec.placeholder (Spec.headline news) Spec.Medium (1 # 2) event)
         five_items events
    /\ ~ Spec.low_confidence (1 # 2).
Proof.
  eexists. split; [vm_compute; reflexivity|]. split.
  - repeat constructor; do 2 eexists; repeat split; reflexivity.
  - unfold Spec.low_confidence. intros H. discriminate H.
Qed.

Lemma batch_response_reconciled_witness :
  _process_news_batch two_elements_oracle 100 fresh_monitor five_items
  = (PList (map (matched five_items)
              [PDict [(str "news_index", PInt 1)];
               PDict [(str "news_index", PInt 2)]]),
     record_llm_call (called fresh_monitor)).
Proof.
  apply (batch_response_reconciled two_elements_oracle 100 fresh_monitor five_items
           two_elements two_elements
           [(str "batch_events",
             PList [PDict [(str "news_index", PInt 1)];
                    PDict [(str "news_index", PInt 2)]])]);
    [discriminate | reflexivity | vm_compute; reflexivity
    | vm_compute; reflexivity | reflexivity | reflexivity].
Defined.

(** C8 fails as stated: with one item and two elements in the answer, both
    elements are returned; the second, which names no item, is not
    ignored. *)
Lemma extra_elements_are_returned :
  fst (_process_news_batch two_elements_oracle 100 fresh_monitor
         [item_with "a" "news.txt" 1])
  = PList [PDict [(str "news_index", PInt 1);
                  (str "source_file", PStr (str "news.txt"));
                  (str "source_line", PInt 1);
                  (str "original_timestamp", PNone);
                  (str "original_category", PNone)];
           PDict [(str "news_index", PInt 2)]].
Proof. vm_compute. reflexivity. Qed.

End ExtractionExamples.

(** ** Deduplication *)

Section DedupFacts.
Import Py News OptimizedInvestmentSystem Spec Aux.

Variable md5 : pystr -> pystr.

Lemma str_eqb_true a b : str_eqb a b = true <-> a = b.
Proof. unfold str_eqb. apply bool_decide_eq_true. Qed.

Lemma id_seen_iff x ids :
  id_seen (item_id x) ids = true
  <-> exists i, declared_id x = Some i /\ i ∈ ids.
Proof.
  unfold id_seen, declared_id. destruct (item_id x) as [i|].
  - destruct (is_empty i); cbn [negb andb].
    + split; [discriminate | intros (j & [=] & _)].
    + rewrite bool_decide_eq_true. split.
      * intros H. exists i. auto.
      * intros (j & [= <-] & H). exact H.
  - split; [discriminate | intros (j & [=] & _)].
Qed.

Lemma duplicates_iff x y :
  duplicates md5 x y = true
  <-> (exists i, declared_id x = Some i /\ declared_id y = Some i)
      \/ content_hash md5 x = content_hash md5 y.
Proof.
  unfold duplicates, content_hash, _get_content_hash.
  rewrite orb_true_iff, (str_eqb_true (md5 _)).
  destruct (declared_id x) as [i|], (declared_id y) as [j|].
  - rewrite str_eqb_true. split; (intros [H|H]; [left | right; exact H]).
    + exists i. subst j. auto.
    + destruct H as (k & [= ->] & [= ->]). reflexivity.
  - split; (intros [H|H]; [exfalso | right; exact H]);
      [discriminate H | destruct H as (k & _ & H); discriminate H].
  - split; (intros [H|H]; [exfalso | right; exact H]);
      [discriminate H | destruct H as (k & H & _); discriminate H].
  - split; (intros [H|H]; [exfalso | right; exact H]);
      [discriminate H | destruct H as (k & H & _); discriminate H].
Qed.

(** The two set lookups of the loop decide whether the item duplicates a
    kept item. *)
Lemma seen_is_duplicate kept st x :
  aligned md5 kept st ->
  id_seen (item_id x) (processed_ids st)
  || bool_decide (content_hash md5 x ∈ processed_hashes st)
  = existsb (duplicates md5 x) kept.
Proof.
  intros (_ & Hids & Hhashes & _). apply eq_true_iff_eq.
  rewrite orb_true_iff, existsb_exists, id_seen_iff, bool_decide_eq_true.
  split.
  - intros [(i & Hx & Hi) | Hh].
    + apply Hids in Hi as (y & Hy & Hyi). exists y.
      split; [apply list_elem_of_In, Hy|]. apply duplicates_iff. left. eauto.
    + apply Hhashes in Hh as (y & Hy & Hyh). exists y.
      split; [apply list_elem_of_In, Hy|]. apply duplicates_iff. right. congruence.
  - intros (y & Hy & Hd). apply list_elem_of_In in Hy.
    apply duplicates_iff in Hd as [(i & Hx & Hyi) | Hh].
    + left. exists i. split; [exact Hx|]. apply Hids. eauto.
    + right. apply Hhashes. exists y. split; [exact Hy | congruence].
Qed.

Lemma aligned_start : aligned md5 [] scan_start.
Proof.
  unfold aligned, scan_start. cbn. split; [reflexivity|].
  split; [|split; [|reflexivity]]; intros z; split;
    try (intros H; apply not_elem_of_empty in H; contradiction);
    intros (y & Hy & _); apply not_elem_of_nil in Hy; contradiction.
Qed.

Lemma aligned_duplicate kept st :
  aligned md5 kept st -> aligned md5 kept (count_duplicate st).
Proof.
  intros (H1 & H2 & H3 & H4). unfold aligned, count_duplicate. cbn.
  repeat split; try apply H2; try apply H3; auto; lia.
Qed.

Lemma add_id_iff x ids i :
  i ∈ add_id (item_id x) ids <-> declared_id x = Some i \/ i ∈ ids.
Proof.
  unfold add_id, declared_id. destruct (item_id x) as [j|].
  - destruct (is_empty j); cbn [negb].
    + split; [auto | intros [[=]|H]; exact H].
    + rewrite elem_of_union, elem_of_singleton. split.
      * intros [->|H]; auto.
      * intros [[= ->]|H]; auto.
  - split; [auto | intros [[=]|H]; exact H].
Qed.

Lemma aligned_keep kept st x :
  aligned md5 kept st -> aligned md5 (kept ++ [x]) (keep md5 x st).
Proof.
  intros (H1 & H2 & H3 & H4). unfold aligned, keep. cbn.
  split; [rewrite H1; reflexivity|].
  split; [|split].
  - intros i. rewrite add_id_iff, H2. split.
    + intros [Hx | (y & Hy & Hyi)].
      * exists x. split; [apply elem_of_app; right; apply list_elem_of_singleton; reflexivity | exact Hx].
      * exists y. split; [apply elem_of_app; left; exact Hy | exact Hyi].
    + intros (y & Hy & Hyi). apply elem_of_app in Hy as [Hy|Hy].
      * right. eauto.
      * apply list_elem_of_singleton in Hy. subst y. left. exact Hyi.
  - intros h. rewrite elem_of_union, elem_of_singleton, H3. split.
    + intros [-> | (y & Hy & Hyh)].
      * exists x. split; [apply elem_of_app; right; apply list_elem_of_singleton; reflexivity | reflexivity].
      * exists y. split; [apply elem_of_app; left; exact Hy | exact Hyh].
    + intros (y & Hy & Hyh). apply elem_of_app in Hy as [Hy|Hy].
      * right. eauto.
      * apply list_elem_of_singleton in Hy. subst y. left. congruence.
  - rewrite length_app. cbn [length]. lia.
Qed.

Lemma uniques_extends kept items :
  exists more, uniques md5 kept items = kept ++ more.
Proof.
  revert kept. induction items as [|x rest IH]; intros kept; cbn [uniques].
  - exists []. rewrite app_nil_r. reflexivity.
  - destruct (existsb (duplicates md5 x) kept); [apply IH|].
    destruct (IH (kept ++ [x])) as [more ->]. exists (x :: more).
    rewrite <- app_assoc. reflexivity.
Qed.

Lemma take_uniques_full kept items :
  take (length kept) (uniques md5 kept items) = kept.
Proof.
  destruct (uniques_extends kept items) as [more ->]. apply take_app_length.
Qed.

Lemma first_occurrences_nil : first_occurrences md5 [].
Proof. intros [|? ?] x after H; discriminate H. Qed.

Lemma first_occurrences_snoc kept x :
  first_occurrences md5 kept ->
  existsb (duplicates md5 x) kept = false ->
  first_occurrences md5 (kept ++ [x]).
Proof.
  intros Hkept Hx before y after H.
  destruct after as [|a after0] using rev_ind.
  - apply app_inj_tail in H as [-> ->]. exact Hx.
  - clear IHafter0. rewrite app_comm_cons, app_assoc in H.
    apply app_inj_tail in H as [H _]. apply (Hkept _ _ _ H).
Qed.

Lemma uniques_first_occurrences items :
  forall kept,
    first_occurrences md5 kept -> first_occurrences md5 (uniques md5 kept items).
Proof.
  induction items as [|x rest IH]; intros kept Hkept; cbn [uniques]; [exact Hkept|].
  destruct (existsb (duplicates md5 x) kept) eqn:E; [apply IH, Hkept|].
  apply IH, first_occurrences_snoc; assumption.
Qed.

Lemma first_occurrences_take n l :
  first_occurrences md5 l -> first_occurrences md5 (take n l).
Proof.
  intros Hl before x after H. apply (Hl before x (after ++ drop n l)).
  rewrite <- (take_drop n l) at 1. rewrite H, <- app_assoc. reflexivity.
Qed.

(** The loop, started on a state that agrees with [kept] and has room for
    more: it collects the first [size] unique items, and stops with the
    item that completes them. *)
Lemma scan_loop_spec size generator :
  forall kept st,
    aligned md5 kept st ->
    length kept < Z.to_nat size ->
    let st' := scan_loop md5 size generator st in
    all_news st' = take (Z.to_nat size) (uniques md5 kept generator)
    /\ news_count st' = duplicate_count st' + length (all_news st')
    /\ exists scanned rest,
         generator = scanned ++ rest
         /\ news_count st' = news_count st + length scanned
         /\ all_news st' = uniques md5 kept scanned
         /\ (rest = [] \/ length (all_news st') = Z.to_nat size)
         /\ (length (all_news st') = Z.to_nat size ->
             exists before x,
               scanned = before ++ [x]
               /\ all_news st' = uniques md5 kept before ++ [x]).
Proof.
  induction generator as [|news rest IH]; intros kept st Hal Hroom.
  - cbn [scan_loop uniques]. destruct Hal as (H1 & _ & _ & H4).
    split; [rewrite H1, take_ge by lia; reflexivity|].
    split; [rewrite H1; exact H4|].
    exists [], []. rewrite H1. cbn [length uniques app].
    repeat split; auto; try lia.
  - cbn [scan_loop uniques].
    pose proof (seen_is_duplicate kept st news Hal) as Hseen.
    assert (Hskip :
      existsb (duplicates md5 news) kept = true ->
      let st' := scan_loop md5 size rest (count_duplicate st) in
      all_news st' = take (Z.to_nat size) (uniques md5 kept rest)
      /\ news_count st' = duplicate_count st' + length (all_news st')
      /\ exists scanned rest0,
           news :: rest = scanned ++ rest0
           /\ news_count st' = news_count st + length scanned
           /\ all_news st' = uniques md5 kept scanned
           /\ (rest0 = [] \/ length (all_news st') = Z.to_nat size)
           /\ (length (all_news st') = Z.to_nat size ->
               exists before x,
                 scanned = before ++ [x]
                 /\ all_news st' = uniques md5 kept before ++ [x])).
    { intros Hdup.
      destruct (IH kept (count_duplicate st) (aligned_duplicate _ _ Hal) Hroom)
        as (Ha & Hb & scanned & rest0 & -> & Hc & Hd & He & Hf).
      split; [exact Ha|]. split; [exact Hb|].
      exists (news :: scanned), rest0. cbn [uniques length app]. rewrite Hdup.
      split; [reflexivity|]. split; [rewrite Hc; cbn; lia|].
      split; [exact Hd|]. split; [exact He|].
      intros Hfull. destruct (Hf Hfull) as (before & x & -> & Hx).
      exists (news :: before), x. cbn [uniques app]. rewrite Hdup. auto. }
    destruct (id_seen (item_id news) (processed_ids st)).
    { rewrite <- Hseen. apply Hskip. rewrite <- Hseen. reflexivity. }
    destruct (bool_decide (content_hash md5 news ∈ processed_hashes st)).
    { rewrite <- Hseen. apply Hskip. rewrite <- Hseen. reflexivity. }
    cbn [orb] in Hseen. rewrite <- Hseen.
    pose proof (aligned_keep kept st news Hal) as Hal'.
    assert (Hnews : all_news (keep md5 news st) = kept ++ [news])
      by (destruct Hal' as (H1 & _); exact H1).
    rewrite Hnews, length_app. cbn [length].
    destruct (Z.leb_spec size (Z.of_nat (length kept + 1))) as [Hfull|Hmore].
    + assert (Hn : Z.to_nat size = length (kept ++ [news]))
        by (rewrite length_app; cbn [length]; lia).
      split; [rewrite Hnews, Hn, take_uniques_full; reflexivity|].
      split; [destruct Hal' as (H1 & _ & _ & H4); rewrite H1; exact H4|].
      exists [news], rest. cbn [uniques app length]. rewrite <- Hseen.
      split; [reflexivity|]. split; [cbn; lia|].
      split; [exact Hnews|]. split; [right; rewrite Hnews; auto|].
      intros _. exists [], news. cbn [uniques app]. auto.
    + assert (Hroom' : length (kept ++ [news]) < Z.to_nat size)
        by (rewrite length_app; cbn [length]; lia).
      destruct (IH (kept ++ [news]) (keep md5 news st) Hal' Hroom')
        as (Ha & Hb & scanned & rest0 & -> & Hc & Hd & He & Hf).
      split; [exact Ha|]. split; [exact Hb|].
      exists (news :: scanned), rest0. cbn [uniques length app]. rewrite <- Hseen.
      split; [reflexivity|]. split; [rewrite Hc; cbn; lia|].
      split; [exact Hd|]. split; [exact He|].
      intros Hlen. destruct (Hf Hlen) as (before & x & -> & Hx).
      exists (news :: before), x. cbn [uniques app]. rewrite <- Hseen. auto.
Qed.

(** C4, as amended.  For a target count of at least 1, the items collected
    are the first [size] items of the deduplicated sequence, none of them
    a duplicate of one before it; the scan covers a prefix of the source,
    stops early only when the count is reached, and then stops at the item
    that completes it; scanned = duplicates + unique. *)
Theorem load_news_batch_deduplicates size generator :
  (1 <= size)%Z ->
  let st := _load_news_batch md5 size generator in
  all_news st = take (Z.to_nat size) (deduplicate md5 generator)
  /\ first_occurrences md5 (all_news st)
  /\ news_count st = duplicate_count st + length (all_news st)
  /\ exists scanned rest,
       generator = scanned ++ rest
       /\ news_count st = length scanned
       /\ all_news st = deduplicate md5 scanned
       /\ (rest = [] \/ length (all_news st) = Z.to_nat size)
       /\ (length (all_news st) = Z.to_nat size ->
           exists before x,
             scanned = before ++ [x]
             /\ all_news st = deduplicate md5 before ++ [x]).
Proof.
  intros Hsize.
  assert (Hroom : @length Item [] < Z.to_nat size) by (cbn [length]; lia).
  destruct (scan_loop_spec size generator [] scan_start aligned_start Hroom)
    as (Ha & Hb & Hc).
  unfold _load_news_batch, deduplicate.
  split; [exact Ha|].
  split; [rewrite Ha; apply first_occurrences_take, uniques_first_occurrences,
          first_occurrences_nil|].
  split; [exact Hb|]. exact Hc.
Qed.

End DedupFacts.

Section DedupExamples.
Import Py News OptimizedInvestmentSystem Spec Aux.

Lemma load_news_batch_deduplicates_witness :
  let st := _load_news_batch (fun c => c) 2 five_items in
  all_news st = take (Z.to_nat 2) (deduplicate (fun c => c) five_items)
  /\ first_occurrences (fun c => c) (all_news st)
  /\ news_count st = duplicate_count st + length (all_news st)
  /\ exists scanned rest,
       five_items = scanned ++ rest
       /\ news_count st = length scanned
       /\ all_news st = deduplicate (fun c => c) scanned
       /\ (rest = [] \/ length (all_news st) = Z.to_nat 2)
       /\ (length (all_news st) = Z.to_nat 2 ->
           exists before x,
             scanned = before ++ [x]
             /\ all_news st = deduplicate (fun c => c) before ++ [x]).
Proof.
  apply (load_news_batch_deduplicates (fun c => c) 2 five_items). lia.
Defined.

(** C4 fails as stated: with a target count of 0 the loop still keeps the
    first item, because it tests the count after appending. *)
Lemma load_news_batch_zero_keeps_one :
  let st := _load_news_batch (fun c => c) 0 five_items in
  all_news st = [item_with "a" "news.txt" 1]
  /\ news_count st = 1
  /\ take (Z.to_nat 0) (deduplicate (fun c => c) five_items) = [].
Proof. vm_compute. repeat split. Qed.

End DedupExamples.

(* ===================================================================== *)
(** * Part III: further properties of the code                            *)
(* ===================================================================== *)

(** Arithmetic on lengths of text: [pystr] and [char] are unfolded first,
    so that the lengths of one list are one term. *)
Ltac len_lia := unfold Py.pystr, Py.char in *; lia.

(** ** The result cache *)

Section SmartCacheMore.
Import Py SmartCache Aux.

Lemma get_set_live c key v ttl (later now : Q) :
  v <> PNone ->
  (now < later + inject_Z (effective_ttl c ttl))%Q ->
  get (set c key v ttl later) key now
  = (v, {| cache := cache (set c key v ttl later);
           default_ttl := default_ttl c;
           stat := count_hit (count_set (stat c)) |}).
Proof.
  intros Hv Hlive. unfold get, set. cbn [cache stat default_ttl].
  rewrite (cache_get_set _ _ _ _ _ _ Hlive), (is_none_false _ Hv). reflexivity.
Qed.

(** X1.  A value other than [None] that was set is read back, and counted as a
    hit, as long as its time to live has not passed. *)
Theorem set_get_round_trip c key v ttl (later now : Q) :
  v <> PNone ->
  (now < later + inject_Z (effective_ttl c ttl))%Q ->
  fst (get (set c key v ttl later) key now) = v
  /\ hits (stat (snd (get (set c key v ttl later) key now))) = S (hits (stat c))
  /\ misses (stat (snd (get (set c key v ttl later) key now))) = misses (stat c).
Proof.
  intros Hv Hlive. rewrite (get_set_live _ _ _ _ _ _ Hv Hlive).
  cbn [fst snd stat count_hit count_set hits misses]. auto.
Qed.

Lemma set_get_round_trip_witness :
  fst (get (set empty_cache (str "k") (PInt 7) (Some 60%Z) 0) (str "k") 59) = PInt 7
  /\ hits (stat (snd (get (set empty_cache (str "k") (PInt 7) (Some 60%Z) 0)
                          (str "k") 59))) = S (hits (stat empty_cache))
  /\ misses (stat (snd (get (set empty_cache (str "k") (PInt 7) (Some 60%Z) 0)
                            (str "k") 59))) = misses (stat empty_cache).
Proof.
  apply (set_get_round_trip empty_cache (str "k") (PInt 7) (Some 60%Z) 0 59);
    [discriminate | reflexivity].
Defined.

(** X2.  Once the time to live has passed, the value is gone: the read returns
    [None] and is counted as a miss. *)
Theorem set_get_expired c key v ttl (later now : Q) :
  (later + inject_Z (effective_ttl c ttl) <= now)%Q ->
  fst (get (set c key v ttl later) key now) = PNone
  /\ misses (stat (snd (get (set c key v ttl later) key now))) = S (misses (stat c)).
Proof.
  intros Hdead. unfold get, set, cache_get, cache_set.
  cbn [cache stat default_ttl fst snd].
  rewrite lookup_insert_eq. unfold live. cbn [expire_time value].
  apply Qle_bool_iff in Hdead. rewrite Hdead. cbn [negb is_none count_miss
    count_set misses]. auto.
Qed.

Lemma set_get_expired_witness :
  fst (get (set empty_cache (str "k") (PInt 7) (Some 60%Z) 0) (str "k") 60) = PNone
  /\ misses (stat (snd (get (set empty_cache (str "k") (PInt 7) (Some 60%Z) 0)
                            (str "k") 60))) = S (misses (stat empty_cache)).
Proof.
  apply (set_get_expired empty_cache (str "k") (PInt 7) (Some 60%Z) 0 60).
  discriminate.
Defined.

(** X3.  A time to live of 0 does not switch the cache off: [ttl or default_ttl]
    replaces it by the default, so the value stays readable until the
    default has passed. *)
Theorem zero_ttl_means_default c key v (later now : Q) :
  v <> PNone ->
  (now < later + inject_Z (default_ttl c))%Q ->
  fst (get (set c key v (Some 0%Z) later) key now) = v.
Proof.
  intros Hv Hlive.
  rewrite (get_set_live c key v (Some 0%Z) later now Hv Hlive). reflexivity.
Qed.

Lemma zero_ttl_means_default_witness :
  fst (get (set empty_cache (str "k") (PInt 7) (Some 0%Z) 0) (str "k") 3599) = PInt 7.
Proof.
  apply (zero_ttl_means_default empty_cache (str "k") (PInt 7) 0 3599);
    [discriminate | reflexivity].
Defined.

(** X4.  The hit ratio lies between 0 and 1, whatever the counters. *)
Theorem hit_ratio_bounds c : (0 <= hit_ratio c <= 1)%Q.
Proof.
  unfold hit_ratio.
  set (h := hits (stat c)). set (n := Nat.max 1 (h + misses (stat c))).
  assert (Hn : (0 < inject_Z (Z.of_nat n))%Q).
  { change 0%Q with (inject_Z 0). rewrite <- Zlt_Qlt. lia. }
  assert (Hh : (0 <= inject_Z (Z.of_nat h))%Q).
  { change 0%Q with (inject_Z 0). rewrite <- Zle_Qle. lia. }
  assert (Hhn : (inject_Z (Z.of_nat h) <= inject_Z (Z.of_nat n))%Q).
  { rewrite <- Zle_Qle. lia. }
  split.
  - apply Qle_shift_div_l; [exact Hn|]. lra.
  - apply Qle_shift_div_r; [exact Hn|]. lra.
Qed.

(** X5.  Clearing the expired rows changes no answer: a read at the time of
    the clearing or later returns what it would have returned anyway. *)
Theorem clear_expired_invisible c key (now later : Q) :
  (now <= later)%Q ->
  fst (get (clear_expired c now) key later) = fst (get c key later).
Proof.
  intros Hle. unfold get, clear_expired, cache_get. cbn [cache fst].
  rewrite map_lookup_filter.
  destruct (cache c !! key) as [r|]; [|reflexivity].
  cbn [option_bind mbind]. cbn [snd].
  destruct (Qle_bool now (expire_time r)) eqn:Hnow.
  - rewrite option_guard_True by reflexivity. reflexivity.
  - rewrite option_guard_False by discriminate. cbn.
    assert (Hlt : (expire_time r < now)%Q).
    { apply Qnot_le_lt. intros H. apply Qle_bool_iff in H. congruence. }
    unfold live.
    assert (Hlater : Qle_bool (expire_time r) later = true).
    { apply Qle_bool_iff. lra. }
    rewrite Hlater. reflexivity.
Qed.

Lemma clear_expired_invisible_witness :
  fst (get (clear_expired (set empty_cache (str "k") (PInt 7) (Some 60%Z) 0) 30)
           (str "k") 45)
  = fst (get (set empty_cache (str "k") (PInt 7) (Some 60%Z) 0) (str "k") 45).
Proof.
  apply (clear_expired_invisible
           (set empty_cache (str "k") (PInt 7) (Some 60%Z) 0) (str "k") 30 45).
  discriminate.
Defined.

End SmartCacheMore.

(** ** Priority scoring *)

Section PriorityMore.
Import Py PrioritySystem Aux.

Lemma clampQ_range q : (0 <= clampQ q <= 100)%Q.
Proof.
  unfold clampQ.
  destruct (Qlt_bool q 100) eqn:E1;
    [apply Qlt_bool_true in E1 | apply Qlt_bool_false in E1].
  - destruct (Qlt_bool 0 q) eqn:E2;
      [apply Qlt_bool_true in E2 | apply Qlt_bool_false in E2]; lra.
  - destruct (Qlt_bool 0 100) eqn:E2;
      [apply Qlt_bool_true in E2 | apply Qlt_bool_false in E2]; lra.
Qed.

Lemma clamp_range x : exists q, PrioritySystem.clamp x = Fin q /\ (0 <= q <= 100)%Q.
Proof.
  destruct x as [q | [|] | ].
  - exists (clampQ q). split; [apply clamp_Fin | apply clampQ_range].
  - exists 0%Q. split; [reflexivity | lra].
  - exists 100%Q. split; [reflexivity | lra].
  - exists 100%Q. split; [reflexivity | lra].
Qed.

Lemma score_is_clamped clk event holdings score :
  calculate_priority_score clk event holdings = Ok score ->
  exists x, score = PrioritySystem.clamp x.
Proof.
  unfold calculate_priority_score.
  destruct (table_get impact_scores _ _) as [impact|]; [|discriminate].
  destruct (table_get time_scores _ _) as [horizon|]; [|discriminate].
  destruct (times _ _) as [[base|]|]; try discriminate;
    (destruct (_apply_priority_rules event holdings) as [bonus|]; [|discriminate]);
    [|discriminate].
  intros [= <-]. eexists. reflexivity.
Qed.

(** X6.  Whatever the event, the holdings and the clock: a score that is
    returned is a number between 0 and 100. *)
Theorem calculate_priority_score_range clk event holdings score :
  calculate_priority_score clk event holdings = Ok score ->
  exists q, score = Fin q /\ (0 <= q <= 100)%Q.
Proof.
  intros H. destruct (score_is_clamped _ _ _ _ H) as [x ->]. apply clamp_range.
Qed.

Lemma calculate_priority_score_range_witness :
  exists q, Fin 100 = Fin q /\ (0 <= q <= 100)%Q.
Proof.
  apply (calculate_priority_score_range no_clock (Spec.encode urgent_event) None
           (Fin 100)).
  vm_compute. reflexivity.
Defined.

(** X7.  The base score has a default for a missing [impact_level], but the
    rules do not: for an event that has neither [impact_level] nor
    [affected_assets], the rule [portfolio_risk_event] reaches its [gte]
    condition and [list.index] raises [ValueError]. *)
Theorem score_without_impact_level_raises clk event holdings :
  dget event (str "impact_level") = None ->
  dget event (str "affected_assets") = None ->
  (dget event (str "time_horizon") = None
   \/ exists s, dget event (str "time_horizon") = Some (PStr s)) ->
  (dget event (str "confidence") = None
   \/ exists c f, dget event (str "confidence") = Some c /\ as_number c = Some f) ->
  calculate_priority_score clk event holdings = Raise ValueError.
Proof.
  intros Hil Haa Hth Hc.
  assert (Hrules : _apply_priority_rules event holdings = Raise ValueError).
  { unfold _apply_priority_rules, _load_priority_rules.
    cbn [bonus_loop _matches_rule conditions all_hold condition_holds op field value].
    unfold dget_or. rewrite Hil, Haa. reflexivity. }
  unfold calculate_priority_score, dget_or. rewrite Hil, Hrules.
  assert (Himpact : exists z, table_get impact_scores (PStr (str "low")) 10 = Ok z)
    by (eexists; reflexivity).
  destruct Himpact as [z ->].
  assert (Hhorizon : exists z',
    table_get time_scores
      match dget event (str "time_horizon") with
      | Some v => v
      | None => PStr (str "mid")
      end 15 = Ok z').
  { destruct Hth as [-> | [s ->]]; eexists; reflexivity. }
  destruct Hhorizon as [z' ->].
  destruct Hc as [-> | (c & f & -> & Hf)].
  - reflexivity.
  - unfold times. rewrite Hf. reflexivity.
Qed.

Lemma score_without_impact_level_raises_witness :
  calculate_priority_score no_clock unlabelled_event None = Raise ValueError.
Proof.
  apply (score_without_impact_level_raises no_clock unlabelled_event None);
    [reflexivity | reflexivity | left; reflexivity | left; reflexivity].
Defined.

(** *** The ranking: [prioritize_events] *)

Lemma str_eqb_refl k : str_eqb k k = true.
Proof. unfold str_eqb. apply bool_decide_eq_true_2. reflexivity. Qed.

Lemma str_eqb_eq a b : str_eqb a b = true -> a = b.
Proof. unfold str_eqb. apply bool_decide_eq_true_1. Qed.

Lemma dget_dset_same d k v : dget (dset d k v) k = Some v.
Proof.
  induction d as [|[k' v'] d IH]; cbn [dset dget].
  - rewrite str_eqb_refl. reflexivity.
  - destruct (str_eqb k' k) eqn:E; cbn [dget]; rewrite E; [reflexivity | exact IH].
Qed.

Lemma dget_dset_other d k k' v :
  str_eqb k k' = false -> dget (dset d k v) k' = dget d k'.
Proof.
  intros Hne. induction d as [|[k0 v0] d IH]; cbn [dset dget].
  - rewrite Hne. reflexivity.
  - destruct (str_eqb k0 k) eqn:E; cbn [dget].
    + apply str_eqb_eq in E. subst k0. rewrite Hne. reflexivity.
    + rewrite IH. reflexivity.
Qed.

Lemma with_priority_score ev s : priority_score_of (with_priority ev s) = Some s.
Proof.
  unfold priority_score_of, with_priority.
  rewrite dget_dset_other by (vm_compute; reflexivity).
  rewrite dget_dset_same. reflexivity.
Qed.

Lemma insert_desc_perm x l : Permutation (x :: l) (insert_desc x l).
Proof.
  induction l as [|y l IH]; cbn [insert_desc]; [reflexivity|].
  destruct (flt (fst y) (fst x)); [reflexivity|].
  rewrite perm_swap. constructor. exact IH.
Qed.

Lemma fold_insert_perm l acc :
  Permutation (l ++ acc) (fold_left (fun sorted x => insert_desc x sorted) l acc).
Proof.
  revert acc. induction l as [|x l IH]; intros acc; cbn [fold_left app]; [reflexivity|].
  rewrite <- IH. rewrite <- insert_desc_perm.
  apply Permutation_middle.
Qed.

Lemma insert_desc_sorted x l :
  finite x -> Forall finite l -> sorted_desc l -> sorted_desc (insert_desc x l).
Proof.
  intros [qx Hx] Hfin. induction l as [|y l IH]; intros Hs; cbn [insert_desc].
  - cbn. auto.
  - apply Forall_cons_1 in Hfin as [[qy Hy] Hfin].
    destruct Hs as [Hy_rest Hs]. rewrite Hy, Hx. cbn [flt].
    destruct (Qlt_bool qy qx) eqn:E;
      [apply Qlt_bool_true in E | apply Qlt_bool_false in E].
    + cbn [sorted_desc]. split; [|split; assumption].
      constructor.
      * exists qx, qy. repeat split; [assumption..|lra].
      * eapply Forall_impl; [exact Hy_rest|].
        intros z (qa & qz & Ha & Hz & Hle). exists qx, qz.
        rewrite Hy in Ha. injection Ha as <-.
        repeat split; [assumption..|lra].
    + cbn [sorted_desc]. split.
      * rewrite <- insert_desc_perm. constructor; [|exact Hy_rest].
        exists qy, qx. repeat split; [assumption..|exact E].
      * apply IH; assumption.
Qed.

Lemma fold_insert_sorted l acc :
  Forall finite l -> Forall finite acc -> sorted_desc acc ->
  sorted_desc (fold_left (fun sorted x => insert_desc x sorted) l acc).
Proof.
  revert acc. induction l as [|x l IH]; intros acc Hl Hacc Hs; cbn [fold_left];
    [exact Hs|].
  apply Forall_cons_1 in Hl as [Hx Hl].
  apply IH; [exact Hl | | apply insert_desc_sorted; assumption].
  rewrite <- insert_desc_perm. constructor; assumption.
Qed.

Lemma score_all_spec clk events holdings scored :
  score_all clk events holdings = Ok scored ->
  Forall finite scored
  /\ Forall2 (scored_as clk holdings) events (map snd scored)
  /\ Forall (fun a => priority_score_of (snd a) = Some (fst a)) scored.
Proof.
  revert scored. induction events as [|ev rest IH]; intros scored; cbn [score_all].
  - intros [= <-]. repeat split; constructor.
  - destruct (calculate_priority_score clk ev holdings) as [s|] eqn:Es; [|discriminate].
    destruct (score_all clk rest holdings) as [tail|]; [|discriminate].
    intros [= <-]. destruct (IH tail eq_refl) as (Hf & H2 & Hp).
    destruct (score_is_clamped _ _ _ _ Es) as [x Hx].
    destruct (clamp_range x) as (q & Hq & _). rewrite <- Hx in Hq.
    repeat split.
    + constructor; [exists q; exact Hq | exact Hf].
    + cbn [map snd]. constructor; [exists s; split; [exact Es | reflexivity] | exact H2].
    + constructor; [apply with_priority_score | exact Hp].
Qed.

Lemma sorted_desc_descending l :
  Forall (fun a => priority_score_of (snd a) = Some (fst a)) l ->
  sorted_desc l -> descending (map snd l).
Proof.
  induction l as [|a l IH]; intros Hp Hs; cbn [map descending]; [exact I|].
  apply Forall_cons_1 in Hp as [Ha Hp]. destruct Hs as [Hrest Hs].
  split; [|apply IH; assumption].
  apply Forall_map. rewrite Forall_forall in Hrest, Hp. apply Forall_forall.
  intros b Hb. destruct (Hrest b Hb) as (qa & qb & Hqa & Hqb & Hle).
  exists qa, qb. rewrite Ha, (Hp b Hb), Hqa, Hqb. auto.
Qed.

(** X8.  When every event can be scored, the ranking returns the same events,
    each with its score and level attached and none lost or repeated, in
    an order in which the score never increases. *)
Theorem prioritize_events_sorted clk events holdings ranked :
  prioritize_events clk events holdings = Ok ranked ->
  descending ranked
  /\ exists annotated,
       Forall2 (scored_as clk holdings) events annotated
       /\ Permutation annotated ranked.
Proof.
  unfold prioritize_events.
  destruct (score_all clk events holdings) as [scored|] eqn:E; [|discriminate].
  intros [= <-]. destruct (score_all_spec _ _ _ _ E) as (Hf & H2 & Hp).
  assert (Hperm : Permutation scored (sort_desc scored)).
  { unfold sort_desc. rewrite <- fold_insert_perm, app_nil_r. reflexivity. }
  split.
  - apply sorted_desc_descending.
    + rewrite <- Hperm. exact Hp.
    + unfold sort_desc. apply fold_insert_sorted; [exact Hf | constructor | exact I].
  - exists (map snd scored). split; [exact H2|].
    apply Permutation_map. exact Hperm.
Qed.

(** Three events, the most urgent in the middle: it comes out first, the
    two others behind it. *)
Lemma prioritize_events_sorted_witness :
  descending [with_priority (Spec.encode urgent_event) (Fin 100);
              with_priority (Spec.encode (routine_event None)) (Fin (70 # 2));
              with_priority (Spec.encode (routine_event (Some evening)))
                (Fin (490 # 20))]
  /\ exists annotated,
       Forall2 (scored_as no_clock None)
         [Spec.encode (routine_event (Some evening)); Spec.encode urgent_event;
          Spec.encode (routine_event None)] annotated
       /\ Permutation annotated
            [with_priority (Spec.encode urgent_event) (Fin 100);
             with_priority (Spec.encode (routine_event None)) (Fin (70 # 2));
             with_priority (Spec.encode (routine_event (Some evening)))
               (Fin (490 # 20))].
Proof.
  apply (prioritize_events_sorted no_clock
           [Spec.encode (routine_event (Some evening)); Spec.encode urgent_event;
            Spec.encode (routine_event None)] None).
  vm_compute. reflexivity.
Defined.

(** X9.  One event that cannot be scored is enough for the whole ranking to
    fail: the exception leaves [prioritize_events] and no event is
    ranked. *)
Theorem prioritize_events_all_or_nothing clk events holdings ev e :
  In ev events ->
  calculate_priority_score clk ev holdings = Raise e ->
  exists e', prioritize_events clk events holdings = Raise e'.
Proof.
  intros Hin Hraise. unfold prioritize_events.
  assert (H : exists e', score_all clk events holdings = Raise e').
  { induction events as [|x rest IH]; [contradiction|].
    cbn [score_all].
    destruct (calculate_priority_score clk x holdings) as [s|e0] eqn:Ex;
      [|eexists; reflexivity].
    destruct Hin as [-> | Hin]; [congruence|].
    destruct (IH Hin) as [e' ->]. eexists; reflexivity. }
  destruct H as [e' ->]. eexists; reflexivity.
Qed.

Lemma prioritize_events_all_or_nothing_witness :
  exists e',
    prioritize_events no_clock [Spec.encode urgent_event; unlabelled_event] None
    = Raise e'.
Proof.
  apply (prioritize_events_all_or_nothing no_clock
           [Spec.encode urgent_event; unlabelled_event] None unlabelled_event
           ValueError);
    [right; left; reflexivity | vm_compute; reflexivity].
Defined.

End PriorityMore.

(** ** The quality gate *)

Section QualityMore.
Import Py QualityAssurance Aux.

Lemma validate_loop_counts events : forall i valid_count errors valid_count' errors',
  validate_loop events i valid_count errors = Ok (valid_count', errors') ->
  length errors' = length errors + length (List.filter has_complaints events)
  /\ valid_count' + length (List.filter has_complaints events)
     = valid_count + length events.
Proof.
  induction events as [|event rest IH]; intros i vc errs vc' errs'; cbn [validate_loop].
  - intros [= <- <-]. cbn. lia.
  - assert (Hc : has_complaints event
                 = match _validate_single_event event event_extraction with
                   | Ok (_ :: _) => true
                   | _ => false
                   end) by reflexivity.
    cbn [List.filter]. rewrite Hc. clear Hc.
    destruct (_validate_single_event event event_extraction) as [[|c cs]|];
      [| |discriminate]; intros H; apply IH in H as [H1 H2].
    + cbn [length]. split; lia.
    + rewrite length_app in H1. cbn [length] in *. split; lia.
Qed.

Lemma ratio_threshold (valid n : nat) :
  0 < n ->
  Qle_bool (8 # 10) (inject_Z (Z.of_nat valid) / inject_Z (Z.of_nat n)) = true
  <-> 4 * n <= 5 * valid.
Proof.
  intros Hn.
  assert (Hz : 4 * n <= 5 * valid
               <-> (inject_Z 4 * inject_Z (Z.of_nat n)
                    <= inject_Z 5 * inject_Z (Z.of_nat valid))%Q).
  { rewrite <- !inject_Z_mult, <- Zle_Qle. lia. }
  assert (Hpos : (0 < inject_Z (Z.of_nat n))%Q).
  { change 0%Q with (inject_Z 0). rewrite <- Zlt_Qlt. lia. }
  rewrite Hz, Qle_bool_iff. clear Hz.
  change (inject_Z 4) with 4%Q. change (inject_Z 5) with 5%Q.
  revert Hpos. generalize (inject_Z (Z.of_nat n)) (inject_Z (Z.of_nat valid)).
  intros a b Hpos. split.
  - intros H. apply (Qmult_le_compat_r _ _ a) in H; [|lra].
    assert (E : (b / a * a == b)%Q) by (field; lra).
    rewrite E in H. lra.
  - intros H. apply Qle_shift_div_l; [exact Hpos|]. lra.
Qed.

(** X10.  The verdict on a batch, over exact ratios: there is one entry of
    complaints per event that has some, and the batch is valid exactly
    when it is not empty and at most one event in five has complaints. *)
Theorem validate_event_extraction_verdict qa now events is_valid errors :
  fst (validate_event_extraction qa now events) = Ok (is_valid, errors) ->
  length errors = length (List.filter has_complaints events)
  /\ (is_valid = true <-> events <> [] /\ 5 * length errors <= length events).
Proof.
  unfold validate_event_extraction.
  destruct (validate_loop events 0 0 []) as [[valid_count errs]|] eqn:E;
    [|discriminate].
  cbn [fst]. intros [= <- <-].
  apply validate_loop_counts in E as [H1 H2]. cbn [length] in H1, H2.
  split; [lia|].
  destruct events as [|event rest].
  - split; [discriminate | intros [[] _]; reflexivity].
  - rewrite ratio_threshold by (cbn [length]; lia).
    split; [intros H; split; [discriminate | lia] | intros [_ H]; lia].
Qed.

Lemma validate_event_extraction_verdict_witness :
  length [(1, [ContentFailed])]
  = length (List.filter has_complaints [record_with (str "short")])
  /\ (false = true
      <-> [record_with (str "short")] <> []
          /\ 5 * length [(1, [ContentFailed])] <= length [record_with (str "short")]).
Proof.
  apply (validate_event_extraction_verdict no_metrics (str "now")
           [record_with (str "short")]).
  vm_compute. reflexivity.
Defined.

Lemma check_fields_type_error event validators e :
  Forall (fun fv => forall x e', snd fv x = Raise e' -> e' = TypeError) validators ->
  check_fields event validators = Raise e -> e = TypeError.
Proof.
  intros Hall. induction validators as [|[f validator] rest IH]; cbn [check_fields];
    [discriminate|].
  apply Forall_cons_1 in Hall as [Hv Hall]. cbn [snd] in Hv.
  destruct (dget event f) as [v|]; [|apply IH, Hall].
  destruct (validator v) as [ok|e'] eqn:Ev.
  - destruct (check_fields event rest) as [errors|e'']; [discriminate|].
    intros [= <-]. apply IH; [exact Hall | reflexivity].
  - intros [= <-]. apply (Hv _ _ Ev).
Qed.

Lemma validate_single_event_type_error event e :
  _validate_single_event event event_extraction = Raise e -> e = TypeError.
Proof.
  unfold _validate_single_event.
  destruct (check_fields event (field_validators event_extraction)) as [invalid|e']
    eqn:Ef.
  - cbn [content_validators event_extraction check_content].
    unfold core_event_len.
    destruct (dget_or event (str "core_event") (PStr [])); cbn [py_len];
      try discriminate; intros [= <-]; reflexivity.
  - intros [= <-]. revert Ef. apply check_fields_type_error.
    cbn [field_validators event_extraction].
    repeat constructor; cbn [snd]; try discriminate.
    intros x e2. unfold unit_interval.
    destruct (as_number x); [discriminate | intros [= <-]; reflexivity].
Qed.

Lemma non_numeric_confidence event v :
  dget event (str "confidence") = Some v ->
  as_number v = None ->
  _validate_single_event event event_extraction = Raise TypeError.
Proof.
  intros Hget Hnum.
  destruct (_validate_single_event event event_extraction) as [errors|e] eqn:E.
  - exfalso. revert E. unfold _validate_single_event.
    cbn [field_validators event_extraction check_fields].
    rewrite Hget. unfold unit_interval. rewrite Hnum.
    destruct (dget event (str "impact_level")); destruct (dget event (str "time_horizon"));
      discriminate.
  - f_equal. apply (validate_single_event_type_error _ _ E).
Qed.

(** X11.  A confidence that is not a number - a text holding a number, or [null] -
    is not reported as invalid: the comparison raises [TypeError], and one
    such event makes the validation of the whole batch raise, with no
    verdict and no metric recorded. *)
Theorem validation_raises_on_non_numeric_confidence qa now events event v :
  In event events ->
  dget event (str "confidence") = Some v ->
  as_number v = None ->
  validate_event_extraction qa now events = (Raise TypeError, qa).
Proof.
  intros Hin Hget Hnum. unfold validate_event_extraction.
  assert (H : forall i valid_count errors,
             validate_loop events i valid_count errors = Raise TypeError).
  { induction events as [|x rest IH]; [contradiction|].
    intros i vc errs. cbn [validate_loop].
    destruct (_validate_single_event x event_extraction) as [[|c cs]|e] eqn:Ex.
    - destruct Hin as [-> | Hin];
        [rewrite (non_numeric_confidence _ _ Hget Hnum) in Ex; discriminate|].
      apply IH, Hin.
    - destruct Hin as [-> | Hin];
        [rewrite (non_numeric_confidence _ _ Hget Hnum) in Ex; discriminate|].
      apply IH, Hin.
    - f_equal. apply (validate_single_event_type_error _ _ Ex). }
  rewrite H. reflexivity.
Qed.

Lemma validation_raises_on_non_numeric_confidence_witness :
  validate_event_extraction no_metrics (str "now")
    [record_with (str "a rate decision");
     [(str "core_event", PStr (str "a rate decision"));
      (str "confidence", PStr (str "0.9"))]]
  = (Raise TypeError, no_metrics).
Proof.
  apply (validation_raises_on_non_numeric_confidence no_metrics (str "now") _
           [(str "core_event", PStr (str "a rate decision"));
            (str "confidence", PStr (str "0.9"))] (PStr (str "0.9")));
    [right; left; reflexivity | reflexivity | reflexivity].
Defined.

(** X12.  Recording a value keeps, for its metric, at most the last hundred
    records, the new one being the last; the records are the end of the old
    ones followed by the new one, and no other metric is touched. *)
Theorem record_metric_keeps_last_hundred qa now metric_name v :
  exists records,
    quality_metrics (_record_metric qa now metric_name v) !! metric_name
    = Some records
    /\ length records <= 100
    /\ last records = Some (now, v)
    /\ records `suffix_of` default [] (quality_metrics qa !! metric_name) ++ [(now, v)]
    /\ forall other, other <> metric_name ->
         quality_metrics (_record_metric qa now metric_name v) !! other
         = quality_metrics qa !! other.
Proof.
  unfold _record_metric. cbn [quality_metrics].
  set (old := default [] (quality_metrics qa !! metric_name)).
  eexists. split; [apply lookup_insert_eq|].
  destruct (Nat.ltb_spec 100 (length (old ++ [(now, v)]))) as [Hlong|Hshort].
  - repeat split.
    + rewrite length_drop. lia.
    + rewrite length_app in *. cbn [length] in *.
      rewrite drop_app_le by lia. apply last_snoc.
    + apply suffix_drop.
    + intros other Hne. apply lookup_insert_ne. congruence.
  - repeat split.
    + exact Hshort.
    + apply last_snoc.
    + reflexivity.
    + intros other Hne. apply lookup_insert_ne. congruence.
Qed.

End QualityMore.

(** ** Cleaning and repairing text *)

Section JSONUtilsMore.
Import Py Re JSONUtils Spec Aux.

(** X13.  The repaired text always decodes: to what the span from the first
    opening brace to the last closing brace decodes to, or else to the
    placeholder. *)
Theorem aggressive_json_repair_decodes rl text :
  1 <= rl ->
  exists v,
    Json.loads rl (_aggressive_json_repair rl text) = Ok v
    /\ (Json.loads rl (brace_span text) = Ok v
        \/ (is_ok (Json.loads rl (brace_span text)) = false /\ v = fallback_object)).
Proof.
  intros Hrl. unfold _aggressive_json_repair, _is_valid_json.
  destruct (Json.loads rl (brace_span text)) as [v|e] eqn:E; cbn [is_ok negb].
  - exists v. rewrite E. auto.
  - exists fallback_object. rewrite (loads_fallback rl Hrl). auto.
Qed.

Lemma aggressive_json_repair_decodes_witness :
  exists v,
    Json.loads 10 (_aggressive_json_repair 10 (str "no json here")) = Ok v
    /\ (Json.loads 10 (brace_span (str "no json here")) = Ok v
        \/ (is_ok (Json.loads 10 (brace_span (str "no json here"))) = false
            /\ v = fallback_object)).
Proof.
  apply (aggressive_json_repair_decodes 10 (str "no json here")). lia.
Defined.

(** X14.  For a text that is not empty the caller's default plays no part: the
    inner handler that would return it is never reached, since the
    repaired text always decodes. *)
Theorem safe_json_parse_ignores_default rl json_str default default' :
  1 <= rl ->
  json_str <> [] ->
  safe_json_parse rl json_str default = safe_json_parse rl json_str default'.
Proof.
  intros Hrl Hne.
  unfold safe_json_parse, _aggressive_json_repair, _is_valid_json.
  generalize (_fix_common_json_issues (_basic_clean json_str)). intros text.
  destruct json_str; [contradiction|]. cbn [is_empty].
  destruct (Json.loads rl text) as [v|e]; [reflexivity|].
  destruct (is_JSONDecodeError e); [|reflexivity].
  destruct (Json.loads rl (brace_span text)) as [v|e'] eqn:E; cbn [is_ok negb].
  - rewrite E. reflexivity.
  - rewrite (loads_fallback rl Hrl). reflexivity.
Qed.

Lemma safe_json_parse_ignores_default_witness :
  safe_json_parse 10 (str "no json here") PNone
  = safe_json_parse 10 (str "no json here") (PDict []).
Proof.
  apply (safe_json_parse_ignores_default 10 (str "no json here") PNone (PDict []));
    [lia | discriminate].
Defined.

(** X15.  An exception leaves [safe_json_parse] only from the first decoding,
    and it is then a [RecursionError], on text nested too deep for the
    interpreter, or the [ValueError] of an integer literal of too many
    digits: the outer handler catches [json.JSONDecodeError] alone, the
    inner one everything. *)
Theorem safe_json_parse_raises_only_from_first_decode rl json_str default e :
  safe_json_parse rl json_str default = Raise e ->
  (e = RecursionError \/ e = ValueError)
  /\ Json.loads rl (cleaned json_str) = Raise e.
Proof.
  unfold safe_json_parse, cleaned.
  generalize (_fix_common_json_issues (_basic_clean json_str)). intros text.
  destruct (is_empty json_str); [discriminate|].
  destruct (Json.loads rl text) as [v|e0] eqn:Hload; [discriminate|].
  destruct (loads_error _ _ _ Hload) as [-> | [-> | ->]]; cbn [is_JSONDecodeError].
  - destruct (Json.loads rl (_aggressive_json_repair rl text)); discriminate.
  - intros [= <-]. auto.
  - intros [= <-]. auto.
Qed.

Lemma safe_json_parse_raises_only_from_first_decode_witness :
  (RecursionError = RecursionError \/ RecursionError = ValueError)
  /\ Json.loads 2 (cleaned (str "[[[1]]]")) = Raise RecursionError.
Proof.
  apply (safe_json_parse_raises_only_from_first_decode 2 (str "[[[1]]]") PNone).
  vm_compute. reflexivity.
Defined.

(** *** [sanitize_string] *)

Lemma sub_fuel_removes (c : cls) fuel s :
  length s < fuel ->
  sub_fuel fuel (Chr c Once) [] s = List.filter (fun x => negb (c x)) s.
Proof.
  revert s. induction fuel as [|fuel IH]; intros s Hlen; [lia|].
  destruct s as [|x s]; [reflexivity|].
  cbn [sub_fuel match_at matches List.filter]. cbn [length] in Hlen.
  destruct (c x); cbn [negb].
  - assert (Hlt : (length s <? length (x :: s)) = true)
      by (apply Nat.ltb_lt; cbn [length]; lia).
    rewrite Hlt. cbn [expand flat_map app]. apply IH. lia.
  - f_equal. apply IH. lia.
Qed.

Lemma sub_removes (c : cls) s :
  sub (Chr c Once) [] s = List.filter (fun x => negb (c x)) s.
Proof. unfold sub. apply sub_fuel_removes. lia. Qed.

Lemma replace2_two o1 o2 new c c' r :
  replace2 o1 o2 new (c :: c' :: r)
  = if ((c =? o1) && (c' =? o2))%N then new ++ replace2 o1 o2 new r
    else c :: replace2 o1 o2 new (c' :: r).
Proof. reflexivity. Qed.

Lemma replace2_spec (P : char -> Prop) o1 o2 (new : pystr) n : forall s : pystr,
  length s <= n ->
  Forall P new -> Forall P s ->
  Forall P (replace2 o1 o2 new s)
  /\ (length new <= 2 -> length (replace2 o1 o2 new s) <= length s).
Proof.
  induction n as [|n IH]; intros s Hlen Hnew Hs.
  - destruct s; [|cbn [length] in Hlen; lia]. split; [constructor | intros _; apply le_n].
  - destruct s as [|c [|c' r]].
    + split; [constructor | intros _; apply le_n].
    + split; [exact Hs | intros _; apply le_n].
    + rewrite replace2_two. cbn [length] in Hlen.
      apply Forall_cons_1 in Hs as [Hc Ht].
      destruct ((c =? o1)%N && (c' =? o2)%N).
      * apply Forall_cons_1 in Ht as [_ Hr].
        destruct (IH r ltac:(lia) Hnew Hr) as [HF HL].
        split; [apply Forall_app; auto|].
        intros H2. rewrite length_app. specialize (HL H2). cbn [length].
        len_lia.
      * destruct (IH (c' :: r) ltac:(cbn [length]; lia) Hnew Ht) as [HF HL].
        split; [constructor; assumption|].
        intros H2. specialize (HL H2).
        change (length (c :: c' :: r)) with (S (length (c' :: r))).
        change (length (c :: replace2 o1 o2 new (c' :: r)))
          with (S (length (replace2 o1 o2 new (c' :: r)))).
        len_lia.
Qed.

Lemma replace2_absent o1 o2 new n : forall s : pystr,
  length s <= n ->
  Forall (fun c => c <> o1) s -> replace2 o1 o2 new s = s.
Proof.
  induction n as [|n IH]; intros s Hlen Hs.
  - destruct s; [reflexivity | cbn [length] in Hlen; lia].
  - destruct s as [|c [|c' r]]; [reflexivity..|].
    rewrite replace2_two.
    cbn [length] in Hlen. apply Forall_cons_1 in Hs as [Hc Ht].
    destruct (N.eqb_spec c o1) as [->|_]; [contradiction|]. cbn [andb].
    f_equal. apply IH; [cbn [length]; lia | exact Ht].
Qed.

(** X16.  What [sanitize_string] returns holds no control character (tab, line
    feed and carriage return are not counted as such) and has at most 1003
    characters, never more than three above the length of its argument. *)
Theorem sanitize_string_clean_and_bounded value :
  Forall (fun c => control c = false) (sanitize_string value)
  /\ length (sanitize_string value) <= 1003
  /\ length (sanitize_string value) <= length value + 3.
Proof.
  unfold sanitize_string. rewrite sub_removes.
  set (v0 := List.filter (fun x => negb (control x)) value).
  assert (H0 : Forall (fun c => control c = false) v0).
  { apply Forall_forall. intros c Hc. apply list_elem_of_In, filter_In in Hc as [_ Hc].
    apply negb_true_iff in Hc. exact Hc. }
  assert (L0 : length v0 <= length value) by apply List.filter_length_le.
  set (v1 := replace2 backslash dquote [dquote] v0).
  destruct (replace2_spec (fun c => control c = false) backslash dquote [dquote]
              (length v0) v0 (le_n _)) as [H1 L1];
    [repeat constructor | exact H0 |]. fold v1 in H1, L1.
  specialize (L1 ltac:(cbn; lia)).
  set (v2 := replace2 backslash squote [squote] v1).
  destruct (replace2_spec (fun c => control c = false) backslash squote [squote]
              (length v1) v1 (le_n _)) as [H2 L2];
    [repeat constructor | exact H1 |]. fold v2 in H2, L2.
  specialize (L2 ltac:(cbn; lia)).
  destruct (Nat.ltb_spec 1000 (length v2)) as [Hlong|Hshort].
  - split; [|split].
    + apply Forall_app. split; [apply Forall_take, H2 | repeat constructor].
    + rewrite length_app, length_take. change (length (str "...")) with 3. lia.
    + rewrite length_app, length_take. change (length (str "...")) with 3. len_lia.
  - split; [exact H2 | split; len_lia].
Qed.

(** X17.  A text of at most 1000 characters without control characters and
    without backslashes comes back unchanged. *)
Theorem sanitize_string_identity value :
  forallb plain value = true ->
  length value <= 1000 ->
  sanitize_string value = value.
Proof.
  intros Hplain Hlen. unfold sanitize_string. rewrite sub_removes.
  assert (Hall : Forall (fun c => control c = false /\ c <> backslash) value).
  { apply Forall_forall. intros c Hc.
    rewrite forallb_forall in Hplain. apply list_elem_of_In in Hc.
    specialize (Hplain c Hc). unfold plain in Hplain.
    apply andb_true_iff in Hplain as [H1 H2].
    apply negb_true_iff in H1, H2. apply N.eqb_neq in H2. auto. }
  assert (E0 : List.filter (fun x => negb (control x)) value = value).
  { clear Hplain Hlen. induction value as [|c rest IH]; [reflexivity|].
    apply Forall_cons_1 in Hall as [[Hc _] Hrest]. cbn [List.filter].
    rewrite Hc. cbn [negb]. f_equal. apply IH, Hrest. }
  rewrite E0.
  assert (Hbs : Forall (fun c => c <> backslash) value)
    by (eapply Forall_impl; [exact Hall | intros c [_ H]; exact H]).
  rewrite !(replace2_absent backslash _ _ (length value) value (le_n _) Hbs).
  match goal with
  | |- context [(?a <? ?b)%nat] => destruct (Nat.ltb_spec a b)
  end; [len_lia | reflexivity].
Qed.

Lemma sanitize_string_identity_witness :
  sanitize_string (str "rates unchanged") = str "rates unchanged".
Proof.
  apply (sanitize_string_identity (str "rates unchanged"));
    [reflexivity | vm_compute; lia].
Defined.

(** *** A text of digits goes through the cleaning unchanged *)

Lemma ones_tail c s : ones (c :: s) -> c = char_of "1" /\ ones s.
Proof. intros H. inversion H. auto. Qed.

Lemma sub_fuel_no_match r tpl fuel : forall s,
  ones s -> (forall t, ones t -> match_at r t = None) ->
  sub_fuel fuel r tpl s = s.
Proof.
  induction fuel as [|fuel IH]; intros s Hs Hr; [reflexivity|].
  cbn [sub_fuel]. rewrite (Hr s Hs). destruct s as [|c s']; [reflexivity|].
  f_equal. apply IH; [apply (ones_tail c), Hs | exact Hr].
Qed.

Lemma sub_no_match r tpl s :
  ones s -> (forall t, ones t -> match_at r t = None) -> sub r tpl s = s.
Proof. intros Hs Hr. unfold sub. apply sub_fuel_no_match; assumption. Qed.

(** A pattern that needs, among its first two characters, one that is no
    digit. *)
Ltac fails_at_once :=
  let t := fresh "t" in
  let Ht := fresh "Ht" in
  intros t Ht;
  destruct t as [|? [|? ?]];
  [vm_compute; reflexivity
  |apply ones_tail in Ht as [-> _]; vm_compute; reflexivity
  |apply ones_tail in Ht as [-> Ht]; apply ones_tail in Ht as [-> _];
   vm_compute; reflexivity].

Lemma greedy_fails {R} (c : cls) (k : pystr -> option R) t :
  ones t -> (forall u, ones u -> k u = None) -> greedy c t k = None.
Proof.
  intros Ht Hk. induction t as [|x t IH]; cbn [greedy]; [apply Hk, Ht|].
  destruct (c x); [|apply Hk, Ht].
  rewrite IH by apply (ones_tail x), Ht. apply Hk, Ht.
Qed.

Lemma bare_pair_no_match t : ones t -> match_at bare_pair t = None.
Proof.
  intros Ht. destruct t as [|c t]; [vm_compute; reflexivity|].
  apply ones_tail in Ht as [-> Ht].
  unfold match_at, bare_pair. cbn [matches].
  destruct (word (char_of "1")); [|reflexivity].
  apply greedy_fails; [exact Ht|].
  intros u Hu. destruct u as [|x u]; [reflexivity|].
  apply ones_tail in Hu as [-> _]. reflexivity.
Qed.

Lemma ones_snoc s : ones s -> s ++ [char_of "1"] = char_of "1" :: s.
Proof.
  induction s as [|c s IH]; intros H; [reflexivity|].
  apply ones_tail in H as [-> H]. cbn [app]. rewrite (IH H). reflexivity.
Qed.

Lemma ones_rev s : ones s -> rev s = s.
Proof.
  induction s as [|c s IH]; intros H; [reflexivity|].
  apply ones_tail in H as [-> H]. cbn [rev]. rewrite (IH H). apply ones_snoc, H.
Qed.

Lemma strip_ones s : ones s -> strip s = s.
Proof.
  intros H.
  assert (Hl : forall t, ones t -> lstrip t = t).
  { intros [|c t] Ht; [reflexivity|]. apply ones_tail in Ht as [-> _]. reflexivity. }
  unfold strip, rstrip. rewrite (Hl s H), (ones_rev s H), (Hl s H). apply ones_rev, H.
Qed.

Lemma replace2_ones o2 new s : ones s -> replace2 backslash o2 new s = s.
Proof.
  intros H. apply (replace2_absent backslash o2 new (length s)); [apply le_n|].
  eapply Forall_impl; [exact H|]. intros c ->. discriminate.
Qed.

Lemma cleaned_ones s : ones s -> cleaned s = s.
Proof.
  intros H. unfold cleaned, _basic_clean, _fix_common_json_issues. cbv zeta.
  rewrite (sub_no_match fence_json _ s H) by fails_at_once.
  rewrite (sub_no_match fence _ s H) by fails_at_once.
  rewrite (strip_ones s H).
  rewrite (sub_no_match (Chr control Once) _ s H) by fails_at_once.
  rewrite !(replace2_ones _ _ s H).
  rewrite (sub_no_match unescaped_quotes _ s H) by fails_at_once.
  rewrite (sub_no_match single_quoted _ s H) by fails_at_once.
  rewrite (sub_no_match adjacent_strings _ s H) by fails_at_once.
  rewrite (sub_no_match digit_then_quote _ s H) by fails_at_once.
  rewrite (sub_no_match brace_then_quote _ s H) by fails_at_once.
  rewrite (sub_no_match bracket_then_quote _ s H) by fails_at_once.
  rewrite (sub_no_match bare_pair _ s H) by exact bare_pair_no_match.
  apply (sub_no_match trailing_comma _ s H). fails_at_once.
Qed.

Lemma ones_repeat n : ones (repeat (char_of "1") n).
Proof. induction n as [|n IH]; constructor; [reflexivity | exact IH]. Qed.

(** An integer literal of 4301 digits: [int] refuses it with a
    [ValueError], which is no [json.JSONDecodeError] and leaves
    [safe_json_parse]. *)
Example safe_json_parse_value_error :
  safe_json_parse 10 long_integer PNone = Raise ValueError.
Proof.
  apply safe_json_parse_propagates.
  - unfold long_integer. discriminate.
  - rewrite (cleaned_ones long_integer (ones_repeat 4301)). vm_compute. reflexivity.
  - reflexivity.
Qed.

End JSONUtilsMore.

(** ** Extraction *)

Section ExtractionMore.
Import Py News EventExtractionAgent OptimizedInvestmentSystem Aux.

Variable llm_call : oracle.
Variable rl : nat.

(** *** The single-item agent *)

(** X18.  The agent requires the key [core_events]; its own prompt asks for
    [core_event].  An answer that decodes to an object without the key
    [core_events] - one in the very format of the prompt - is discarded,
    and the event returned is the placeholder computed from the item. *)
Theorem answer_without_core_events_is_discarded m news response d :
  llm_call (oracle_calls m) (single_prompt news) = Ok response ->
  Json.loads rl (_clean_llm_response response) = Ok (PDict d) ->
  dhas d (str "core_events") = false ->
  extract_single_event llm_call rl m news
  = (Ok (EventExtractionAgent._create_default_event news), called m).
Proof.
  intros Hllm Hloads Hkey. unfold extract_single_event, _parse_single_response.
  rewrite Hllm, Hloads. unfold required_output_fields. cbn [all_in py_in].
  rewrite Hkey. reflexivity.
Qed.

(** X19.  [_process_batch] returns no event of low impact: every event of its
    result has an [impact_level] other than [low]; there are at most as
    many events as items, and the oracle has been called once per item. *)
Theorem process_batch_drops_low_impact m news_items result m' :
  _process_batch llm_call rl m news_items = (Ok result, m') ->
  exists events,
    dget result (str "extracted_events") = Some (PList events)
    /\ length events <= length news_items
    /\ Forall (fun event => exists level,
                 py_getitem event (str "impact_level") = Ok level
                 /\ is_str (str "low") level = false) events
    /\ oracle_calls m' = oracle_calls m + length news_items.
Proof.
  unfold _process_batch.
  assert (H : forall items m0 extracted events m1,
             batch_loop llm_call rl m0 items extracted = (Ok events, m1) ->
             Forall (fun event => exists level,
                       py_getitem event (str "impact_level") = Ok level
                       /\ is_str (str "low") level = false) extracted ->
             length events <= length extracted + length items
             /\ Forall (fun event => exists level,
                          py_getitem event (str "impact_level") = Ok level
                          /\ is_str (str "low") level = false) events
             /\ oracle_calls m1 = oracle_calls m0 + length items).
  { induction items as [|news rest IH]; intros m0 extracted events m1; cbn [batch_loop].
    - intros [= <- <-] Hex. cbn [length]. repeat split; [lia | exact Hex | lia].
    - unfold extract_single_event.
      destruct (llm_call (oracle_calls m0) (single_prompt news)) as [response|e];
        [|discriminate].
      set (event := match _parse_single_response rl response with
                    | Ok event_data => event_data
                    | Raise _ => EventExtractionAgent._create_default_event news
                    end).
      assert (E : (match _parse_single_response rl response with
                   | Ok event_data => (Ok event_data, called m0)
                   | Raise _ =>
                     (Ok (EventExtractionAgent._create_default_event news), called m0)
                   end) = (Ok event, called m0))
        by (subst event; destruct (_parse_single_response rl response); reflexivity).
      rewrite E. clear E.
      destruct (truthy event).
      + destruct (py_getitem event (str "impact_level")) as [level|e] eqn:Hlevel;
          [|discriminate].
        destruct (is_str (str "low") level) eqn:Hlow; cbn [negb]; intros Hloop Hex.
        * apply IH in Hloop; [|exact Hex]. cbn [called oracle_calls length] in *.
          destruct Hloop as (H1 & H2 & H3). repeat split; [lia | exact H2 | lia].
        * apply IH in Hloop.
          -- rewrite length_app in Hloop. cbn [called oracle_calls length] in *.
             destruct Hloop as (H1 & H2 & H3). repeat split; [lia | exact H2 | lia].
          -- apply Forall_app. split; [exact Hex|]. repeat constructor. eauto.
      + intros Hloop Hex. apply IH in Hloop; [|exact Hex].
        cbn [called oracle_calls length] in *.
        destruct Hloop as (H1 & H2 & H3). repeat split; [lia | exact H2 | lia]. }
  destruct (batch_loop llm_call rl m news_items []) as [[events|e] m1] eqn:E;
    [|discriminate].
  intros [= <- <-]. exists events.
  apply H in E; [|constructor]. cbn [length] in E.
  destruct E as (H1 & H2 & H3).
  split; [vm_compute; reflexivity|]. auto.
Qed.

(** *** One batch *)

(** X20.  An answer that decodes to an object without the key [batch_events] is
    taken as a batch without events: the items of the batch get no event
    at all, the fallback is not used and the call is counted as a
    success. *)
Theorem batch_answer_without_events_yields_nothing m news_batch response
    json_str result :
  news_batch <> [] ->
  llm_call (oracle_calls m) (_build_batch_prompt news_batch) = Ok response ->
  json_part response = Ok json_str ->
  Json.loads rl json_str = Ok (PDict result) ->
  dget result (str "batch_events") = None ->
  _process_news_batch llm_call rl m news_batch
  = (PList [], record_llm_call (called m)).
Proof.
  intros Hne Hllm Hpart Hloads Hget.
  unfold _process_news_batch. destruct news_batch as [|news rest]; [contradiction|].
  rewrite Hllm. unfold _parse_batch_response. rewrite Hpart, Hloads.
  unfold dget_or. rewrite Hget. reflexivity.
Qed.

Lemma annotate_all_raises original_news events e x :
  In e events ->
  annotate original_news e = Raise x ->
  exists x', annotate_all original_news events = Raise x'.
Proof.
  intros Hin Hraise. induction events as [|e0 rest IH]; [contradiction|].
  cbn [annotate_all].
  destruct (annotate original_news e0) as [e0'|x0] eqn:E0; [|eauto].
  destruct Hin as [-> | Hin]; [congruence|].
  destruct (IH Hin) as [x' ->]. eauto.
Qed.

(** X21.  One element that cannot be annotated discards the answer of the whole
    batch, the good elements included: when some element of [batch_events]
    makes the loop raise - its [news_index] is a text, say - every item of
    the batch is processed on its own instead. *)
Theorem bad_element_discards_batch m news_batch response json_str result events
    e x :
  news_batch <> [] ->
  llm_call (oracle_calls m) (_build_batch_prompt news_batch) = Ok response ->
  json_part response = Ok json_str ->
  Json.loads rl json_str = Ok (PDict result) ->
  dget result (str "batch_events") = Some (PList events) ->
  In e events ->
  annotate news_batch e = Raise x ->
  fst (_process_news_batch llm_call rl m news_batch)
  = PList (single_events llm_call rl (S (oracle_calls m)) news_batch).
Proof.
  intros Hne Hllm Hpart Hloads Hget Hin Hraise.
  unfold _process_news_batch. destruct news_batch as [|news rest]; [contradiction|].
  rewrite Hllm. unfold _parse_batch_response. rewrite Hpart, Hloads.
  unfold reconcile, dget_or. rewrite Hget. cbn [py_len].
  destruct (annotate_all_raises _ _ _ _ Hin Hraise) as [x' ->].
  destruct (fallback_events llm_call rl (called m) (news :: rest)) as (m' & -> & _).
  reflexivity.
Qed.

End ExtractionMore.

Section ExtractionMoreExamples.
Import Py News EventExtractionAgent OptimizedInvestmentSystem Aux.

Lemma answer_without_core_events_is_discarded_witness :
  extract_single_event prompt_format_oracle 10 fresh_monitor
    (item_with "The central bank cut rates" "news.txt" 1)
  = (Ok (EventExtractionAgent._create_default_event
           (item_with "The central bank cut rates" "news.txt" 1)),
     called fresh_monitor).
Proof.
  apply (answer_without_core_events_is_discarded prompt_format_oracle 10
           fresh_monitor (item_with "The central bank cut rates" "news.txt" 1)
           prompt_format_answer
           [(str "core_event", PStr (str "rate cut"));
            (str "impact_level", PStr (str "high"));
            (str "time_horizon", PStr (str "short"));
            (str "affected_assets", PList []);
            (str "investment_implication", PStr (str "bonds"));
            (str "confidence", PFloat (Fin (9 # 10)))]);
    [reflexivity | vm_compute; reflexivity | vm_compute; reflexivity].
Defined.

Lemma process_batch_drops_low_impact_witness :
  exists events,
    dget [(str "extracted_events", PList []);
          (str "summary", PStr (str "共提取 0 个重要事件"));
          (str "total_processed", PInt 1)] (str "extracted_events")
    = Some (PList events)
    /\ length events <= length [item_with "an opinion: 观点" "news.txt" 1]
    /\ Forall (fun event => exists level,
                 py_getitem event (str "impact_level") = Ok level
                 /\ is_str (str "low") level = false) events
    /\ oracle_calls (called fresh_monitor)
       = oracle_calls fresh_monitor + length [item_with "an opinion: 观点" "news.txt" 1].
Proof.
  apply (process_batch_drops_low_impact prose_oracle 10 fresh_monitor
           [item_with "an opinion: 观点" "news.txt" 1]).
  vm_compute. reflexivity.
Defined.

Lemma batch_answer_without_events_yields_nothing_witness :
  _process_news_batch empty_object_oracle 10 fresh_monitor five_items
  = (PList [], record_llm_call (called fresh_monitor)).
Proof.
  apply (batch_answer_without_events_yields_nothing empty_object_oracle 10
           fresh_monitor five_items (str "{}") (str "{}") []);
    [discriminate | reflexivity | vm_compute; reflexivity
    | vm_compute; reflexivity | reflexivity].
Defined.

Lemma bad_element_discards_batch_witness :
  fst (_process_news_batch text_index_oracle 10 fresh_monitor five_items)
  = PList (single_events text_index_oracle 10 (S (oracle_calls fresh_monitor))
             five_items).
Proof.
  apply (bad_element_discards_batch text_index_oracle 10 fresh_monitor five_items
           text_index_answer text_index_answer
           [(str "batch_events",
             PList [PDict [(str "news_index", PInt 1)];
                    PDict [(str "news_index", PStr (str "2"))]])]
           [PDict [(str "news_index", PInt 1)];
            PDict [(str "news_index", PStr (str "2"))]]
           (PDict [(str "news_index", PStr (str "2"))]) TypeError);
    [discriminate | reflexivity | vm_compute; reflexivity
    | vm_compute; reflexivity | vm_compute; reflexivity
    | right; left; reflexivity | vm_compute; reflexivity].
Defined.

End ExtractionMoreExamples.

(** ** Placeholders, call counts and the driver *)

Section EngineMore.
Import Py News OptimizedInvestmentSystem Aux.

Variable llm_call : oracle.
Variable rl : nat.

(** *** The engine's placeholder and the other components *)

Lemma take_100_longer_than_5 (s : pystr) :
  (5 <? length (take 100 s)) = (5 <? length s).
Proof.
  rewrite length_take.
  destruct (Nat.ltb_spec 5 (length s)); [apply Nat.ltb_lt | apply Nat.ltb_ge]; lia.
Qed.

(** X22.  The placeholder the engine creates for an item passes the per-record
    validation of the quality gate exactly when the content of the item
    has more than five characters; otherwise the only complaint is the
    content check. *)
Theorem engine_placeholder_validation news d :
  _create_default_event news = PDict d ->
  QualityAssurance._validate_single_event d QualityAssurance.event_extraction
  = Ok (if (5 <? length (text_or [] (content news)))%nat then []
        else [QualityAssurance.ContentFailed]).
Proof.
  intros [= <-]. rewrite <- take_100_longer_than_5.
  generalize (take_100_longer_than_5 (text_or [] (content news))).
  assert (Hshort : (length (take 100 (text_or [] (content news))) <? 500) = true)
    by (apply Nat.ltb_lt; rewrite length_take; lia).
  revert Hshort.
  generalize (take 100 (text_or [] (content news))). intros c Hshort _.
  unfold QualityAssurance._validate_single_event.
  set (event := [(str "core_event", PStr c); _; _; _; _; _; _; _]).
  assert (Hreq : QualityAssurance.check_required event
                   (QualityAssurance.required_fields QualityAssurance.event_extraction)
                 = []) by reflexivity.
  assert (Hfields : QualityAssurance.check_fields event
                      (QualityAssurance.field_validators
                         QualityAssurance.event_extraction) = Ok [])
    by reflexivity.
  assert (Hlen : QualityAssurance.core_event_len event = Ok (length c))
    by reflexivity.
  rewrite Hreq, Hfields.
  cbn [QualityAssurance.content_validators QualityAssurance.event_extraction
       QualityAssurance.check_content].
  rewrite Hlen, Hshort. destruct (5 <? length c); reflexivity.
Qed.

Lemma engine_placeholder_validation_witness :
  QualityAssurance._validate_single_event
    [(str "core_event", PStr (str "a"));
     (str "impact_level", PStr (str "low"));
     (str "time_horizon", PStr (str "short"));
     (str "affected_assets", PList []);
     (str "investment_implication", PStr (str "需要进一步分析"));
     (str "confidence", PFloat (Fin (3 # 10)));
     (str "source_file", PStr (str "news.txt"));
     (str "source_line", PInt 1)]
    QualityAssurance.event_extraction
  = Ok (if (5 <? length (text_or [] (content (item_with "a" "news.txt" 1))))%nat
        then [] else [QualityAssurance.ContentFailed]).
Proof.
  apply (engine_placeholder_validation (item_with "a" "news.txt" 1)).
  reflexivity.
Defined.

(** X23.  The placeholder of the engine can always be scored: the priority
    system returns a number of at least 12 for it and never raises,
    whatever the item, the holdings and the clock. *)
Theorem engine_placeholder_score clk holdings news d :
  _create_default_event news = PDict d ->
  exists q,
    PrioritySystem.calculate_priority_score clk d holdings = Ok (Fin q)
    /\ (12 <= q <= 100)%Q.
Proof.
  intros [= <-].
  generalize (take 100 (text_or [] (content news))) (opt_str (source_file news))
             (opt_int (source_line news)).
  intros c sf sl.
  set (event := [(str "core_event", PStr c); _; _; _; _; _; _; _]).
  assert (Hrules : exists b4 b5 : bool,
             PrioritySystem._apply_priority_rules event holdings
             = Ok ((if b4 then 95 else 0) + (if b5 then 85 else 0))%Z).
  { unfold PrioritySystem._apply_priority_rules, PrioritySystem._load_priority_rules.
    cbn [PrioritySystem.bonus_loop].
    match goal with
    | |- context [PrioritySystem._matches_rule event ?r holdings] =>
      assert (R1 : PrioritySystem._matches_rule event r holdings = Ok false)
        by reflexivity; rewrite R1; clear R1
    end.
    match goal with
    | |- context [PrioritySystem._matches_rule event ?r holdings] =>
      assert (R2 : PrioritySystem._matches_rule event r holdings = Ok false)
        by reflexivity; rewrite R2; clear R2
    end.
    match goal with
    | |- context [PrioritySystem._matches_rule event ?r holdings] =>
      assert (R3 : PrioritySystem._matches_rule event r holdings = Ok false)
        by (destruct holdings as [[|h hs]|]; reflexivity); rewrite R3; clear R3
    end.
    match goal with
    | |- context [PrioritySystem._matches_rule event ?r holdings] =>
      assert (R4 : exists b, PrioritySystem._matches_rule event r holdings = Ok b)
        by (unfold PrioritySystem._matches_rule;
            cbn [PrioritySystem.conditions PrioritySystem.all_hold];
            match goal with
            | |- context [PrioritySystem.condition_holds event holdings ?c] =>
              assert (C : exists b, PrioritySystem.condition_holds event holdings c
                                    = Ok b) by (eexists; reflexivity);
              destruct C as [[|] ->]; eauto
            end);
        destruct R4 as [b4 ->]
    end.
    match goal with
    | |- context [PrioritySystem._matches_rule event ?r holdings] =>
      assert (R5 : exists b, PrioritySystem._matches_rule event r holdings = Ok b)
        by (unfold PrioritySystem._matches_rule;
            cbn [PrioritySystem.conditions PrioritySystem.all_hold];
            match goal with
            | |- context [PrioritySystem.condition_holds event holdings ?c] =>
              assert (C : exists b, PrioritySystem.condition_holds event holdings c
                                    = Ok b) by (eexists; reflexivity);
              destruct C as [[|] ->]; eauto
            end);
        destruct R5 as [b5 ->]
    end.
    match goal with
    | |- context [PrioritySystem._matches_rule event ?r holdings] =>
      assert (R6 : PrioritySystem._matches_rule event r holdings = Ok false)
        by (unfold PrioritySystem._matches_rule;
            cbn [PrioritySystem.conditions PrioritySystem.all_hold];
            match goal with
            | |- context [PrioritySystem.condition_holds event holdings ?c] =>
              assert (C : exists b, PrioritySystem.condition_holds event holdings c
                                    = Ok b) by (eexists; reflexivity);
              destruct C as [[|] ->]; reflexivity
            end);
        rewrite R6; clear R6
    end.
    exists b4, b5. destruct b4, b5; reflexivity. }
  destruct Hrules as (b4 & b5 & Hrules).
  assert (Hscore : PrioritySystem.calculate_priority_score clk event holdings
                   = Ok (PrioritySystem.clamp
                           (fmul (fadd (fmul (of_Z 40) (Fin (3 # 10)))
                                       (of_Z ((if b4 then 95 else 0)
                                              + (if b5 then 85 else 0))))
                                 (Fin 1)))).
  { unfold PrioritySystem.calculate_priority_score. rewrite Hrules. reflexivity. }
  rewrite Hscore. destruct b4, b5; eexists; (split; [vm_compute; reflexivity|]);
    split; discriminate.
Qed.

Lemma engine_placeholder_score_witness :
  exists q,
    PrioritySystem.calculate_priority_score no_clock
      [(str "core_event", PStr (str "a"));
       (str "impact_level", PStr (str "low"));
       (str "time_horizon", PStr (str "short"));
       (str "affected_assets", PList []);
       (str "investment_implication", PStr (str "需要进一步分析"));
       (str "confidence", PFloat (Fin (3 # 10)));
       (str "source_file", PStr (str "news.txt"));
       (str "source_line", PInt 1)] None = Ok (Fin q)
    /\ (12 <= q <= 100)%Q.
Proof.
  apply (engine_placeholder_score no_clock None (item_with "a" "news.txt" 1)).
  reflexivity.
Defined.

End EngineMore.

Section DriverMore.
Import Py News EventExtractionAgent OptimizedInvestmentSystem Aux.

Variable llm_call : oracle.
Variable rl : nat.

(** *** How often the oracle is called *)

Lemma fallback_step_counts m news :
  oracle_calls (snd (fallback_step llm_call rl m news)) = S (oracle_calls m)
  /\ llm_calls_total m <= llm_calls_total (snd (fallback_step llm_call rl m news))
  /\ llm_calls_total (snd (fallback_step llm_call rl m news))
     <= S (llm_calls_total m).
Proof.
  unfold fallback_step, process, _process_single, extract_single_event.
  cbn [length Nat.ltb Nat.leb].
  destruct (llm_call (oracle_calls m) (single_prompt news)) as [response|e].
  - destruct (_parse_single_response rl response) as [event|e] eqn:E.
    + rewrite (parse_single_truthy _ _ _ E).
      set (d := dget_or _ _ _).
      assert (Hd : d = PList [event]) by reflexivity. rewrite Hd.
      cbn [py_iter snd record_llm_call called oracle_calls llm_calls_total]. lia.
    + unfold EventExtractionAgent._create_default_event. cbn [truthy].
      set (d := dget_or _ _ _).
      assert (Hd : exists event, d = PList [event]) by (eexists; reflexivity).
      destruct Hd as [event ->].
      cbn [py_iter snd record_llm_call called oracle_calls llm_calls_total]. lia.
  - cbn [snd called oracle_calls llm_calls_total]. lia.
Qed.

Lemma fallback_counts news_batch : forall m,
  oracle_calls (snd (_fallback_single_processing llm_call rl m news_batch))
  = oracle_calls m + length news_batch
  /\ llm_calls_total m
     <= llm_calls_total (snd (_fallback_single_processing llm_call rl m news_batch))
  /\ llm_calls_total (snd (_fallback_single_processing llm_call rl m news_batch))
     <= llm_calls_total m + length news_batch.
Proof.
  induction news_batch as [|news rest IH]; intros m;
    cbn [_fallback_single_processing length]; [cbn; lia|].
  pose proof (fallback_step_counts m news) as H1.
  destruct (fallback_step llm_call rl m news) as [events m1]. cbn [snd] in H1.
  pose proof (IH m1) as H2.
  destruct (_fallback_single_processing llm_call rl m1 rest) as [more m2].
  cbn [snd] in *. lia.
Qed.

Lemma process_news_batch_oracle_calls m news_batch :
  oracle_calls (snd (_process_news_batch llm_call rl m news_batch))
  <= oracle_calls m + 1 + length news_batch.
Proof.
  unfold _process_news_batch. destruct news_batch as [|news rest]; [cbn; lia|].
  pose proof (fallback_counts (news :: rest) (called m)) as (Hfb & _).
  assert (Hgoal :
    oracle_calls
      (snd (let (events, m') :=
              _fallback_single_processing llm_call rl (called m) (news :: rest)
            in (PList events, m')))
    <= oracle_calls m + 1 + length (news :: rest)).
  { destruct (_fallback_single_processing llm_call rl (called m) (news :: rest))
      as [events m1]. cbn [snd called oracle_calls] in *. lia. }
  destruct (llm_call (oracle_calls m) (_build_batch_prompt (news :: rest)))
    as [response|e]; [|exact Hgoal].
  destruct (_parse_batch_response rl response (news :: rest)); [|exact Hgoal].
  cbn. lia.
Qed.

(** X24.  One batch costs at most one call of the oracle for the batch and one
    per item, and none when the batch is empty.  The counter of the
    performance monitor never runs ahead of the calls really made: a
    batch call that fails is not counted. *)
Theorem process_news_batch_call_budget m news_batch :
  let m' := snd (_process_news_batch llm_call rl m news_batch) in
  oracle_calls m <= oracle_calls m'
  /\ oracle_calls m' <= oracle_calls m + 1 + length news_batch
  /\ (news_batch = [] -> m' = m)
  /\ llm_calls_total m <= llm_calls_total m'
  /\ llm_calls_total m' - llm_calls_total m <= oracle_calls m' - oracle_calls m.
Proof.
  unfold _process_news_batch. destruct news_batch as [|news rest].
  - cbn. repeat split; lia.
  - pose proof (fallback_counts (news :: rest) (called m)) as Hfb.
    assert (Hgoal :
      let m' := snd (let (events, m'0) :=
                       _fallback_single_processing llm_call rl (called m) (news :: rest)
                     in (PList events, m'0)) in
      oracle_calls m <= oracle_calls m'
      /\ oracle_calls m' <= oracle_calls m + 1 + length (news :: rest)
      /\ (news :: rest = [] -> m' = m)
      /\ llm_calls_total m <= llm_calls_total m'
      /\ llm_calls_total m' - llm_calls_total m <= oracle_calls m' - oracle_calls m).
    { destruct (_fallback_single_processing llm_call rl (called m) (news :: rest))
        as [events m1]. cbn [snd called oracle_calls llm_calls_total] in *.
      repeat split; try lia. discriminate. }
    destruct (llm_call (oracle_calls m) (_build_batch_prompt (news :: rest)))
      as [response|e]; [|exact Hgoal].
    destruct (_parse_batch_response rl response (news :: rest)); [|exact Hgoal].
    cbn. repeat split; try lia. discriminate.
Qed.

(** *** The batches of the driver *)

Lemma take_min_length {A} (l : list A) n : take (Nat.min n (length l)) l = take n l.
Proof.
  destruct (Nat.le_ge_cases n (length l)) as [H|H].
  - rewrite Nat.min_l by exact H. reflexivity.
  - rewrite Nat.min_r by exact H. rewrite !take_ge by lia. reflexivity.
Qed.

Lemma batch_slice_take (news_items : list Item) batch_size batch_num :
  take (batch_num * batch_size) news_items
  ++ batch_slice news_items batch_size batch_num
  = take ((batch_num + 1) * batch_size) news_items.
Proof.
  unfold batch_slice. rewrite take_min_length.
  assert (E : take (batch_num * batch_size) news_items
              = take (batch_num * batch_size)
                  (take ((batch_num + 1) * batch_size) news_items)).
  { rewrite take_take. f_equal. lia. }
  rewrite E. apply take_drop.
Qed.

Lemma slices_from (news_items : list Item) batch_size todo : forall batch_num,
  take (batch_num * batch_size) news_items
  ++ concat (map (batch_slice news_items batch_size) (seq batch_num todo))
  = take ((batch_num + todo) * batch_size) news_items.
Proof.
  induction todo as [|todo IH]; intros batch_num; cbn [seq map concat].
  - rewrite app_nil_r, Nat.add_0_r. reflexivity.
  - rewrite app_assoc, batch_slice_take.
    replace (batch_num + 1) with (S batch_num) by lia. rewrite IH.
    f_equal. lia.
Qed.

Lemma total_batches_covers len batch_size :
  1 <= batch_size -> len <= total_batches len batch_size * batch_size.
Proof.
  intros H. unfold total_batches.
  pose proof (Nat.div_mod_eq (len + batch_size - 1) batch_size) as E.
  pose proof (Nat.mod_upper_bound (len + batch_size - 1) batch_size) as U.
  nia.
Qed.

Lemma total_batches_tight len batch_size batch_num :
  1 <= batch_size -> batch_num < total_batches len batch_size ->
  batch_num * batch_size < len.
Proof.
  intros H. unfold total_batches.
  pose proof (Nat.div_mod_eq (len + batch_size - 1) batch_size) as E.
  pose proof (Nat.mod_upper_bound (len + batch_size - 1) batch_size) as U.
  nia.
Qed.

Lemma slices_cover (news_items : list Item) batch_size :
  1 <= batch_size ->
  concat (map (batch_slice news_items batch_size)
            (seq 0 (total_batches (length news_items) batch_size)))
  = news_items.
Proof.
  intros Hsize.
  pose proof (slices_from news_items batch_size
                (total_batches (length news_items) batch_size) 0) as H.
  assert (H0 : take (0 * batch_size) news_items = []) by reflexivity.
  rewrite H0, Nat.add_0_l in H. cbn [app] in H. rewrite H. apply take_ge.
  apply total_batches_covers, Hsize.
Qed.

(** X25.  The batches the driver cuts, taken in order, are the list of items
    again: no item is left out and none is sent twice.  No batch is empty
    and none has more than [batch_size] items. *)
Theorem batches_partition (news_items : list Item) batch_size :
  1 <= batch_size ->
  concat (map (batch_slice news_items batch_size)
            (seq 0 (total_batches (length news_items) batch_size)))
  = news_items
  /\ forall batch_num,
       batch_num < total_batches (length news_items) batch_size ->
       1 <= length (batch_slice news_items batch_size batch_num) <= batch_size.
Proof.
  intros Hsize. split.
  - apply slices_cover, Hsize.
  - intros batch_num Hnum. unfold batch_slice.
    rewrite length_drop, length_take.
    pose proof (total_batches_tight _ _ _ Hsize Hnum). nia.
Qed.

Lemma batches_partition_witness :
  concat (map (batch_slice five_items 2) (seq 0 (total_batches (length five_items) 2)))
  = five_items
  /\ forall batch_num,
       batch_num < total_batches (length five_items) 2 ->
       1 <= length (batch_slice five_items 2 batch_num) <= 2.
Proof. apply (batches_partition five_items 2). lia. Defined.

(** *** The driver never raises *)

Lemma reconcile_iterable original_news batch_events v :
  reconcile original_news batch_events = Ok v -> exists l, py_iter v = Ok l.
Proof.
  unfold reconcile.
  destruct batch_events as [| | | |s|events|d]; cbn [py_len py_iter]; try discriminate.
  - destruct (annotate_all original_news _); [|discriminate].
    intros [= <-]. eexists. reflexivity.
  - destruct (annotate_all original_news events); [|discriminate].
    intros [= <-]. eexists. reflexivity.
  - destruct (annotate_all original_news _); [|discriminate].
    intros [= <-]. eexists. reflexivity.
Qed.

Lemma process_news_batch_iterable m news_batch :
  exists l, py_iter (fst (_process_news_batch llm_call rl m news_batch)) = Ok l.
Proof.
  unfold _process_news_batch. destruct news_batch as [|news rest];
    [eexists; reflexivity|].
  assert (Hfb : exists l,
    py_iter (fst (let (events, m') :=
                    _fallback_single_processing llm_call rl (called m) (news :: rest)
                  in (PList events, m'))) = Ok l).
  { destruct (_fallback_single_processing llm_call rl (called m) (news :: rest)).
    eexists. reflexivity. }
  destruct (llm_call (oracle_calls m) (_build_batch_prompt (news :: rest)))
    as [response|e]; [|exact Hfb].
  destruct (_parse_batch_response rl response (news :: rest)) as [v|e] eqn:E;
    [|exact Hfb].
  cbn [fst]. revert E. unfold _parse_batch_response.
  destruct (json_part response); [|discriminate].
  destruct (Json.loads rl _) as [[| | | | | |result]|]; try discriminate.
  apply reconcile_iterable.
Qed.

Lemma batches_loop_returns (news_items : list Item) batch_size todo :
  forall batch_num m all_events,
  exists events m',
    batches_loop llm_call rl todo batch_num batch_size news_items m all_events
    = (Ok events, m')
    /\ oracle_calls m'
       <= oracle_calls m + todo
          + length (concat (map (batch_slice news_items batch_size)
                              (seq batch_num todo))).
Proof.
  induction todo as [|todo IH]; intros batch_num m all_events;
    cbn [batches_loop seq map concat].
  - do 2 eexists. split; [reflexivity | lia].
  - pose proof (process_news_batch_iterable m
                  (batch_slice news_items batch_size batch_num)) as [l Hl].
    pose proof (process_news_batch_oracle_calls m
                  (batch_slice news_items batch_size batch_num)) as Hb.
    destruct (_process_news_batch llm_call rl m
                (batch_slice news_items batch_size batch_num)) as [batch_events m1].
    cbn [fst snd] in Hl, Hb. rewrite Hl.
    destruct (IH (S batch_num) m1 (all_events ++ l)) as (events & m' & -> & Hcalls).
    do 2 eexists. split; [reflexivity|]. rewrite length_app. lia.
Qed.

(** X26.  With a batch size of at least one the driver returns a result whatever
    the oracle answers or raises: it reports every item as processed, and
    has called the oracle at most once per batch and once per item. *)
Theorem batch_extract_events_returns m news_items batch_size :
  1 <= batch_size ->
  exists result m',
    _batch_extract_events llm_call rl m news_items batch_size = (Ok result, m')
    /\ dget result (str "total_processed")
       = Some (PInt (Z.of_nat (length news_items)))
    /\ oracle_calls m'
       <= oracle_calls m + total_batches (length news_items) batch_size
          + length news_items.
Proof.
  intros Hsize. unfold _batch_extract_events.
  destruct news_items as [|news rest].
  - do 2 eexists. split; [reflexivity|]. split; [reflexivity | lia].
  - destruct batch_size as [|n]; [lia|].
    destruct (batches_loop_returns (news :: rest) (S n)
                (total_batches (length (news :: rest)) (S n)) 0 m [])
      as (events & m' & -> & Hcalls).
    rewrite (slices_cover (news :: rest) (S n) Hsize) in Hcalls.
    do 2 eexists. split; [reflexivity|]. split; [reflexivity | exact Hcalls].
Qed.

(** *** The oracle is down *)

Lemma single_events_when_down k news_batch :
  (forall n p, is_ok (llm_call n p) = false) ->
  single_events llm_call rl k news_batch = map _create_default_event news_batch.
Proof.
  intros Hdown. revert k. induction news_batch as [|news rest IH]; intros k;
    cbn [single_events map]; [reflexivity|].
  rewrite IH. f_equal. unfold single_event.
  specialize (Hdown k (single_prompt news)).
  destruct (llm_call k (single_prompt news)); [discriminate | reflexivity].
Qed.

Lemma process_news_batch_when_down m news_batch :
  (forall n p, is_ok (llm_call n p) = false) ->
  fst (_process_news_batch llm_call rl m news_batch)
  = PList (map _create_default_event news_batch).
Proof.
  intros Hdown. unfold _process_news_batch.
  destruct news_batch as [|news rest]; [reflexivity|].
  pose proof (Hdown (oracle_calls m) (_build_batch_prompt (news :: rest))) as H.
  destruct (llm_call (oracle_calls m) (_build_batch_prompt (news :: rest)));
    [discriminate|].
  destruct (fallback_events llm_call rl (called m) (news :: rest)) as (m' & -> & _).
  cbn [fst]. rewrite single_events_when_down by exact Hdown. reflexivity.
Qed.

Lemma batches_loop_when_down (news_items : list Item) batch_size todo :
  (forall n p, is_ok (llm_call n p) = false) ->
  forall batch_num m all_events,
    fst (batches_loop llm_call rl todo batch_num batch_size news_items m all_events)
    = Ok (all_events
          ++ map _create_default_event
               (concat (map (batch_slice news_items batch_size)
                          (seq batch_num todo)))).
Proof.
  intros Hdown. induction todo as [|todo IH]; intros batch_num m all_events;
    cbn [batches_loop seq map concat].
  - rewrite app_nil_r. reflexivity.
  - pose proof (process_news_batch_when_down m
                  (batch_slice news_items batch_size batch_num) Hdown) as H.
    destruct (_process_news_batch llm_call rl m
                (batch_slice news_items batch_size batch_num)) as [batch_events m1].
    cbn [fst] in H. subst batch_events. cbn [py_iter].
    rewrite IH, map_app, app_assoc. reflexivity.
Qed.

(** X27.  When every call of the oracle raises, the driver still returns: each
    item gets the placeholder of the engine, in the order of the items,
    whatever the batch size. *)
Theorem batch_extract_events_when_down m news_items batch_size :
  (forall n p, is_ok (llm_call n p) = false) ->
  1 <= batch_size ->
  exists result,
    fst (_batch_extract_events llm_call rl m news_items batch_size) = Ok result
    /\ dget result (str "extracted_events")
       = Some (PList (map _create_default_event news_items)).
Proof.
  intros Hdown Hsize. unfold _batch_extract_events.
  destruct news_items as [|news rest]; [eexists; split; reflexivity|].
  destruct batch_size as [|n]; [lia|].
  pose proof (batches_loop_when_down (news :: rest) (S n)
                (total_batches (length (news :: rest)) (S n)) Hdown 0 m []) as H.
  rewrite (slices_cover (news :: rest) (S n) Hsize) in H. cbn [app] in H.
  destruct (batches_loop llm_call rl _ 0 (S n) (news :: rest) m [])
    as [[events|e] m']; cbn [fst] in H; [|discriminate].
  injection H as ->. eexists. split; reflexivity.
Qed.

End DriverMore.

Section DriverMoreExamples.
Import Py News EventExtractionAgent OptimizedInvestmentSystem Aux.

Lemma batch_extract_events_returns_witness :
  exists result m',
    _batch_extract_events prose_oracle 10 fresh_monitor five_items 2 = (Ok result, m')
    /\ dget result (str "total_processed")
       = Some (PInt (Z.of_nat (length five_items)))
    /\ oracle_calls m'
       <= oracle_calls fresh_monitor + total_batches (length five_items) 2
          + length five_items.
Proof.
  apply (batch_extract_events_returns prose_oracle 10 fresh_monitor five_items 2).
  lia.
Defined.

Lemma batch_extract_events_when_down_witness :
  exists result,
    fst (_batch_extract_events dead_oracle 10 fresh_monitor five_items 2) = Ok result
    /\ dget result (str "extracted_events")
       = Some (PList (map _create_default_event five_items)).
Proof.
  apply (batch_extract_events_when_down dead_oracle 10 fresh_monitor five_items 2);
    [reflexivity | lia].
Defined.

End DriverMoreExamples.

(** ** Loading and deduplication *)

Section DedupMore.
Import Py News OptimizedInvestmentSystem Spec Aux.

Variable md5 : pystr -> pystr.

(** The loop for any target count, started on a state that agrees with
    [kept]. *)
Lemma scan_loop_invariant size generator : forall kept st,
  aligned md5 kept st ->
  first_occurrences md5 kept ->
  let st' := scan_loop md5 size generator st in
  aligned md5 (all_news st') st'
  /\ first_occurrences md5 (all_news st')
  /\ (exists extra, all_news st' = kept ++ extra /\ sublist extra generator
                    /\ (kept = [] -> generator <> [] ->
                        head extra = head generator))
  /\ news_count st' <= news_count st + length generator
  /\ (Z.of_nat (length (all_news st'))
      <= Z.max size (Z.of_nat (length kept) + 1))%Z.
Proof.
  induction generator as [|news rest IH]; intros kept st Hal Hfirst.
  - cbn [scan_loop].
    assert (E : all_news st = kept) by (destruct Hal as (H1 & _); exact H1).
    rewrite E. split; [exact Hal|]. split; [exact Hfirst|].
    split; [|cbn [length]; lia].
    exists []. rewrite app_nil_r.
    split; [reflexivity|]. split; [constructor | congruence].
  - cbn [scan_loop].
    pose proof (seen_is_duplicate md5 kept st news Hal) as Hseen.
    assert (Hskip :
      existsb (duplicates md5 news) kept = true ->
      let st' := scan_loop md5 size rest (count_duplicate st) in
      aligned md5 (all_news st') st'
      /\ first_occurrences md5 (all_news st')
      /\ (exists extra, all_news st' = kept ++ extra /\ sublist extra (news :: rest)
                        /\ (kept = [] -> news :: rest <> [] ->
                            head extra = head (news :: rest)))
      /\ news_count st' <= news_count st + length (news :: rest)
      /\ (Z.of_nat (length (all_news st'))
          <= Z.max size (Z.of_nat (length kept) + 1))%Z).
    { intros Hdup.
      destruct (IH kept (count_duplicate st) (aligned_duplicate md5 _ _ Hal) Hfirst)
        as (Ha & Hb & (extra & Hc & Hd & _) & He & Hf).
      split; [exact Ha|]. split; [exact Hb|].
      split.
      - exists extra. split; [exact Hc|]. split; [apply sublist_cons, Hd|].
        intros -> _. cbn [existsb] in Hdup. discriminate.
      - cbn [count_duplicate news_count length] in *. split; [lia | exact Hf]. }
    destruct (id_seen (item_id news) (processed_ids st)) eqn:Hid.
    { apply Hskip. rewrite <- Hseen. reflexivity. }
    destruct (bool_decide (content_hash md5 news ∈ processed_hashes st)) eqn:Hhash.
    { apply Hskip. rewrite <- Hseen. reflexivity. }
    cbn [orb] in Hseen. symmetry in Hseen.
    pose proof (aligned_keep md5 kept st news Hal) as Hal'.
    pose proof (first_occurrences_snoc md5 kept news Hfirst Hseen) as Hfirst'.
    assert (Hlen : length (all_news (keep md5 news st)) = S (length kept)).
    { destruct Hal' as (H1 & _). rewrite H1, length_app. cbn [length]. lia. }
    destruct (size <=? Z.of_nat (length (all_news (keep md5 news st))))%Z eqn:Hstop.
    + apply Z.leb_le in Hstop.
      assert (E : all_news (keep md5 news st) = kept ++ [news])
        by (destruct Hal' as (H1 & _); exact H1).
      cbv zeta. rewrite E. rewrite E in Hlen.
      split; [exact Hal'|]. split; [exact Hfirst'|].
      split.
      * exists [news]. split; [reflexivity|].
        split; [apply sublist_skip, sublist_nil_l | reflexivity].
      * cbn [keep news_count length]. split; [lia|]. rewrite Hlen. lia.
    + apply Z.leb_gt in Hstop.
      destruct (IH (kept ++ [news]) (keep md5 news st) Hal' Hfirst')
        as (Ha & Hb & (extra & Hc & Hd & _) & He & Hf).
      split; [exact Ha|]. split; [exact Hb|].
      split.
      * exists (news :: extra). rewrite Hc, <- app_assoc.
        split; [reflexivity|]. split; [apply sublist_skip, Hd | reflexivity].
      * cbn [keep news_count length] in *. split; [lia|].
        rewrite length_app in Hf. cbn [length] in Hf. lia.
Qed.

(** X28.  Whatever the target count - zero and negative counts included - the
    list returned is cut from the source: a sub-list of it, in the order
    of the source, that starts with the first item of the source.  It has
    at most [max(1, size)] items, and the scan never reads past the
    source. *)
Theorem load_news_batch_is_cut_from_source size generator :
  let st := _load_news_batch md5 size generator in
  sublist (all_news st) generator
  /\ head (all_news st) = head generator
  /\ (Z.of_nat (length (all_news st)) <= Z.max 1 size)%Z
  /\ news_count st <= length generator.
Proof.
  unfold _load_news_batch.
  destruct (scan_loop_invariant size generator [] scan_start
              (aligned_start md5) (first_occurrences_nil md5))
    as (_ & _ & (extra & Hc & Hd & Hhead) & He & Hf).
  cbn [app] in Hc. rewrite Hc.
  split; [exact Hd|]. split.
  - destruct generator as [|news rest].
    + apply sublist_nil_r in Hd. rewrite Hd. reflexivity.
    + apply Hhead; [reflexivity | discriminate].
  - rewrite Hc in Hf. cbn [length scan_start news_count] in *. split; lia.
Qed.

(** X29.  An item without a content is fingerprinted as the empty text: of all
    the items whose content is missing or empty, at most one is returned,
    whatever their ids. *)
Theorem items_without_content_kept_once size generator i j x y :
  all_news (_load_news_batch md5 size generator) !! i = Some x ->
  all_news (_load_news_batch md5 size generator) !! j = Some y ->
  text_or [] (content x) = [] ->
  text_or [] (content y) = [] ->
  i = j.
Proof.
  unfold _load_news_batch.
  destruct (scan_loop_invariant size generator [] scan_start
              (aligned_start md5) (first_occurrences_nil md5))
    as (_ & Hfirst & _).
  set (l := all_news _) in *. clearbody l.
  assert (H : forall i j x y, i < j -> l !! i = Some x -> l !! j = Some y ->
              text_or [] (content x) = [] -> text_or [] (content y) = [] -> False).
  { clear i j x y. intros i j x y Hij Hx Hy Ex Ey.
    apply list_elem_of_split_length in Hy as (before & after & -> & ->).
    pose proof (Hfirst before y after eq_refl) as Hnone.
    rewrite lookup_app_l in Hx by exact Hij.
    assert (Hdup : existsb (duplicates md5 y) before = true).
    { apply existsb_exists. exists x.
      split; [apply list_elem_of_In; eapply list_elem_of_lookup_2, Hx|].
      apply (duplicates_iff md5). right. unfold content_hash. rewrite Ex, Ey.
      reflexivity. }
    congruence. }
  intros Hx Hy Ex Ey.
  destruct (Nat.lt_trichotomy i j) as [Hlt | [-> | Hgt]]; [|reflexivity|].
  - exfalso. apply (H i j x y); assumption.
  - exfalso. apply (H j i y x); assumption.
Qed.

(** The loop over a list that holds no duplicates and is not longer than
    the target count allows keeps every item. *)
Lemma scan_loop_keeps_all size items : forall kept st,
  aligned md5 kept st ->
  first_occurrences md5 (kept ++ items) ->
  (Z.of_nat (length (kept ++ items)) <= Z.max size (Z.of_nat (length kept) + 1))%Z ->
  all_news (scan_loop md5 size items st) = kept ++ items
  /\ duplicate_count (scan_loop md5 size items st) = duplicate_count st.
Proof.
  induction items as [|news rest IH]; intros kept st Hal Hfirst Hlen.
  - cbn [scan_loop]. rewrite app_nil_r. destruct Hal as (H1 & _). auto.
  - cbn [scan_loop].
    pose proof (seen_is_duplicate md5 kept st news Hal) as Hseen.
    rewrite (Hfirst kept news rest eq_refl) in Hseen.
    apply orb_false_elim in Hseen as [-> ->].
    pose proof (aligned_keep md5 kept st news Hal) as Hal'.
    assert (E : all_news (keep md5 news st) = kept ++ [news])
      by (destruct Hal' as (H1 & _); exact H1).
    rewrite E. rewrite !length_app in *. cbn [length] in *.
    destruct (size <=? Z.of_nat (length kept + 1))%Z eqn:Hstop.
    + apply Z.leb_le in Hstop.
      assert (rest = []) as -> by (destruct rest; [reflexivity | cbn [length] in Hlen; lia]).
      split; [exact E | reflexivity].
    + apply Z.leb_gt in Hstop.
      destruct (IH (kept ++ [news]) (keep md5 news st) Hal') as [H1 H2].
      * rewrite <- app_assoc. exact Hfirst.
      * rewrite !length_app. cbn [length]. lia.
      * rewrite H1, H2, <- app_assoc. split; reflexivity.
Qed.

(** X30.  Deduplication is idempotent: loading again from the list that was
    returned, with the same target count, returns that list and counts no
    duplicate. *)
Theorem load_news_batch_idempotent size generator :
  let loaded := all_news (_load_news_batch md5 size generator) in
  all_news (_load_news_batch md5 size loaded) = loaded
  /\ duplicate_count (_load_news_batch md5 size loaded) = 0.
Proof.
  unfold _load_news_batch.
  destruct (scan_loop_invariant size generator [] scan_start
              (aligned_start md5) (first_occurrences_nil md5))
    as (_ & Hfirst & _ & _ & Hlen).
  set (l := all_news _) in *. clearbody l. cbn [length] in Hlen.
  destruct (scan_loop_keeps_all size l [] scan_start (aligned_start md5))
    as [H1 H2]; [exact Hfirst | cbn [app length]; lia |].
  cbn [app] in H1. split; [exact H1 | exact H2].
Qed.

End DedupMore.

Section DedupMoreExamples.
Import Py News OptimizedInvestmentSystem Spec Aux.

Lemma items_without_content_kept_once_witness : 0 = 0.
Proof.
  apply (items_without_content_kept_once (fun c => c) 5
           [empty_item; item_with "a" "news.txt" 2] 0 0 empty_item empty_item);
    reflexivity.
Defined.

End DedupMoreExamples.
